(** * OneFantasy draft room: turn order, draft store and personal queue

    A shallow embedding of the draft logic of the OneFantasy front end:

    - [getDraftOrder]             frontend/src/components/MockDraftSimulator.tsx
    - [Store.appReducer],
      [Store.getCurrentDraftTeam] frontend/src/store.ts
    - [isValidDraftSettings]      frontend/src/utils/validators.ts
    - [Grid.gridPickNumbers]      frontend/src/components/DraftGrid.tsx
    - [Mock.draftPlayer] etc.     frontend/src/components/MockDraftSimulator.tsx
    - [Room.handleMakePick] etc.  frontend/src/pages/DraftRoom.tsx
    - [Validators.isValidLineup] etc.   frontend/src/utils/validators.ts
    - [Formatters.formatOrdinal] etc.   frontend/src/utils/formatters.ts

    Numbers.  The source computes on JavaScript numbers.  Every number that
    reaches the functions below is a pick number, an array length or a
    player id, so finite values are modelled as [Z] (exact below 2^53); the
    non-finite values that [x / 0] and [x % 0] produce are kept, because the
    behaviour with zero teams depends on them.  The settings validator
    takes any number, NaN included, which passes its comparisons
    ([number]).  Negative zero is identified with zero: the code only adds
    to it, subtracts it or compares it with [=== 0], which do not tell the
    two apart.

    Renders.  A React handler reads the cells of the render that created
    it.  A click runs the handler of the latest render; the timer set by
    [draftPlayer] runs the handlers of the render in which it was set
    ([Mock.draftPlayerFrom], [Mock.autoPickForCPU_resume]). *)

From Stdlib Require Import ZArith List String Bool Lia QArith Qround Permutation.
From Stdlib Require Import DecimalString.
Import ListNotations.
Open Scope Z_scope.

(** ** JavaScript numbers *)

Inductive jsnum : Type :=
| Num (z : Z)
| PInf
| NInf
| NaN.

Definition jsnum_eqb (a b : jsnum) : bool :=
  match a, b with
  | Num x, Num y => x =? y
  | PInf, PInf => true
  | NInf, NInf => true
  | _, _ => false          (* NaN === NaN is false *)
  end.

(** [Math.ceil(a / b)] for integers [a] and [b <> 0], as the ceiling of the
    exact quotient. *)
Definition ceil_div (a b : Z) : Z := Qceiling (inject_Z a / inject_Z b).

(** [Math.ceil(a / b)] for integers [a], [b]: [a / 0] is an infinity of the
    sign of [a], and [0 / 0] is NaN; [Math.ceil] keeps those. *)
Definition js_ceil_div (a b : Z) : jsnum :=
  if b =? 0 then
    (if 0 <? a then PInf else if a <? 0 then NInf else NaN)
  else Num (ceil_div a b).

(** [x % m] for an integer [m]: the remainder has the sign of the dividend
    ([Z.rem]); it is NaN when [m] is zero or [x] is not finite. *)
Definition js_rem (x : jsnum) (m : Z) : jsnum :=
  match x with
  | Num a => if m =? 0 then NaN else Num (Z.rem a m)
  | _ => NaN
  end.

Definition js_add (x y : jsnum) : jsnum :=
  match x, y with
  | Num a, Num b => Num (a + b)
  | NaN, _ | _, NaN => NaN
  | PInf, NInf | NInf, PInf => NaN
  | PInf, _ | _, PInf => PInf
  | NInf, _ | _, NInf => NInf
  end.

Definition js_neg (x : jsnum) : jsnum :=
  match x with
  | Num a => Num (- a)
  | PInf => NInf
  | NInf => PInf
  | NaN => NaN
  end.

Definition js_sub (x y : jsnum) : jsnum := js_add x (js_neg y).

(** [arr[i]]: [undefined] (here [None]) unless [i] is an index of [arr]. *)
Definition js_index {A : Type} (arr : list A) (i : jsnum) : option A :=
  match i with
  | Num z => if z <? 0 then None else nth_error arr (Z.to_nat z)
  | _ => None
  end.

Definition len {A : Type} (l : list A) : Z := Z.of_nat (List.length l).

(** [`${n}`] for an integer [n] with [-10^21 < n < 10^21], which JavaScript
    prints with all its decimal digits (from 10^21 on it prints an
    exponent). *)
Definition string_of_Z (n : Z) : string := NilZero.string_of_int (Z.to_int n).

(** ** The turn resolver of MockDraftSimulator *)

(** [getDraftOrder(pick, totalTeams)]: 0-based index of the team on the
    clock (snake draft). *)
Definition getDraftOrder (pick totalTeams : Z) : jsnum :=
  let round := js_ceil_div pick totalTeams in
  let isEvenRound := jsnum_eqb (js_rem round 2) (Num 0) in
  let positionInRound := js_add (js_rem (Num (pick - 1)) totalTeams) (Num 1) in
  if isEvenRound
  then js_sub (Num totalTeams) positionInRound
  else js_sub positionInRound (Num 1).

(** How a call completes: the body of a JavaScript function either returns
    a value or throws. *)
Inductive completion (A : Type) : Type :=
| Return (a : A)
| Throw (msg : string).
Arguments Return {A} a.
Arguments Throw {A} msg.

(** A call of [getDraftOrder] always completes normally: its body has no
    [throw], and arithmetic on numbers never raises in JavaScript. *)
Definition call_getDraftOrder (pick totalTeams : Z) : completion jsnum :=
  Return (getDraftOrder pick totalTeams).

(** ** validators.ts: isValidDraftSettings *)

(** A number as a form may hand it to the validator: any finite double,
    which is a rational, an infinity or NaN.  The validator only compares
    it with constants. *)
Inductive number : Type :=
| Finite (q : Q)
| PosInfinity
| NegInfinity
| NotANumber.

(** [x < y]; [x > y] is [number_ltb y x].  A comparison with NaN is
    false. *)
Definition number_ltb (x y : number) : bool :=
  match x, y with
  | Finite a, Finite b => negb (Qle_bool b a)
  | NegInfinity, Finite _ | NegInfinity, PosInfinity
  | Finite _, PosInfinity => true
  | _, _ => false
  end.

(** The argument of [isValidDraftSettings]; an absent field is
    [undefined]. *)
Record DraftSettingsInput : Type := {
  ds_rounds : option number;
  ds_pick_duration : option number;
  ds_draft_type : option string
}.

Definition validTypes : list string := ["snake"; "linear"; "random"]%string.

Definition includes (l : list string) (s : string) : bool :=
  existsb (String.eqb s) l.

Definition isValidDraftSettings (settings : DraftSettingsInput)
  : bool * list string :=
  let errors := [] in
  let errors :=
    match ds_rounds settings with
    | Some r =>
        if number_ltb r (Finite 10) || number_ltb (Finite 20) r
        then errors ++ ["Draft rounds must be between 10 and 20"%string]
        else errors
    | None => errors
    end in
  let errors :=
    match ds_pick_duration settings with
    | Some d =>
        if number_ltb d (Finite 30) || number_ltb (Finite 300) d
        then errors ++ ["Pick duration must be between 30 and 300 seconds"%string]
        else errors
    | None => errors
    end in
  let errors :=
    match ds_draft_type settings with
    | Some t =>
        if negb (includes validTypes t)
        then errors ++ ["Invalid draft type"%string]
        else errors
    | None => errors
    end in
  (Nat.eqb (List.length errors) 0, errors).

(** ** DraftGrid: the pick number shown in each cell *)

Module Grid.

(** The body of the inner loop of [gridData]: the pick number of the cell
    in row [round] (1-based) and column [teamIndex] (0-based), for
    [teams.length = teamsLength]. *)
Definition pickNumber (isSnakeDraft : bool) (teamsLength round teamIndex : Z) : Z :=
  if isSnakeDraft && (Z.rem round 2 =? 0)
  then (round - 1) * teamsLength + (teamsLength - teamIndex)
  else (round - 1) * teamsLength + (teamIndex + 1).

(** [for (let teamIndex = 0; teamIndex < teams.length; teamIndex++)] *)
Definition roundPickNumbers (isSnakeDraft : bool) (teamsLength : nat) (round : Z)
  : list Z :=
  map (fun teamIndex => pickNumber isSnakeDraft (Z.of_nat teamsLength) round
                                   (Z.of_nat teamIndex))
      (seq 0 teamsLength).

(** [for (let round = 1; round <= totalRounds; round++)] *)
Definition gridPickNumbers (isSnakeDraft : bool) (teamsLength totalRounds : nat)
  : list (list Z) :=
  map (fun round => roundPickNumbers isSnakeDraft teamsLength (Z.of_nat round))
      (seq 1 totalRounds).

(** [gridData]: each cell holds [picksByNumber[pickNumber] || null]; the
    lookup table is built by a [reduce] that lets a later pick with the
    same number overwrite an earlier one. *)
Definition gridData {Pick : Type} (pick_number : Pick -> Z) (picks : list Pick)
    (isSnakeDraft : bool) (teamsLength totalRounds : nat)
  : list (list (option Pick)) :=
  let picksByNumber (n : Z) :=
    find (fun p => pick_number p =? n) (rev picks) in
  map (map picksByNumber) (gridPickNumbers isSnakeDraft teamsLength totalRounds).

(** The pick number the render loop recomputes for the cell in row
    [roundIndex] (0-based) and column [teamIndex]. *)
Definition renderPickNumber (isSnakeDraft : bool)
    (teamsLength roundIndex teamIndex : Z) : Z :=
  if isSnakeDraft && (Z.rem (roundIndex + 1) 2 =? 0)
  then roundIndex * teamsLength + (teamsLength - teamIndex)
  else roundIndex * teamsLength + (teamIndex + 1).

(** [getPickStatus(pickNumber)], for the [currentPick] prop. *)
Definition getPickStatus (currentPick pickNumber : Z) : string :=
  if pickNumber <? currentPick then "completed"
  else if pickNumber =? currentPick then "current"
  else "upcoming".

End Grid.

(** [arr.map((x, index) => f x index)] *)
Fixpoint mapi_from {A B : Type} (i : nat) (f : A -> nat -> B) (l : list A) : list B :=
  match l with
  | [] => []
  | x :: l' => f x i :: mapi_from (S i) f l'
  end.

Definition mapi {A B : Type} (f : A -> nat -> B) (l : list A) : list B :=
  mapi_from 0 f l.

(** ** store.ts: the application store and its reducer *)

Module Store.

(** Of the records of types/index.ts the fields the reducer and the
    selectors read or write are kept, with a few others beside them; the
    remaining fields are copied unchanged by every object spread. *)

Record Player : Type := {
  p_id : Z;
  p_web_name : string;
  p_position : string;
  p_total_points : Z;
  p_selected_by_percent : Z
}.

Record Roster : Type := {
  starters : list Z;
  bench : list Z;
  injured_reserve : list Z
}.

Record Team : Type := {
  t_id : string;
  t_name : string;
  t_roster : Roster
}.

Record League : Type := {
  l_id : string;
  l_name : string;
  l_teams : list Team
}.

(** The pick objects the reducer builds carry [pick_in_round] and no
    [is_auto_pick]; those of the simulator the other way round. *)
Record DraftPick : Type := {
  dp_id : string;
  dp_league_id : string;
  dp_team_id : string;
  dp_player_id : Z;
  dp_round : Z;
  dp_pick_number : Z;
  dp_pick_in_round : option Z;
  dp_timestamp : string;
  dp_is_auto_pick : option bool
}.

Record DraftState : Type := {
  isActive : bool;
  currentPick : Z;
  currentRound : Z;
  timeRemaining : Z;
  isMyTurn : bool;
  d_availablePlayers : list Player;
  draftBoard : list (list DraftPick);
  queuedPlayers : list Player
}.

Record NotificationState : Type := {
  n_trades : bool;
  n_waivers : bool;
  n_lineupReminders : bool;
  n_news : bool;
  n_scores : bool
}.

Record Loading : Type := {
  ld_user : bool;
  ld_league : bool;
  ld_players : bool;
  ld_draft : bool
}.

Inductive LoadingKey : Type := KUser | KLeague | KPlayers | KDraft.

Record AppState : Type := {
  user : option string;
  currentLeague : option League;
  userTeam : option Team;
  draftState : option DraftState;
  availablePlayers : list Player;
  notifications : NotificationState;
  loading : Loading;
  error : option string
}.

Inductive AppAction : Type :=
| SET_USER (payload : option string)
| SET_CURRENT_LEAGUE (payload : option League)
| SET_USER_TEAM (payload : option Team)
| SET_DRAFT_STATE (payload : option DraftState)
| SET_AVAILABLE_PLAYERS (payload : list Player)
| UPDATE_PLAYER (payload : Player)
| SET_NOTIFICATIONS (payload : NotificationState)
| SET_LOADING (key : LoadingKey) (value : bool)
| SET_ERROR (payload : option string)
| UPDATE_TEAM_ROSTER (teamId : string) (roster : list Player)
| ADD_DRAFT_PICK (teamId : string) (player : Player) (pick : Z)
| RESET_STATE.

Definition initialState : AppState := {|
  user := None;
  currentLeague := None;
  userTeam := None;
  draftState := None;
  availablePlayers := [];
  notifications := {| n_trades := true; n_waivers := true;
                      n_lineupReminders := true; n_news := true;
                      n_scores := true |};
  loading := {| ld_user := false; ld_league := false;
                ld_players := false; ld_draft := false |};
  error := None
|}.

Definition set_loading (l : Loading) (k : LoadingKey) (v : bool) : Loading :=
  match k with
  | KUser => {| ld_user := v; ld_league := ld_league l;
                ld_players := ld_players l; ld_draft := ld_draft l |}
  | KLeague => {| ld_user := ld_user l; ld_league := v;
                  ld_players := ld_players l; ld_draft := ld_draft l |}
  | KPlayers => {| ld_user := ld_user l; ld_league := ld_league l;
                   ld_players := v; ld_draft := ld_draft l |}
  | KDraft => {| ld_user := ld_user l; ld_league := ld_league l;
                 ld_players := ld_players l; ld_draft := v |}
  end.

Definition with_roster (t : Team) (r : Roster) : Team :=
  {| t_id := t_id t; t_name := t_name t; t_roster := r |}.

Definition with_teams (l : League) (ts : list Team) : League :=
  {| l_id := l_id l; l_name := l_name l; l_teams := ts |}.

(** [state.userTeam?.id === teamId] *)
Definition userTeam_is (state : AppState) (teamId : string) : bool :=
  match userTeam state with
  | Some t => String.eqb (t_id t) teamId
  | None => false
  end.

(** [state.currentLeague?.teams.length || 1] *)
Definition teamCount_or_1 (state : AppState) : Z :=
  match currentLeague state with
  | Some l => if len (l_teams l) =? 0 then 1 else len (l_teams l)
  | None => 1
  end.

(** [state.currentLeague?.id || ''] *)
Definition leagueId_or_empty (state : AppState) : string :=
  match currentLeague state with
  | Some l => l_id l
  | None => EmptyString
  end.

(** The roster a team gets in the ADD_DRAFT_PICK case. *)
Definition push_starter (t : Team) (playerId : Z) : Team :=
  with_roster t {| starters := starters (t_roster t) ++ [playerId];
                   bench := bench (t_roster t);
                   injured_reserve := injured_reserve (t_roster t) |}.

(** The roster a team gets in the UPDATE_TEAM_ROSTER case. *)
Definition replace_roster (t : Team) (roster : list Player) : Team :=
  with_roster t {| starters := map p_id roster; bench := [];
                   injured_reserve := [] |}.

(** [appReducer(state, action)].  [now] stands for the value of
    [new Date().toISOString()] at the time of the call. *)
Definition appReducer (now : string) (state : AppState) (action : AppAction)
  : AppState :=
  match action with
  | SET_USER payload =>
      {| user := payload; currentLeague := currentLeague state;
         userTeam := userTeam state; draftState := draftState state;
         availablePlayers := availablePlayers state;
         notifications := notifications state; loading := loading state;
         error := error state |}
  | SET_CURRENT_LEAGUE payload =>
      {| user := user state; currentLeague := payload;
         userTeam := userTeam state; draftState := draftState state;
         availablePlayers := availablePlayers state;
         notifications := notifications state; loading := loading state;
         error := error state |}
  | SET_USER_TEAM payload =>
      {| user := user state; currentLeague := currentLeague state;
         userTeam := payload; draftState := draftState state;
         availablePlayers := availablePlayers state;
         notifications := notifications state; loading := loading state;
         error := error state |}
  | SET_DRAFT_STATE payload =>
      {| user := user state; currentLeague := currentLeague state;
         userTeam := userTeam state; draftState := payload;
         availablePlayers := availablePlayers state;
         notifications := notifications state; loading := loading state;
         error := error state |}
  | SET_AVAILABLE_PLAYERS payload =>
      {| user := user state; currentLeague := currentLeague state;
         userTeam := userTeam state; draftState := draftState state;
         availablePlayers := payload;
         notifications := notifications state; loading := loading state;
         error := error state |}
  | UPDATE_PLAYER payload =>
      {| user := user state; currentLeague := currentLeague state;
         userTeam := userTeam state; draftState := draftState state;
         availablePlayers :=
           map (fun player => if p_id player =? p_id payload then payload else player)
               (availablePlayers state);
         notifications := notifications state; loading := loading state;
         error := error state |}
  | SET_NOTIFICATIONS payload =>
      {| user := user state; currentLeague := currentLeague state;
         userTeam := userTeam state; draftState := draftState state;
         availablePlayers := availablePlayers state;
         notifications := payload; loading := loading state;
         error := error state |}
  | SET_LOADING key value =>
      {| user := user state; currentLeague := currentLeague state;
         userTeam := userTeam state; draftState := draftState state;
         availablePlayers := availablePlayers state;
         notifications := notifications state;
         loading := set_loading (loading state) key value;
         error := error state |}
  | SET_ERROR payload =>
      {| user := user state; currentLeague := currentLeague state;
         userTeam := userTeam state; draftState := draftState state;
         availablePlayers := availablePlayers state;
         notifications := notifications state; loading := loading state;
         error := payload |}
  | UPDATE_TEAM_ROSTER teamId roster =>
      {| user := user state;
         currentLeague :=
           match currentLeague state with
           | Some l =>
               Some (with_teams l
                       (map (fun team => if String.eqb (t_id team) teamId
                                         then replace_roster team roster
                                         else team)
                            (l_teams l)))
           | None => None
           end;
         userTeam :=
           if userTeam_is state teamId
           then option_map (fun t => replace_roster t roster) (userTeam state)
           else userTeam state;
         draftState := draftState state;
         availablePlayers := availablePlayers state;
         notifications := notifications state; loading := loading state;
         error := error state |}
  | ADD_DRAFT_PICK teamId player pick =>
      {| user := user state;
         (* Update team roster *)
         currentLeague :=
           match currentLeague state with
           | Some l =>
               Some (with_teams l
                       (map (fun team => if String.eqb (t_id team) teamId
                                         then push_starter team (p_id player)
                                         else team)
                            (l_teams l)))
           | None => None
           end;
         (* Update user team if it's the user's pick *)
         userTeam :=
           if userTeam_is state teamId
           then option_map (fun t => push_starter t (p_id player)) (userTeam state)
           else userTeam state;
         (* Update draft state *)
         draftState :=
           match draftState state with
           | Some ds =>
               Some {| isActive := isActive ds;
                       currentPick := pick + 1;
                       currentRound := currentRound ds;
                       timeRemaining := timeRemaining ds;
                       isMyTurn := isMyTurn ds;
                       d_availablePlayers := d_availablePlayers ds;
                       draftBoard :=
                         mapi (fun round roundIndex =>
                                 let currentRound :=
                                   ceil_div pick (teamCount_or_1 state) - 1 in
                                 if Z.of_nat roundIndex =? currentRound
                                 then round ++
                                      [{| dp_id := "pick-" ++ string_of_Z pick;
                                          dp_league_id := leagueId_or_empty state;
                                          dp_team_id := teamId;
                                          dp_player_id := p_id player;
                                          dp_round := currentRound + 1;
                                          dp_pick_number := pick;
                                          dp_pick_in_round :=
                                            Some (Z.rem (pick - 1) (teamCount_or_1 state) + 1);
                                          dp_timestamp := now;
                                          dp_is_auto_pick := None |}]
                                 else round)
                              (draftBoard ds);
                       queuedPlayers := queuedPlayers ds |}
           | None => None
           end;
         (* Update available players *)
         availablePlayers :=
           map (fun p => if p_id p =? p_id player
                         then {| p_id := p_id p; p_web_name := p_web_name p;
                                 p_position := p_position p;
                                 p_total_points := p_total_points p;
                                 p_selected_by_percent := p_selected_by_percent p + 1 |}
                         else p)
               (availablePlayers state);
         notifications := notifications state; loading := loading state;
         error := error state |}
  | RESET_STATE => initialState
  end.

(** The [teamIndex] computed in the body of
    [selectors.getCurrentDraftTeam], from [currentPick] and
    [teamCount = state.currentLeague.teams.length]. *)
Definition getCurrentDraftTeamIndex (currentPick teamCount : Z) : jsnum :=
  let round := js_ceil_div currentPick teamCount in
  let isSnake := jsnum_eqb (js_rem round 2) (Num 0) in
  let positionInRound := js_rem (Num (currentPick - 1)) teamCount in
  if isSnake
  then js_sub (js_sub (Num teamCount) (Num 1)) positionInRound
  else positionInRound.

(** [selectors.getCurrentDraftTeam(state)]; [None] is [null]. *)
Definition getCurrentDraftTeam (state : AppState) : option Team :=
  match draftState state, currentLeague state with
  | Some ds, Some l =>
      let currentPick := currentPick ds in
      let teamCount := len (l_teams l) in
      js_index (l_teams l) (getCurrentDraftTeamIndex currentPick teamCount)
  | _, _ => None
  end.

(** [selectors.isUserTurn(state)]: [currentTeam?.id === state.userTeam?.id];
    both sides are [undefined] when the object is missing. *)
Definition isUserTurn (state : AppState) : bool :=
  match option_map t_id (getCurrentDraftTeam state),
        option_map t_id (userTeam state) with
  | Some a, Some b => String.eqb a b
  | None, None => true
  | _, _ => false
  end.

(** Replaying a list of ADD_DRAFT_PICK actions, in order. *)
Definition replay (now : string) (state : AppState) (actions : list AppAction)
  : AppState :=
  fold_left (appReducer now) actions state.

(** Loading a snapshot.  The store has no single snapshot action: the
    draft state and the player list of a snapshot are loaded by
    SET_DRAFT_STATE and SET_AVAILABLE_PLAYERS, each of which replaces its
    field wholesale. *)
Definition loadSnapshot (now : string) (ds : DraftState) (players : list Player)
    (state : AppState) : AppState :=
  appReducer now
    (appReducer now state (SET_DRAFT_STATE (Some ds)))
    (SET_AVAILABLE_PLAYERS players).

(** The actions are pick events numbered [cp], [cp + 1], ... in order. *)
Fixpoint in_order (cp : Z) (actions : list AppAction) : Prop :=
  match actions with
  | [] => True
  | ADD_DRAFT_PICK _ _ pick :: rest => pick = cp /\ in_order (cp + 1) rest
  | _ :: _ => False
  end.

Definition picked_ids (actions : list AppAction) : list Z :=
  flat_map (fun a => match a with
                     | ADD_DRAFT_PICK _ player _ => [p_id player]
                     | _ => []
                     end) actions.

(** Modelled from the spec: the AvailablePlayerSet of the snapshot the
    server serves after the picks, "all players minus picked players"
    (spec 3); the server that builds it is not part of the front end. *)
Definition final_available (players : list Player) (actions : list AppAction)
  : list Player :=
  filter (fun p => negb (existsb (Z.eqb (p_id p)) (picked_ids actions))) players.

(** [isPlayerAvailable(player, allPlayers)] *)
Definition isPlayerAvailable (player : Player) (allPlayers : list Player) : bool :=
  existsb (fun p => p_id p =? p_id player) allPlayers.

(** [selectors.getAvailablePlayers(state)] *)
Definition getAvailablePlayers (state : AppState) : list Player :=
  filter (fun p => isPlayerAvailable p (availablePlayers state))
         (availablePlayers state).

(** [selectors.getDraftedPlayers(state)] *)
Definition getDraftedPlayers (state : AppState) : list Player :=
  filter (fun p => negb (isPlayerAvailable p (availablePlayers state)))
         (availablePlayers state).

(** [selectors.getPlayersByPosition(state, position)] *)
Definition getPlayersByPosition (state : AppState) (position : string)
  : list Player :=
  filter (fun p => String.eqb (p_position p) position
                   && isPlayerAvailable p (availablePlayers state))
         (availablePlayers state).

(** The defined entries of an array of possibly [undefined] values:
    [.filter(x => x !== undefined)]. *)
Fixpoint defined {A : Type} (l : list (option A)) : list A :=
  match l with
  | [] => []
  | Some x :: l' => x :: defined l'
  | None :: l' => defined l'
  end.

(** [selectors.getTeamRoster(state, teamId)] *)
Definition getTeamRoster (state : AppState) (teamId : string) : list Player :=
  match currentLeague state with
  | None => []
  | Some l =>
      match find (fun t => String.eqb (t_id t) teamId) (l_teams l) with
      | None => []
      | Some team =>
          defined
            (map (fun playerId =>
                    find (fun p => p_id p =? playerId) (availablePlayers state))
                 (starters (t_roster team)))
      end
  end.

End Store.

(** ** MockDraftSimulator.tsx: the component state and its handlers *)

Module Mock.

Record MockPlayer : Type := {
  mp_id : Z;
  mp_name : string;
  mp_position_short : string;
  isAvailable : bool
}.

Record MockTeam : Type := {
  mt_id : string;
  mt_name : string;
  draftedPlayers : list MockPlayer
}.

(** What the handlers read of the [league] prop. *)
Record LeagueProps : Type := {
  league_id : string;
  roster_size : Z              (* league.settings.roster_size *)
}.

(** The [useState] cells of the component.  [autoPickTimers] records the
    [setTimeout(() => autoPickForCPU(i), 1000)] calls issued so far, by
    team index.  The handlers below that take one state are the handlers
    of the latest render, as a click runs them: they read and set the
    current values of the cells. *)
Record State : Type := {
  isActive : bool;
  currentPick : Z;
  currentTeamIndex : jsnum;
  draftPicks : list Store.DraftPick;
  mockTeams : list MockTeam;
  availablePlayers : list MockPlayer;
  filteredPlayers : list MockPlayer;
  userQueue : list MockPlayer;
  isAutoPicking : bool;
  isDraftComplete : bool;
  autoPickTimers : list jsnum
}.

Definition set_unavailable (p : MockPlayer) : MockPlayer :=
  {| mp_id := mp_id p; mp_name := mp_name p;
     mp_position_short := mp_position_short p; isAvailable := false |}.

Definition set_available (p : MockPlayer) : MockPlayer :=
  {| mp_id := mp_id p; mp_name := mp_name p;
     mp_position_short := mp_position_short p; isAvailable := true |}.

Definition add_drafted (t : MockTeam) (p : MockPlayer) : MockTeam :=
  {| mt_id := mt_id t; mt_name := mt_name t;
     draftedPlayers := draftedPlayers t ++ [p] |}.

Definition clear_drafted (t : MockTeam) : MockTeam :=
  {| mt_id := mt_id t; mt_name := mt_name t; draftedPlayers := [] |}.

(** [draftPlayer(player, teamIndex)].  Reading [mockTeams[teamIndex].id]
    throws a TypeError when there is no such team, before any cell is
    set. *)
Definition draftPlayer (league : LeagueProps) (now : string)
    (player : MockPlayer) (teamIndex : jsnum) (st : State) : completion State :=
  match js_index (mockTeams st) teamIndex with
  | None => Throw "TypeError"
  | Some team =>
      let pick : Store.DraftPick :=
        {| Store.dp_id := "mock-" ++ string_of_Z (currentPick st);
           Store.dp_league_id := league_id league;
           Store.dp_team_id := mt_id team;
           Store.dp_player_id := mp_id player;
           Store.dp_round := ceil_div (currentPick st) (len (mockTeams st));
           Store.dp_pick_number := currentPick st;
           Store.dp_pick_in_round := None;
           Store.dp_timestamp := now;
           Store.dp_is_auto_pick := Some (negb (jsnum_eqb teamIndex (Num 0))) |} in
      (* Update team rosters *)
      let updatedTeams :=
        mapi (fun team index =>
                if jsnum_eqb (Num (Z.of_nat index)) teamIndex
                then add_drafted team player else team)
             (mockTeams st) in
      (* Remove player from available players *)
      let updatedPlayers :=
        map (fun p => if mp_id p =? mp_id player then set_unavailable p else p)
            (availablePlayers st) in
      (* Remove from user queue if present *)
      let queue :=
        filter (fun p => negb (mp_id p =? mp_id player)) (userQueue st) in
      (* Move to next pick *)
      let totalPicks := len (mockTeams st) * roster_size league in
      if totalPicks <=? currentPick st then
        Return {| isActive := false;
                  currentPick := currentPick st;
                  currentTeamIndex := currentTeamIndex st;
                  draftPicks := draftPicks st ++ [pick];
                  mockTeams := updatedTeams;
                  availablePlayers := updatedPlayers;
                  filteredPlayers := filter isAvailable updatedPlayers;
                  userQueue := queue;
                  isAutoPicking := isAutoPicking st;
                  isDraftComplete := true;
                  autoPickTimers := autoPickTimers st |}
      else
        let nextPick := currentPick st + 1 in
        let nextTeamIndex := getDraftOrder nextPick (len (mockTeams st)) in
        Return {| isActive := isActive st;
                  currentPick := nextPick;
                  currentTeamIndex := nextTeamIndex;
                  draftPicks := draftPicks st ++ [pick];
                  mockTeams := updatedTeams;
                  availablePlayers := updatedPlayers;
                  filteredPlayers := filter isAvailable updatedPlayers;
                  userQueue := queue;
                  isAutoPicking := isAutoPicking st;
                  isDraftComplete := isDraftComplete st;
                  autoPickTimers :=
                    if negb (jsnum_eqb nextTeamIndex (Num 0))
                    then autoPickTimers st ++ [nextTeamIndex]
                    else autoPickTimers st |}
  end.

(** [handleUserDraftPick(player)] *)
Definition handleUserDraftPick (league : LeagueProps) (now : string)
    (player : MockPlayer) (st : State) : completion State :=
  if negb (isActive st) || negb (jsnum_eqb (currentTeamIndex st) (Num 0))
     || isAutoPicking st
  then Return st
  else draftPlayer league now player (Num 0) st.

Definition with_userQueue (st : State) (q : list MockPlayer) : State :=
  {| isActive := isActive st; currentPick := currentPick st;
     currentTeamIndex := currentTeamIndex st; draftPicks := draftPicks st;
     mockTeams := mockTeams st; availablePlayers := availablePlayers st;
     filteredPlayers := filteredPlayers st; userQueue := q;
     isAutoPicking := isAutoPicking st; isDraftComplete := isDraftComplete st;
     autoPickTimers := autoPickTimers st |}.

(** [addToQueue(player)] *)
Definition addToQueue (player : MockPlayer) (st : State) : State :=
  if existsb (fun p => mp_id p =? mp_id player) (userQueue st)
  then st
  else with_userQueue st (userQueue st ++ [player]).

(** [removeFromQueue(playerId)] *)
Definition removeFromQueue (playerId : Z) (st : State) : State :=
  with_userQueue st (filter (fun p => negb (mp_id p =? playerId)) (userQueue st)).

(** [autoPickFromQueue()] *)
Definition autoPickFromQueue (league : LeagueProps) (now : string) (st : State)
  : completion State :=
  match userQueue st with
  | nextPlayer :: _ =>
      if jsnum_eqb (currentTeamIndex st) (Num 0)
      then handleUserDraftPick league now nextPlayer st
      else Return st
  | [] => Return st
  end.

(** [startMockDraft()] *)
Definition startMockDraft (st : State) : State :=
  let resetPlayers := map set_available (availablePlayers st) in
  {| isActive := true; currentPick := 1; currentTeamIndex := Num 0;
     draftPicks := []; mockTeams := map clear_drafted (mockTeams st);
     availablePlayers := resetPlayers; filteredPlayers := resetPlayers;
     userQueue := userQueue st; isAutoPicking := isAutoPicking st;
     isDraftComplete := false; autoPickTimers := autoPickTimers st |}.

(** [isUserTurn], as computed on every render. *)
Definition isUserTurn (st : State) : bool :=
  jsnum_eqb (currentTeamIndex st) (Num 0) && isActive st
  && negb (isDraftComplete st).

(** The available-player set: the ids of the players still marked
    available, as the component filters them for display. *)
Definition available_ids (st : State) : list Z :=
  map mp_id (filter isAvailable (availablePlayers st)).

Definition queue_ids (st : State) : list Z := map mp_id (userQueue st).

(** The queue invariant of the draft room: every queued player is still
    available. *)
Definition queue_available (st : State) : Prop :=
  forall id, In id (queue_ids st) -> In id (available_ids st).

(** [resetMockDraft()] *)
Definition resetMockDraft (st : State) : State :=
  let resetPlayers := map set_available (availablePlayers st) in
  {| isActive := false; currentPick := 1; currentTeamIndex := Num 0;
     draftPicks := []; mockTeams := map clear_drafted (mockTeams st);
     availablePlayers := resetPlayers; filteredPlayers := resetPlayers;
     userQueue := []; isAutoPicking := false;
     isDraftComplete := false; autoPickTimers := autoPickTimers st |}.

(** [draftPlayer(player, teamIndex)] of the closure of the render [render],
    called when the cells hold [cur].  The body reads [currentPick],
    [mockTeams] and [availablePlayers] as [render] saw them and writes the
    values computed from them with [setX(value)]; only
    [setDraftPicks(prev => ...)] and [setUserQueue(prev => ...)] read the
    current cells.  A cell the call does not set keeps its current value.
    The timer it sets calls the [autoPickForCPU] of the same render. *)
Definition draftPlayerFrom (league : LeagueProps) (now : string) (render : State)
    (player : MockPlayer) (teamIndex : jsnum) (cur : State) : completion State :=
  match js_index (mockTeams render) teamIndex with
  | None => Throw "TypeError"
  | Some team =>
      let pick : Store.DraftPick :=
        {| Store.dp_id := "mock-" ++ string_of_Z (currentPick render);
           Store.dp_league_id := league_id league;
           Store.dp_team_id := mt_id team;
           Store.dp_player_id := mp_id player;
           Store.dp_round := ceil_div (currentPick render) (len (mockTeams render));
           Store.dp_pick_number := currentPick render;
           Store.dp_pick_in_round := None;
           Store.dp_timestamp := now;
           Store.dp_is_auto_pick := Some (negb (jsnum_eqb teamIndex (Num 0))) |} in
      let updatedTeams :=
        mapi (fun team index =>
                if jsnum_eqb (Num (Z.of_nat index)) teamIndex
                then add_drafted team player else team)
             (mockTeams render) in
      let updatedPlayers :=
        map (fun p => if mp_id p =? mp_id player then set_unavailable p else p)
            (availablePlayers render) in
      (* setUserQueue(prev => prev.filter(...)) *)
      let queue :=
        filter (fun p => negb (mp_id p =? mp_id player)) (userQueue cur) in
      let totalPicks := len (mockTeams render) * roster_size league in
      if totalPicks <=? currentPick render then
        Return {| isActive := false;
                  currentPick := currentPick cur;
                  currentTeamIndex := currentTeamIndex cur;
                  draftPicks := draftPicks cur ++ [pick];
                  mockTeams := updatedTeams;
                  availablePlayers := updatedPlayers;
                  filteredPlayers := filter isAvailable updatedPlayers;
                  userQueue := queue;
                  isAutoPicking := isAutoPicking cur;
                  isDraftComplete := true;
                  autoPickTimers := autoPickTimers cur |}
      else
        let nextPick := currentPick render + 1 in
        let nextTeamIndex := getDraftOrder nextPick (len (mockTeams render)) in
        Return {| isActive := isActive cur;
                  currentPick := nextPick;
                  currentTeamIndex := nextTeamIndex;
                  draftPicks := draftPicks cur ++ [pick];
                  mockTeams := updatedTeams;
                  availablePlayers := updatedPlayers;
                  filteredPlayers := filter isAvailable updatedPlayers;
                  userQueue := queue;
                  isAutoPicking := isAutoPicking cur;
                  isDraftComplete := isDraftComplete cur;
                  autoPickTimers :=
                    if negb (jsnum_eqb nextTeamIndex (Num 0))
                    then autoPickTimers cur ++ [nextTeamIndex]
                    else autoPickTimers cur |}
  end.

Definition with_isAutoPicking (st : State) (b : bool) : State :=
  {| isActive := isActive st; currentPick := currentPick st;
     currentTeamIndex := currentTeamIndex st; draftPicks := draftPicks st;
     mockTeams := mockTeams st; availablePlayers := availablePlayers st;
     filteredPlayers := filteredPlayers st; userQueue := userQueue st;
     isAutoPicking := b; isDraftComplete := isDraftComplete st;
     autoPickTimers := autoPickTimers st |}.

(** [autoPickForCPU(teamIndex)] up to its [await]. *)
Definition autoPickForCPU_begin (cur : State) : State :=
  with_isAutoPicking cur true.

(** [autoPickForCPU(teamIndex)] of the closure of [render] from its
    [await] on.  [selectedPlayer] is the outcome of the selection, which
    sorts the players available in [render] by projected points and takes
    the first that fits: a player available in [render], or none when
    there is none.  Reading [team.draftedPlayers] throws when [render] has
    no such team; then the promise is rejected and nothing more is set. *)
Definition autoPickForCPU_resume (league : LeagueProps) (now : string)
    (render : State) (selectedPlayer : option MockPlayer) (teamIndex : jsnum)
    (cur : State) : completion State :=
  match js_index (mockTeams render) teamIndex with
  | None => Throw "TypeError"
  | Some _ =>
      match selectedPlayer with
      | Some player =>
          match draftPlayerFrom league now render player teamIndex cur with
          | Return st' => Return (with_isAutoPicking st' false)
          | Throw msg => Throw msg
          end
      | None => Return (with_isAutoPicking cur false)
      end
  end.

(** What happens to the cells during a draft: the user queues a player or
    clicks one to draft it (handlers of the latest render), and a timer
    set by an earlier [draftPlayer] fires and, after its delay, drafts for
    a CPU team from the closure of the render in which it was set. *)
Inductive Op : Type :=
| Enqueue (player : MockPlayer)
| UserPick (player : MockPlayer)
| TimerFires
| TimerPick (render : State) (selectedPlayer : option MockPlayer)
            (teamIndex : jsnum).

(** One operation; a handler that throws leaves the cells as they were. *)
Definition step (league : LeagueProps) (now : string) (st : State) (o : Op) : State :=
  match o with
  | Enqueue player => addToQueue player st
  | UserPick player =>
      match handleUserDraftPick league now player st with
      | Return st' => st'
      | Throw _ => st
      end
  | TimerFires => autoPickForCPU_begin st
  | TimerPick render selectedPlayer teamIndex =>
      match autoPickForCPU_resume league now render selectedPlayer teamIndex st with
      | Return st' => st'
      | Throw _ => st
      end
  end.

Definition run (league : LeagueProps) (now : string) (st : State) (ops : list Op)
  : State :=
  fold_left (step league now) ops st.


(** The chain of timers that follows a pick made in [render]: each timer
    fires and drafts one of [selected] for the team that [render] puts on
    the clock next, and the [draftPlayer] it calls, being that of
    [render], sets the next timer for the same team and render. *)
Definition timerChain (render : State) (selected : list MockPlayer) : list Op :=
  let nextTeamIndex :=
    getDraftOrder (currentPick render + 1) (len (mockTeams render)) in
  flat_map (fun player =>
              [TimerFires; TimerPick render (Some player) nextTeamIndex])
           selected.

End Mock.

(** ** DraftRoom.tsx: the personal queue and the pick handler *)

Module Room.

(** [playerQueue] is the [useState] cell of the page; [makePickCalls] logs
    the calls of the [makePick] function of the [useDraftState] hook, which
    is what sends a pick to the server. *)
Record State : Type := {
  playerQueue : list Z;
  makePickCalls : list Z
}.

(** [addToQueue(playerId)] *)
Definition addToQueue (playerId : Z) (st : State) : State :=
  if negb (existsb (Z.eqb playerId) (playerQueue st))
  then {| playerQueue := playerQueue st ++ [playerId];
          makePickCalls := makePickCalls st |}
  else st.

(** [removeFromQueue(playerId)] *)
Definition removeFromQueue (playerId : Z) (st : State) : State :=
  {| playerQueue := filter (fun id => negb (id =? playerId)) (playerQueue st);
     makePickCalls := makePickCalls st |}.

(** [handleMakePick(playerId)]; [isMyTurn] is the value the hook reports
    and [makePick playerId] the boolean its promise resolves to. *)
Definition handleMakePick (isMyTurn : bool) (makePick : Z -> bool)
    (playerId : Z) (st : State) : State :=
  if negb isMyTurn then st
  else
    let st1 := {| playerQueue := playerQueue st;
                  makePickCalls := makePickCalls st ++ [playerId] |} in
    if makePick playerId
    then removeFromQueue playerId st1   (* Remove from queue if it was queued *)
    else st1.

(** [pickFromQueue()] *)
Definition pickFromQueue (isMyTurn : bool) (makePick : Z -> bool) (st : State)
  : State :=
  match playerQueue st with
  | [] => st
  | nextPlayerId :: _ =>
      if negb isMyTurn then st
      else handleMakePick isMyTurn makePick nextPlayerId st
  end.

(** [arr.indexOf(x)]: the first index of [x], or -1. *)
Fixpoint indexOf (x : Z) (l : list Z) : Z :=
  match l with
  | [] => -1
  | y :: l' =>
      if y =? x then 0
      else let i := indexOf x l' in if i =? -1 then -1 else i + 1
  end.

(** [[a[i], a[i+1]] = [a[i+1], a[i]]]: exchange the entries at [i] and
    [i + 1]; the handler only does so when both exist. *)
Fixpoint swap_at {A : Type} (i : nat) (l : list A) : list A :=
  match i, l with
  | O, a :: b :: r => b :: a :: r
  | S i', a :: r => a :: swap_at i' r
  | _, _ => l
  end.

Inductive Direction : Type := up | down.

(** The updater [moveInQueue(playerId, direction)] applies to the queue. *)
Definition moveInQueue_queue (playerId : Z) (direction : Direction)
    (prev : list Z) : list Z :=
  let index := indexOf playerId prev in
  if index =? -1 then prev
  else
    let newQueue := prev in
    match direction with
    | up =>
        if 0 <? index then swap_at (Z.to_nat (index - 1)) newQueue
        else newQueue
    | down =>
        if index <? len newQueue - 1 then swap_at (Z.to_nat index) newQueue
        else newQueue
    end.

(** [moveInQueue(playerId, direction)] *)
Definition moveInQueue (playerId : Z) (direction : Direction) (st : State)
  : State :=
  {| playerQueue := moveInQueue_queue playerId direction (playerQueue st);
     makePickCalls := makePickCalls st |}.

End Room.

(** ** validators.ts: form validators *)

Module Validators.

(** [new Set(arr).size] for an array of numbers. *)
Definition set_size (arr : list Z) : nat := List.length (nodup Z.eq_dec arr).

Definition includesZ (arr : list Z) (x : Z) : bool := existsb (Z.eqb x) arr.

Record Lineup : Type := {
  starting_11 : list Z;
  bench : list Z;
  captain : Z;
  vice_captain : Z
}.

(** [errors.push(msg)] when [cond] holds. *)
Definition push_if (cond : bool) (msg : string) (errors : list string)
  : list string :=
  if cond then errors ++ [msg] else errors.

(** [isValidLineup(lineup)] *)
Definition isValidLineup (lineup : Lineup) : bool * list string :=
  let errors := [] in
  let errors :=
    push_if (negb (Nat.eqb (List.length (starting_11 lineup)) 11))
            "Starting 11 must contain exactly 11 players" errors in
  let errors :=
    push_if (Nat.ltb 4 (List.length (bench lineup)))
            "Bench can contain maximum 4 players" errors in
  let errors :=
    push_if (negb (includesZ (starting_11 lineup) (captain lineup)))
            "Captain must be in starting 11" errors in
  let errors :=
    push_if (negb (includesZ (starting_11 lineup) (vice_captain lineup)))
            "Vice captain must be in starting 11" errors in
  let errors :=
    push_if (captain lineup =? vice_captain lineup)
            "Captain and vice captain must be different players" errors in
  let allPlayers := starting_11 lineup ++ bench lineup in
  let errors :=
    push_if (negb (Nat.eqb (set_size allPlayers) (List.length allPlayers)))
            "Duplicate players in lineup" errors in
  (Nat.eqb (List.length errors) 0, errors).

(** [isValidTradeProposal(proposerPlayers, targetPlayers)] *)
Definition isValidTradeProposal (proposerPlayers targetPlayers : list Z)
  : bool * list string :=
  let errors := [] in
  let errors :=
    push_if (Nat.eqb (List.length proposerPlayers) 0
             && Nat.eqb (List.length targetPlayers) 0)
            "Trade must include at least one player" errors in
  let errors :=
    push_if (Nat.ltb 5 (List.length proposerPlayers))
            "Maximum 5 players per team in trade" errors in
  let errors :=
    push_if (Nat.ltb 5 (List.length targetPlayers))
            "Maximum 5 players per team in trade" errors in
  let proposerSet := nodup Z.eq_dec proposerPlayers in
  let targetSet := nodup Z.eq_dec targetPlayers in
  let errors :=
    push_if (negb (Nat.eqb (List.length proposerSet) (List.length proposerPlayers)))
            "Duplicate players in proposer side" errors in
  let errors :=
    push_if (negb (Nat.eqb (List.length targetSet) (List.length targetPlayers)))
            "Duplicate players in target side" errors in
  let intersection :=
    nodup Z.eq_dec (filter (fun x => includesZ targetSet x) proposerSet) in
  let errors :=
    push_if (Nat.ltb 0 (List.length intersection))
            "Players cannot appear on both sides of trade" errors in
  (Nat.eqb (List.length errors) 0, errors).

(** [hasUniqueValues(arr)], for an array of numbers. *)
Definition hasUniqueValues (arr : list Z) : bool :=
  Nat.eqb (set_size arr) (List.length arr).

(** [hasRequiredKeys(obj, requiredKeys)]; [objectKeys] is [Object.keys(obj)]. *)
Definition hasRequiredKeys (objectKeys requiredKeys : list string)
  : bool * list string :=
  let missing := filter (fun key => negb (includes objectKeys key)) requiredKeys in
  (Nat.eqb (List.length missing) 0, missing).

End Validators.

(** ** formatters.ts *)

Module Formatters.

(** [formatDuration(seconds)], for a whole number of seconds. *)
Definition formatDuration (seconds : Z) : string :=
  let hours := seconds / 3600 in                 (* Math.floor *)
  let minutes := (Z.rem seconds 3600) / 60 in    (* Math.floor *)
  let secs := Z.rem seconds 60 in
  if 0 <? hours
  then string_of_Z hours ++ "h " ++ string_of_Z minutes ++ "m "
       ++ string_of_Z secs ++ "s"
  else if 0 <? minutes
  then string_of_Z minutes ++ "m " ++ string_of_Z secs ++ "s"
  else string_of_Z secs ++ "s".

(** [a || b] on possibly [undefined] strings; the suffixes are non-empty,
    hence truthy. *)
Definition or_else (a b : option string) : option string :=
  match a with
  | Some _ => a
  | None => b
  end.

(** The suffix [formatOrdinal] appends. *)
Definition ordinalSuffix (num : Z) : string :=
  let suffix := ["th"; "st"; "nd"; "rd"]%string in
  let value := Z.rem num 100 in
  match or_else (or_else (js_index suffix (Num (Z.rem (value - 20) 10)))
                         (js_index suffix (Num value)))
                (js_index suffix (Num 0)) with
  | Some s => s
  | None => "undefined"
  end.

(** [formatOrdinal(num)] *)
Definition formatOrdinal (num : Z) : string :=
  string_of_Z num ++ ordinalSuffix num.

End Formatters.

(** ** Sample states *)

Module Sample.

Definition player (id : Z) : Store.Player :=
  {| Store.p_id := id; Store.p_web_name := "P" ++ string_of_Z id;
     Store.p_position := "MID"; Store.p_total_points := 0;
     Store.p_selected_by_percent := 10 |}.

Definition team (id : string) : Store.Team :=
  {| Store.t_id := id; Store.t_name := id;
     Store.t_roster := {| Store.starters := []; Store.bench := [];
                          Store.injured_reserve := [] |} |}.

Definition league : Store.League :=
  {| Store.l_id := "L1"; Store.l_name := "League";
     Store.l_teams := [team "A"; team "B"] |}.

(** A two-team draft about to start, with P7, P3, P9 queued. *)
Definition draft : Store.DraftState :=
  {| Store.isActive := true; Store.currentPick := 1; Store.currentRound := 1;
     Store.timeRemaining := 60; Store.isMyTurn := false;
     Store.d_availablePlayers := [];
     Store.draftBoard := [[]; []];
     Store.queuedPlayers := [player 7; player 3; player 9] |}.

Definition state : Store.AppState :=
  {| Store.user := Some "u1"%string; Store.currentLeague := Some league;
     Store.userTeam := Some (team "A"); Store.draftState := Some draft;
     Store.availablePlayers := [player 3; player 7; player 9];
     Store.notifications := Store.notifications Store.initialState;
     Store.loading := Store.loading Store.initialState;
     Store.error := None |}.

Definition emptyLeagueState : Store.AppState :=
  {| Store.user := None;
     Store.currentLeague :=
       Some {| Store.l_id := "L0"; Store.l_name := "Empty"; Store.l_teams := [] |};
     Store.userTeam := None; Store.draftState := Some draft;
     Store.availablePlayers := [];
     Store.notifications := Store.notifications Store.initialState;
     Store.loading := Store.loading Store.initialState;
     Store.error := None |}.

Definition mockPlayer (id : Z) (available : bool) : Mock.MockPlayer :=
  {| Mock.mp_id := id; Mock.mp_name := "P" ++ string_of_Z id;
     Mock.mp_position_short := "MID"; Mock.isAvailable := available |}.

Definition mockTeam (id : string) : Mock.MockTeam :=
  {| Mock.mt_id := id; Mock.mt_name := id; Mock.draftedPlayers := [] |}.

Definition leagueProps : Mock.LeagueProps :=
  {| Mock.league_id := "L1"; Mock.roster_size := 15 |}.

(** A running two-team mock draft, the user (team 0) on the clock, with
    P7, P3, P9 queued, P11 available and P5 already gone. *)
Definition mock : Mock.State :=
  {| Mock.isActive := true; Mock.currentPick := 4;
     Mock.currentTeamIndex := Num 0; Mock.draftPicks := [];
     Mock.mockTeams := [mockTeam "A"; mockTeam "B"];
     Mock.availablePlayers :=
       [mockPlayer 3 true; mockPlayer 5 false; mockPlayer 7 true;
        mockPlayer 9 true; mockPlayer 11 true];
     Mock.filteredPlayers :=
       [mockPlayer 3 true; mockPlayer 7 true; mockPlayer 9 true;
        mockPlayer 11 true];
     Mock.userQueue := [mockPlayer 7 true; mockPlayer 3 true; mockPlayer 9 true];
     Mock.isAutoPicking := false; Mock.isDraftComplete := false;
     Mock.autoPickTimers := [] |}.

(** The same draft with team 1 on the clock. *)
Definition mockOther : Mock.State :=
  {| Mock.isActive := true; Mock.currentPick := 2;
     Mock.currentTeamIndex := Num 1; Mock.draftPicks := [];
     Mock.mockTeams := [mockTeam "A"; mockTeam "B"];
     Mock.availablePlayers := Mock.availablePlayers mock;
     Mock.filteredPlayers := Mock.filteredPlayers mock;
     Mock.userQueue := Mock.userQueue mock;
     Mock.isAutoPicking := false; Mock.isDraftComplete := false;
     Mock.autoPickTimers := [] |}.

(** A two-team mock draft just started: the user (team 0) on the clock at
    pick 1, every player available, and P7, P3, P9 queued. *)
Definition mockStart : Mock.State :=
  {| Mock.isActive := true; Mock.currentPick := 1;
     Mock.currentTeamIndex := Num 0; Mock.draftPicks := [];
     Mock.mockTeams := [mockTeam "A"; mockTeam "B"];
     Mock.availablePlayers :=
       [mockPlayer 3 true; mockPlayer 5 true; mockPlayer 7 true;
        mockPlayer 9 true; mockPlayer 11 true];
     Mock.filteredPlayers :=
       [mockPlayer 3 true; mockPlayer 5 true; mockPlayer 7 true;
        mockPlayer 9 true; mockPlayer 11 true];
     Mock.userQueue := [mockPlayer 7 true; mockPlayer 3 true; mockPlayer 9 true];
     Mock.isAutoPicking := false; Mock.isDraftComplete := false;
     Mock.autoPickTimers := [] |}.

(** A league of one team with two roster places, and its mock draft
    before the start. *)
Definition soloLeague : Mock.LeagueProps :=
  {| Mock.league_id := "L2"; Mock.roster_size := 2 |}.

Definition mockSolo : Mock.State :=
  {| Mock.isActive := false; Mock.currentPick := 1;
     Mock.currentTeamIndex := Num 0; Mock.draftPicks := [];
     Mock.mockTeams := [mockTeam "A"];
     Mock.availablePlayers :=
       [mockPlayer 3 true; mockPlayer 9 true; mockPlayer 11 true];
     Mock.filteredPlayers :=
       [mockPlayer 3 true; mockPlayer 9 true; mockPlayer 11 true];
     Mock.userQueue := []; Mock.isAutoPicking := false;
     Mock.isDraftComplete := false; Mock.autoPickTimers := [] |}.

Definition room : Room.State :=
  {| Room.playerQueue := [7; 3; 9]; Room.makePickCalls := [] |}.

End Sample.

(** * Properties *)

(** ** Arithmetic of the turn resolver *)

Lemma ceil_div_pos (a b : Z) : 0 < b -> ceil_div a b = - ((- a) / b).
Proof.
  intros Hb. unfold ceil_div, Qceiling, Qfloor.
  destruct b as [|b|b]; try lia.
  unfold Qdiv, Qinv, Qmult, Qopp, inject_Z. cbn.
  rewrite Z.mul_1_r. reflexivity.
Qed.

(** The ceiling of [((r-1)*n + c + 1) / n] is [r] when [0 <= c < n]. *)
Lemma ceil_div_cell (n r c : Z) :
  0 < n -> 0 <= c < n -> ceil_div ((r - 1) * n + c + 1) n = r.
Proof.
  intros Hn Hc. rewrite ceil_div_pos by assumption.
  assert (H : (- ((r - 1) * n + c + 1)) / n = - r).
  { symmetry. apply (Z.div_unique _ n (- r) (n - c - 1)); lia. }
  rewrite H. lia.
Qed.

Lemma rem_cell (n r c : Z) :
  0 < n -> 1 <= r -> 0 <= c < n -> Z.rem ((r - 1) * n + c) n = c.
Proof.
  intros Hn Hr Hc. rewrite Z.rem_mod_nonneg by nia.
  symmetry. apply (Z.mod_unique _ n (r - 1) c); lia.
Qed.

Lemma rem2_even (r : Z) : (Z.rem r 2 =? 0) = Z.even r.
Proof.
  pose proof (Z.rem_divide r 2 ltac:(lia)) as Hrem.
  pose proof (Z.mod_divide r 2 ltac:(lia)) as Hmod.
  pose proof (Zmod_even r) as Hev.
  destruct (Z.eqb_spec (Z.rem r 2) 0) as [E|E].
  - apply Hrem, Hmod in E. rewrite E in Hev.
    destruct (Z.even r); [reflexivity | discriminate].
  - destruct (Z.even r); [|reflexivity].
    exfalso. apply E, Hrem, Hmod, Hev.
Qed.

(** Every pick [p >= 1] sits in exactly one cell: round [r >= 1] and
    0-based position [c] of that round. *)
Lemma pick_cell (n p : Z) :
  0 < n -> 1 <= p ->
  let r := (p - 1) / n + 1 in
  let c := (p - 1) mod n in
  1 <= r /\ 0 <= c < n /\ p = (r - 1) * n + c + 1.
Proof.
  intros Hn Hp r c. subst r c.
  pose proof (Z.mod_pos_bound (p - 1) n Hn).
  pose proof (Z.div_mod (p - 1) n ltac:(lia)).
  pose proof (Z.div_pos (p - 1) n ltac:(lia) Hn).
  repeat split; try lia.
Qed.

(** The resolver on the pick of round [r], position [c]. *)
Lemma getDraftOrder_cell (n r c : Z) :
  0 < n -> 1 <= r -> 0 <= c < n ->
  getDraftOrder ((r - 1) * n + c + 1) n
  = Num (if Z.even r then n - 1 - c else c).
Proof.
  intros Hn Hr Hc. unfold getDraftOrder, js_ceil_div, js_rem.
  replace (n =? 0) with false by (symmetry; apply Z.eqb_neq; lia).
  rewrite ceil_div_cell by assumption.
  replace ((r - 1) * n + c + 1 - 1) with ((r - 1) * n + c) by lia.
  rewrite rem_cell by assumption.
  cbn [Z.eqb jsnum_eqb]. rewrite rem2_even.
  destruct (Z.even r); cbn; f_equal; lia.
Qed.

Lemma getCurrentDraftTeamIndex_cell (n r c : Z) :
  0 < n -> 1 <= r -> 0 <= c < n ->
  Store.getCurrentDraftTeamIndex ((r - 1) * n + c + 1) n
  = Num (if Z.even r then n - 1 - c else c).
Proof.
  intros Hn Hr Hc. unfold Store.getCurrentDraftTeamIndex, js_ceil_div, js_rem.
  replace (n =? 0) with false by (symmetry; apply Z.eqb_neq; lia).
  rewrite ceil_div_cell by assumption.
  replace ((r - 1) * n + c + 1 - 1) with ((r - 1) * n + c) by lia.
  rewrite rem_cell by assumption.
  cbn [Z.eqb jsnum_eqb]. rewrite rem2_even.
  destruct (Z.even r); cbn; f_equal; lia.
Qed.

(** With zero teams every intermediate value is NaN or an infinity. *)
Lemma getDraftOrder_zero_teams (p : Z) : getDraftOrder p 0 = NaN.
Proof.
  unfold getDraftOrder, js_ceil_div. cbn [Z.eqb].
  destruct (0 <? p); [reflexivity|]. destruct (p <? 0); reflexivity.
Qed.

(** ** The turn resolver *)

(** C1.  For a snake draft with [teamCount > 0] and [currentPick >= 1] the
    turn resolver ([getDraftOrder], and the index computed by
    [selectors.getCurrentDraftTeam]) returns the index of the spec's
    algorithm: with [round] the ceiling of [currentPick / teamCount] (the
    integer with [(round-1)*teamCount < currentPick <= round*teamCount])
    and [positionInRound = ((currentPick-1) mod teamCount) + 1], the index
    is [teamCount - positionInRound] in even rounds and
    [positionInRound - 1] in odd ones.  With 10 teams, picks 1, 10, 11, 20
    and 21 go to the teams 0, 9, 9, 0 and 0. *)
Theorem snake_turn_resolver_formula :
  (forall teamCount currentPick : Z,
      0 < teamCount -> 1 <= currentPick ->
      exists round positionInRound : Z,
        (round - 1) * teamCount < currentPick <= round * teamCount
        /\ positionInRound = (currentPick - 1) mod teamCount + 1
        /\ getDraftOrder currentPick teamCount
           = Num (if Z.even round then teamCount - positionInRound
                  else positionInRound - 1)
        /\ Store.getCurrentDraftTeamIndex currentPick teamCount
           = getDraftOrder currentPick teamCount)
  /\ getDraftOrder 1 10 = Num 0
  /\ getDraftOrder 10 10 = Num 9
  /\ getDraftOrder 11 10 = Num 9
  /\ getDraftOrder 20 10 = Num 0
  /\ getDraftOrder 21 10 = Num 0.
Proof.
  split; [|repeat split; reflexivity].
  intros n p Hn Hp.
  destruct (pick_cell n p Hn Hp) as (Hr & Hc & Hpe).
  set (r := (p - 1) / n + 1) in *. set (c := (p - 1) mod n) in *.
  exists r, (c + 1). split; [nia|]. split; [reflexivity|].
  rewrite Hpe at 1 2 3.
  rewrite getCurrentDraftTeamIndex_cell, getDraftOrder_cell by assumption.
  split; [|reflexivity].
  destruct (Z.even r); f_equal; lia.
Qed.

Lemma snake_turn_resolver_formula_witness :
  exists round positionInRound : Z,
    (round - 1) * 10 < 14 <= round * 10
    /\ positionInRound = (14 - 1) mod 10 + 1
    /\ getDraftOrder 14 10
       = Num (if Z.even round then 10 - positionInRound else positionInRound - 1)
    /\ Store.getCurrentDraftTeamIndex 14 10 = getDraftOrder 14 10.
Proof.
  apply (proj1 snake_turn_resolver_formula 10 14); lia.
Defined.

(** C6, as the claim states it: a linear draft on the clock at pick 11 of
    10 teams would be resolved to index [positionInRound - 1 = 0]; both
    resolvers, which take no draft type, answer 9. *)
Lemma linear_order_not_resolved :
  ((11 - 1) mod 10 + 1) - 1 = 0
  /\ getDraftOrder 11 10 = Num 9
  /\ Store.getCurrentDraftTeamIndex 11 10 = Num 9
  /\ getDraftOrder 11 10 <> Num (((11 - 1) mod 10 + 1) - 1).
Proof.
  repeat split; try reflexivity. discriminate.
Qed.

(** C6, amended.  The turn resolver takes no draft-type flag: both
    [getDraftOrder] and the index computed by
    [selectors.getCurrentDraftTeam] always apply the snake order,
    [positionInRound - 1] in odd rounds and [teamCount - positionInRound]
    in even rounds, and the selector returns the team at that index.  The
    draft type is checked by [isValidDraftSettings] alone, which accepts
    exactly snake, linear and random and reports "Invalid draft type"
    otherwise, and only the draft grid follows a linear order: without the
    snake flag the cell in row [round] and column [teamIndex] holds the
    pick of that round with [positionInRound - 1 = teamIndex]. *)
Theorem turn_resolver_always_snake :
  (forall teamCount currentPick : Z,
      0 < teamCount -> 1 <= currentPick ->
      let round := (currentPick - 1) / teamCount + 1 in
      let positionInRound := (currentPick - 1) mod teamCount + 1 in
      getDraftOrder currentPick teamCount
      = Num (if Z.odd round then positionInRound - 1
             else teamCount - positionInRound)
      /\ Store.getCurrentDraftTeamIndex currentPick teamCount
         = Num (if Z.odd round then positionInRound - 1
                else teamCount - positionInRound))
  /\ (forall (state : Store.AppState) (ds : Store.DraftState) (l : Store.League),
         Store.draftState state = Some ds ->
         Store.currentLeague state = Some l ->
         Store.l_teams l <> [] ->
         1 <= Store.currentPick ds ->
         let teamCount := len (Store.l_teams l) in
         let round := (Store.currentPick ds - 1) / teamCount + 1 in
         let positionInRound := (Store.currentPick ds - 1) mod teamCount + 1 in
         Store.getCurrentDraftTeam state
         = nth_error (Store.l_teams l)
                     (Z.to_nat (if Z.odd round then positionInRound - 1
                                else teamCount - positionInRound)))
  /\ (forall t : string,
         isValidDraftSettings
           {| ds_rounds := None; ds_pick_duration := None;
              ds_draft_type := Some t |}
         = if (String.eqb t "snake" || String.eqb t "linear"
               || String.eqb t "random")%bool
           then (true, [])
           else (false, ["Invalid draft type"%string]))
  /\ (forall teamCount round teamIndex : Z,
         0 < teamCount -> 0 <= teamIndex < teamCount ->
         let pick := Grid.pickNumber false teamCount round teamIndex in
         (pick - 1) / teamCount + 1 = round
         /\ ((pick - 1) mod teamCount + 1) - 1 = teamIndex).
Proof.
  assert (Hboth : forall n p : Z,
             0 < n -> 1 <= p ->
             let round := (p - 1) / n + 1 in
             let pos := (p - 1) mod n + 1 in
             getDraftOrder p n
             = Num (if Z.odd round then pos - 1 else n - pos)
             /\ Store.getCurrentDraftTeamIndex p n
                = Num (if Z.odd round then pos - 1 else n - pos)).
  { intros n p Hn Hp round pos.
    destruct (pick_cell n p Hn Hp) as (Hr & Hc & Hpe).
    fold round in Hr, Hpe. rewrite Hpe at 1 2.
    rewrite getCurrentDraftTeamIndex_cell, getDraftOrder_cell by assumption.
    rewrite <- Z.negb_even. subst pos.
    destruct (Z.even round); cbn [negb]; split; f_equal; lia. }
  split; [exact Hboth|]. split; [|split].
  - intros state ds l Hds Hl Hne Hp n round pos.
    assert (Hn : 0 < n).
    { unfold n, len. destruct (Store.l_teams l); [contradiction | cbn; lia]. }
    unfold Store.getCurrentDraftTeam. rewrite Hds, Hl. fold n.
    destruct (Hboth n (Store.currentPick ds) Hn Hp) as [_ Hsel].
    cbv zeta in Hsel. fold round pos in Hsel. rewrite Hsel.
    assert (Hc : 0 <= (Store.currentPick ds - 1) mod n < n)
      by (apply Z.mod_pos_bound; lia).
    fold pos in Hc.
    unfold js_index.
    destruct (Z.ltb_spec (if Z.odd round then pos - 1 else n - pos) 0);
      [|reflexivity].
    exfalso. subst pos. destruct (Z.odd round); lia.
  - intros t. unfold isValidDraftSettings, includes, validTypes.
    cbn [ds_rounds ds_pick_duration ds_draft_type existsb].
    rewrite orb_false_r, orb_assoc.
    destruct (String.eqb t "snake" || String.eqb t "linear"
              || String.eqb t "random")%bool; reflexivity.
  - intros n round ti Hn Hti pick.
    assert (Hpick : pick - 1 = n * (round - 1) + ti).
    { unfold pick, Grid.pickNumber. cbn [andb]. lia. }
    rewrite <- (Z.div_unique (pick - 1) n (round - 1) ti) by (auto; lia).
    rewrite <- (Z.mod_unique (pick - 1) n (round - 1) ti) by (auto; lia).
    lia.
Qed.

Lemma turn_resolver_always_snake_witness :
  getDraftOrder 27 8
  = Num (if Z.odd ((27 - 1) / 8 + 1) then ((27 - 1) mod 8 + 1) - 1
         else 8 - ((27 - 1) mod 8 + 1))
  /\ Store.getCurrentDraftTeamIndex 27 8
     = Num (if Z.odd ((27 - 1) / 8 + 1) then ((27 - 1) mod 8 + 1) - 1
            else 8 - ((27 - 1) mod 8 + 1)).
Proof.
  apply (proj1 turn_resolver_always_snake 8 27); lia.
Defined.

(** C7, as the claim states it: with zero teams the call does not fail; it
    completes normally and hands NaN to its caller.  In the store a league
    without teams has nobody on the clock, which [isUserTurn] takes for the
    turn of a user without a team. *)
Lemma zero_teams_not_rejected :
  call_getDraftOrder 1 0 = Return NaN
  /\ (forall msg, call_getDraftOrder 1 0 <> Throw msg)
  /\ Store.getCurrentDraftTeam Sample.emptyLeagueState = None
  /\ Store.isUserTurn Sample.emptyLeagueState = true.
Proof.
  repeat split; try reflexivity. discriminate.
Qed.

(** C7, amended.  With [teamCount = 0] the turn resolver raises no error:
    for every pick [getDraftOrder] returns NaN, and
    [selectors.getCurrentDraftTeam] returns [null] for a league without
    teams. *)
Theorem zero_teams_yield_NaN :
  (forall currentPick : Z,
      call_getDraftOrder currentPick 0 = Return NaN)
  /\ (forall (state : Store.AppState) (l : Store.League),
         Store.currentLeague state = Some l -> Store.l_teams l = [] ->
         Store.getCurrentDraftTeam state = None).
Proof.
  split.
  - intros p. unfold call_getDraftOrder. now rewrite getDraftOrder_zero_teams.
  - intros state l Hl Ht. unfold Store.getCurrentDraftTeam.
    rewrite Hl, Ht. destruct (Store.draftState state) as [ds|]; [|reflexivity].
    unfold Store.getCurrentDraftTeamIndex, js_ceil_div. cbn [len List.length Z.of_nat Z.eqb].
    destruct (0 <? Store.currentPick ds); [reflexivity|].
    destruct (Store.currentPick ds <? 0); reflexivity.
Qed.

Lemma zero_teams_yield_NaN_witness :
  Store.getCurrentDraftTeam Sample.emptyLeagueState = None.
Proof.
  apply (proj2 zero_teams_yield_NaN Sample.emptyLeagueState
           {| Store.l_id := "L0"; Store.l_name := "Empty"; Store.l_teams := [] |});
    reflexivity.
Defined.

(** C9, as the claim states it: with 10 teams pick 1 goes to team 0 but
    pick [10*2 - 1 = 19] goes to team 1; the mirror image of pick [p] in
    the next round is pick [teamCount*2 + 1 - p]. *)
Lemma reversal_formula_off_by_one :
  getDraftOrder 1 10 = Num 0
  /\ getDraftOrder (10 * 2 - 1) 10 = Num 1
  /\ getDraftOrder 1 10 <> getDraftOrder (10 * 2 - 1) 10.
Proof.
  repeat split; try reflexivity. discriminate.
Qed.

(** C9, amended.  In a snake draft the output for pick [p] equals the
    output for its mirror image [2*teamCount*k + 1 - p] about the end of
    any even round [2k] not before [p] (for [k = 1]: [teamCount*2 + 1 - p]);
    and the rounds alternate: the pick at position [c] (0-based) of an odd
    round goes to team [c], that of an even round to team
    [teamCount - 1 - c]. *)
Theorem snake_reversal_pattern :
  (forall teamCount p k : Z,
      0 < teamCount -> 1 <= p <= 2 * teamCount * k ->
      getDraftOrder (2 * teamCount * k + 1 - p) teamCount
      = getDraftOrder p teamCount)
  /\ (forall teamCount round c : Z,
         0 < teamCount -> 1 <= round -> 0 <= c < teamCount ->
         getDraftOrder ((round - 1) * teamCount + c + 1) teamCount
         = Num (if Z.odd round then c else teamCount - 1 - c)).
Proof.
  split.
  - intros n p k Hn Hp.
    destruct (pick_cell n p Hn ltac:(lia)) as (Hr & Hc & Hpe).
    set (r := (p - 1) / n + 1) in *. set (c := (p - 1) mod n) in *.
    assert (Hrk : r <= 2 * k) by nia.
    replace (2 * n * k + 1 - p)
      with ((2 * k - r + 1 - 1) * n + (n - 1 - c) + 1) by lia.
    rewrite Hpe at 1.
    rewrite !getDraftOrder_cell by lia.
    replace (2 * k - r + 1) with ((1 - r) + 2 * k) by lia.
    rewrite Z.even_add_mul_2, Z.even_sub. cbn [Z.even].
    destruct (Z.even r); cbn; f_equal; lia.
  - intros n r c Hn Hr Hc. rewrite getDraftOrder_cell by assumption.
    rewrite <- Z.negb_even. destruct (Z.even r); reflexivity.
Qed.

Lemma snake_reversal_pattern_witness :
  getDraftOrder (2 * 10 * 2 + 1 - 23) 10 = getDraftOrder 23 10.
Proof.
  apply (proj1 snake_reversal_pattern 10 23 2); lia.
Defined.

(** ** The draft grid *)

Lemma roundPickNumbers_perm (isSnakeDraft : bool) (n R : nat) :
  Permutation (Grid.roundPickNumbers isSnakeDraft n (Z.of_nat (S R)))
              (map Z.of_nat (seq (1 + n * R) n)).
Proof.
  unfold Grid.roundPickNumbers, Grid.pickNumber.
  set (snake := isSnakeDraft && (Z.rem (Z.of_nat (S R)) 2 =? 0)).
  apply NoDup_Permutation.
  - apply NoDup_map_NoDup_ForallPairs; [|apply seq_NoDup].
    intros i j _ _. destruct snake; nia.
  - apply NoDup_map_NoDup_ForallPairs; [|apply seq_NoDup].
    intros i j _ _. lia.
  - intros x. rewrite !in_map_iff. split.
    + intros (i & Hx & Hi%in_seq). exists (Z.to_nat x).
      rewrite in_seq. destruct snake; subst x; nia.
    + intros (k & Hx & Hk%in_seq). subst x.
      destruct snake.
      * exists (n - (k - n * R))%nat. rewrite in_seq. nia.
      * exists (k - n * R - 1)%nat. rewrite in_seq. nia.
Qed.

Lemma gridPickNumbers_perm (isSnakeDraft : bool) (n R : nat) :
  Permutation (List.concat (Grid.gridPickNumbers isSnakeDraft n R))
              (map Z.of_nat (seq 1 (n * R))).
Proof.
  unfold Grid.gridPickNumbers. induction R as [|R IH].
  - rewrite Nat.mul_0_r. constructor.
  - rewrite seq_S, map_app, concat_app. cbn [map List.concat].
    rewrite app_nil_r.
    replace (n * S R)%nat with (n * R + n)%nat by lia.
    rewrite seq_app, map_app.
    apply Permutation_app; [exact IH|].
    apply roundPickNumbers_perm.
Qed.

Lemma gridPickNumbers_cell (isSnakeDraft : bool) (n R round column : nat) :
  (1 <= round <= R)%nat -> (column < n)%nat ->
  exists row,
    nth_error (Grid.gridPickNumbers isSnakeDraft n R) (round - 1) = Some row
    /\ nth_error row column
       = Some (Grid.pickNumber isSnakeDraft (Z.of_nat n) (Z.of_nat round)
                               (Z.of_nat column)).
Proof.
  intros Hr Hc. unfold Grid.gridPickNumbers, Grid.roundPickNumbers.
  rewrite nth_error_map, nth_error_seq.
  destruct (Nat.ltb_spec (round - 1) R); [|lia].
  replace (1 + (round - 1))%nat with round by lia.
  cbn [option_map]. eexists. split; [reflexivity|].
  rewrite nth_error_map, nth_error_seq.
  destruct (Nat.ltb_spec column n); [|lia].
  reflexivity.
Qed.

(** C10.  For [teamCount > 0] and [totalRounds > 0] the pick numbers the
    snake grid gives its cells are the numbers [1 .. teamCount*totalRounds],
    each in exactly one cell (the cells, read row by row, are a permutation
    of that range), and the numbering inverts the snake turn resolver:
    [getDraftOrder] of the number in row [round], column [column] is
    [column]. *)
Theorem draft_grid_inverts_turn_resolver :
  forall teamCount totalRounds : nat,
    (0 < teamCount)%nat -> (0 < totalRounds)%nat ->
    Permutation (List.concat (Grid.gridPickNumbers true teamCount totalRounds))
                (map Z.of_nat (seq 1 (teamCount * totalRounds)))
    /\ NoDup (List.concat (Grid.gridPickNumbers true teamCount totalRounds))
    /\ forall round column : nat,
        (1 <= round <= totalRounds)%nat -> (column < teamCount)%nat ->
        exists row pickNumber,
          nth_error (Grid.gridPickNumbers true teamCount totalRounds)
                    (round - 1) = Some row
          /\ nth_error row column = Some pickNumber
          /\ pickNumber = Grid.pickNumber true (Z.of_nat teamCount)
                                          (Z.of_nat round) (Z.of_nat column)
          /\ 1 <= pickNumber <= Z.of_nat (teamCount * totalRounds)
          /\ getDraftOrder pickNumber (Z.of_nat teamCount)
             = Num (Z.of_nat column).
Proof.
  intros n R Hn HR.
  pose proof (gridPickNumbers_perm true n R) as Hperm.
  split; [exact Hperm|]. split.
  { apply (Permutation_NoDup (Permutation_sym Hperm)).
    apply NoDup_map_NoDup_ForallPairs; [|apply seq_NoDup].
    intros i j _ _. lia. }
  intros round column Hr Hc.
  destruct (gridPickNumbers_cell true n R round column Hr Hc) as (row & Hrow & Hcell).
  exists row, (Grid.pickNumber true (Z.of_nat n) (Z.of_nat round) (Z.of_nat column)).
  repeat split; try assumption.
  - unfold Grid.pickNumber. destruct (true && _); nia.
  - unfold Grid.pickNumber. destruct (true && _); nia.
  - unfold Grid.pickNumber. cbn [andb]. rewrite rem2_even.
    destruct (Z.even (Z.of_nat round)) eqn:Hev.
    + replace ((Z.of_nat round - 1) * Z.of_nat n + (Z.of_nat n - Z.of_nat column))
        with ((Z.of_nat round - 1) * Z.of_nat n
              + (Z.of_nat n - 1 - Z.of_nat column) + 1) by lia.
      rewrite getDraftOrder_cell by lia. rewrite Hev. f_equal. lia.
    + replace ((Z.of_nat round - 1) * Z.of_nat n + (Z.of_nat column + 1))
        with ((Z.of_nat round - 1) * Z.of_nat n + Z.of_nat column + 1) by lia.
      rewrite getDraftOrder_cell by lia. rewrite Hev. reflexivity.
Qed.

Lemma draft_grid_inverts_turn_resolver_witness :
  Permutation (List.concat (Grid.gridPickNumbers true 3 4))
              (map Z.of_nat (seq 1 (3 * 4)))
  /\ NoDup (List.concat (Grid.gridPickNumbers true 3 4))
  /\ forall round column : nat,
      (1 <= round <= 4)%nat -> (column < 3)%nat ->
      exists row pickNumber,
        nth_error (Grid.gridPickNumbers true 3 4) (round - 1) = Some row
        /\ nth_error row column = Some pickNumber
        /\ pickNumber = Grid.pickNumber true (Z.of_nat 3) (Z.of_nat round)
                                        (Z.of_nat column)
        /\ 1 <= pickNumber <= Z.of_nat (3 * 4)
        /\ getDraftOrder pickNumber (Z.of_nat 3) = Num (Z.of_nat column).
Proof.
  apply (draft_grid_inverts_turn_resolver 3 4); lia.
Defined.

(** ** The store reducer *)

Lemma nth_error_mapi_from {A B : Type} (f : A -> nat -> B) (l : list A) :
  forall i k, nth_error (mapi_from i f l) k
              = option_map (fun x => f x (i + k)%nat) (nth_error l k).
Proof.
  induction l as [|x l IH]; intros i k.
  - destruct k; reflexivity.
  - destruct k as [|k]; cbn [mapi_from nth_error option_map].
    + now rewrite Nat.add_0_r.
    + rewrite IH. now rewrite Nat.add_succ_comm.
Qed.

Lemma nth_error_mapi {A B : Type} (f : A -> nat -> B) (l : list A) (k : nat) :
  nth_error (mapi f l) k = option_map (fun x => f x k) (nth_error l k).
Proof. unfold mapi. now rewrite nth_error_mapi_from. Qed.

(** The ids and the order of [availablePlayers] survive ADD_DRAFT_PICK. *)
Lemma add_draft_pick_keeps_ids (player : Store.Player) (l : list Store.Player) :
  map Store.p_id
      (map (fun p => if Store.p_id p =? Store.p_id player
                     then {| Store.p_id := Store.p_id p;
                             Store.p_web_name := Store.p_web_name p;
                             Store.p_position := Store.p_position p;
                             Store.p_total_points := Store.p_total_points p;
                             Store.p_selected_by_percent :=
                               Store.p_selected_by_percent p + 1 |}
                     else p) l)
  = map Store.p_id l.
Proof.
  rewrite map_map. apply map_ext. intros p.
  destruct (Store.p_id p =? Store.p_id player); reflexivity.
Qed.

(** What one ADD_DRAFT_PICK does to a state that has a draft state,
    whatever the stored [currentPick] is: the pick number of the action is
    never compared with it. *)
Lemma add_draft_pick_step (now : string) (state : Store.AppState)
    (ds : Store.DraftState) (teamId : string) (player : Store.Player) (pick : Z) :
  Store.draftState state = Some ds ->
  let state' := Store.appReducer now state (Store.ADD_DRAFT_PICK teamId player pick) in
  exists ds',
    Store.draftState state' = Some ds'
    /\ Store.currentPick ds' = pick + 1
    /\ Store.queuedPlayers ds' = Store.queuedPlayers ds
    /\ Store.d_availablePlayers ds' = Store.d_availablePlayers ds
    /\ map Store.p_id (Store.availablePlayers state')
       = map Store.p_id (Store.availablePlayers state)
    /\ Store.error state' = Store.error state
    /\ Store.loading state' = Store.loading state.
Proof.
  intros Hds state'. subst state'. cbn [Store.appReducer].
  cbn [Store.draftState Store.availablePlayers Store.error Store.loading].
  rewrite Hds. eexists. split; [reflexivity|].
  cbn [Store.currentPick Store.queuedPlayers Store.d_availablePlayers].
  repeat split; try reflexivity. apply add_draft_pick_keeps_ids.
Qed.

(** C2, as the claim states it: the sample store is at pick 1 and receives
    the event of pick 4; the reducer moves [currentPick] to 5 and reports
    nothing. *)
Lemma out_of_order_pick_is_applied :
  let state' := Store.appReducer "t" Sample.state
                  (Store.ADD_DRAFT_PICK "B" (Sample.player 3) 4) in
  option_map Store.currentPick (Store.draftState Sample.state) = Some 1
  /\ option_map Store.currentPick (Store.draftState state') = Some 5
  /\ option_map Store.currentPick (Store.draftState state')
     <> option_map Store.currentPick (Store.draftState Sample.state)
  /\ Store.error state' = None.
Proof.
  cbv zeta. repeat split; try reflexivity. vm_compute. discriminate.
Qed.

(** C2, amended.  When the pick number of an ADD_DRAFT_PICK differs from
    the store's [currentPick] the reducer does not reject the event: it
    sets [currentPick] to that pick number plus 1; the ids of the available
    players and the queued players stay as they were, and no
    resynchronization is signalled ([error] and [loading] are unchanged). *)
Theorem out_of_order_pick_not_rejected :
  forall (now : string) (state : Store.AppState) (ds : Store.DraftState)
         (teamId : string) (player : Store.Player) (pick : Z),
    Store.draftState state = Some ds ->
    pick <> Store.currentPick ds ->
    let state' := Store.appReducer now state
                    (Store.ADD_DRAFT_PICK teamId player pick) in
    option_map Store.currentPick (Store.draftState state') = Some (pick + 1)
    /\ map Store.p_id (Store.availablePlayers state')
       = map Store.p_id (Store.availablePlayers state)
    /\ option_map Store.queuedPlayers (Store.draftState state')
       = Some (Store.queuedPlayers ds)
    /\ Store.error state' = Store.error state
    /\ Store.loading state' = Store.loading state.
Proof.
  intros now state ds teamId player pick Hds _ state'.
  destruct (add_draft_pick_step now state ds teamId player pick Hds)
    as (ds' & Hds' & Hcp & Hq & _ & Hav & Herr & Hld).
  fold state' in Hds', Hav, Herr, Hld.
  rewrite Hds'. cbn [option_map]. rewrite Hcp, Hq. auto.
Qed.

Lemma out_of_order_pick_not_rejected_witness :
  let state' := Store.appReducer "t" Sample.state
                  (Store.ADD_DRAFT_PICK "B" (Sample.player 3) 4) in
  option_map Store.currentPick (Store.draftState state') = Some (4 + 1)
  /\ map Store.p_id (Store.availablePlayers state')
     = map Store.p_id (Store.availablePlayers Sample.state)
  /\ option_map Store.queuedPlayers (Store.draftState state')
     = Some (Store.queuedPlayers Sample.draft)
  /\ Store.error state' = Store.error Sample.state
  /\ Store.loading state' = Store.loading Sample.state.
Proof.
  apply (out_of_order_pick_not_rejected "t" Sample.state Sample.draft
           "B" (Sample.player 3) 4).
  - reflexivity.
  - vm_compute. discriminate.
Defined.

(** ** The simulator's draftPlayer *)

Lemma available_ids_mark (pid : Z) (l : list Mock.MockPlayer) :
  map Mock.mp_id
      (filter Mock.isAvailable
              (map (fun p => if Mock.mp_id p =? pid
                             then Mock.set_unavailable p else p) l))
  = filter (fun id => negb (id =? pid))
           (map Mock.mp_id (filter Mock.isAvailable l)).
Proof.
  induction l as [|a l IH]; [reflexivity|].
  cbn [map filter].
  destruct (Mock.mp_id a =? pid) eqn:Eid;
    destruct (Mock.isAvailable a) eqn:Eav;
    cbn [Mock.set_unavailable Mock.isAvailable map filter];
    rewrite ?Eav, ?Eid; cbn [negb map]; rewrite IH; reflexivity.
Qed.

Lemma queue_ids_purge (pid : Z) (q : list Mock.MockPlayer) :
  map Mock.mp_id (filter (fun p => negb (Mock.mp_id p =? pid)) q)
  = filter (fun id => negb (id =? pid)) (map Mock.mp_id q).
Proof.
  induction q as [|a q IH]; [reflexivity|].
  cbn [map filter]. destruct (Mock.mp_id a =? pid); cbn [negb map];
    rewrite IH; reflexivity.
Qed.

(** [draftPlayer] returns exactly when the team exists. *)
Lemma draftPlayer_returns (league : Mock.LeagueProps) (now : string)
    (player : Mock.MockPlayer) (teamIndex : jsnum) (st : Mock.State)
    (team : Mock.MockTeam) :
  js_index (Mock.mockTeams st) teamIndex = Some team ->
  exists st', Mock.draftPlayer league now player teamIndex st = Return st'.
Proof.
  intros Hteam. unfold Mock.draftPlayer. rewrite Hteam.
  destruct (_ <=? _); eexists; reflexivity.
Qed.

(** What a pick does to the simulator, for any team. *)
Lemma draftPlayer_effect (league : Mock.LeagueProps) (now : string)
    (player : Mock.MockPlayer) (teamIndex : jsnum) (st st' : Mock.State) :
  Mock.draftPlayer league now player teamIndex st = Return st' ->
  (exists pick,
      Mock.draftPicks st' = Mock.draftPicks st ++ [pick]
      /\ Store.dp_player_id pick = Mock.mp_id player
      /\ Store.dp_pick_number pick = Mock.currentPick st
      /\ option_map Mock.mt_id (js_index (Mock.mockTeams st) teamIndex)
         = Some (Store.dp_team_id pick))
  /\ Mock.available_ids st'
     = filter (fun id => negb (id =? Mock.mp_id player)) (Mock.available_ids st)
  /\ Mock.queue_ids st'
     = filter (fun id => negb (id =? Mock.mp_id player)) (Mock.queue_ids st)
  /\ Mock.currentPick st'
     = (if len (Mock.mockTeams st) * Mock.roster_size league <=? Mock.currentPick st
        then Mock.currentPick st else Mock.currentPick st + 1).
Proof.
  unfold Mock.draftPlayer.
  destruct (js_index (Mock.mockTeams st) teamIndex) as [team|]; [|discriminate].
  destruct (_ <=? _); intros [= <-];
    unfold Mock.available_ids, Mock.queue_ids;
    cbn [Mock.draftPicks Mock.availablePlayers Mock.userQueue Mock.currentPick];
    (split; [eexists; repeat split; reflexivity|]);
    (split; [apply available_ids_mark|]);
    (split; [apply queue_ids_purge | reflexivity]).
Qed.

(** The [draftPlayer] of a render, called while the cells are those of
    that render, is [draftPlayer] on the current cells. *)
Lemma draftPlayerFrom_same (league : Mock.LeagueProps) (now : string)
    (player : Mock.MockPlayer) (teamIndex : jsnum) (st : Mock.State) :
  Mock.draftPlayerFrom league now st player teamIndex st
  = Mock.draftPlayer league now player teamIndex st.
Proof. reflexivity. Qed.

(** What a pick made from the closure of [render] does to the cells
    [cur]: the pick list and the queue are updated from [cur], the
    available players and the counters are rewritten from [render]. *)
Lemma draftPlayerFrom_effect (league : Mock.LeagueProps) (now : string)
    (render : Mock.State) (player : Mock.MockPlayer) (teamIndex : jsnum)
    (cur st' : Mock.State) :
  Mock.draftPlayerFrom league now render player teamIndex cur = Return st' ->
  (exists pick,
      Mock.draftPicks st' = Mock.draftPicks cur ++ [pick]
      /\ Store.dp_player_id pick = Mock.mp_id player
      /\ Store.dp_pick_number pick = Mock.currentPick render)
  /\ Mock.available_ids st'
     = filter (fun id => negb (id =? Mock.mp_id player))
              (Mock.available_ids render)
  /\ Mock.queue_ids st'
     = filter (fun id => negb (id =? Mock.mp_id player)) (Mock.queue_ids cur)
  /\ Mock.isAutoPicking st' = Mock.isAutoPicking cur.
Proof.
  unfold Mock.draftPlayerFrom.
  destruct (js_index (Mock.mockTeams render) teamIndex) as [team|];
    [|discriminate].
  destruct (_ <=? _); intros [= <-];
    unfold Mock.available_ids, Mock.queue_ids;
    cbn [Mock.draftPicks Mock.availablePlayers Mock.userQueue
         Mock.isAutoPicking];
    (split; [eexists; repeat split; reflexivity|]);
    (split; [apply available_ids_mark|]);
    (split; [apply queue_ids_purge | reflexivity]).
Qed.

(** The players of the store after ADD_DRAFT_PICK, one by one: the drafted
    player has [selected_by_percent] incremented, and nothing else
    differs. *)
Lemma add_draft_pick_bumps (player : Store.Player) (l : list Store.Player) :
  Forall2 (fun p p' =>
             Store.p_id p' = Store.p_id p
             /\ Store.p_web_name p' = Store.p_web_name p
             /\ Store.p_position p' = Store.p_position p
             /\ Store.p_total_points p' = Store.p_total_points p
             /\ Store.p_selected_by_percent p'
                = Store.p_selected_by_percent p
                  + (if Store.p_id p =? Store.p_id player then 1 else 0))
          l
          (map (fun p => if Store.p_id p =? Store.p_id player
                         then {| Store.p_id := Store.p_id p;
                                 Store.p_web_name := Store.p_web_name p;
                                 Store.p_position := Store.p_position p;
                                 Store.p_total_points := Store.p_total_points p;
                                 Store.p_selected_by_percent :=
                                   Store.p_selected_by_percent p + 1 |}
                         else p) l).
Proof.
  induction l as [|p l IH]; cbn [map]; constructor; [|exact IH].
  destruct (Store.p_id p =? Store.p_id player);
    cbn [Store.p_id Store.p_web_name Store.p_position Store.p_total_points
         Store.p_selected_by_percent];
    repeat split; lia.
Qed.

(** C3, as the claim states it: the sample store is at pick 1 and receives
    the event of pick 1 for player 3; afterwards player 3 is still among
    the available players and still queued, and the roster of team B in
    the league has changed. *)
Lemma in_order_pick_keeps_player :
  let state' := Store.appReducer "t" Sample.state
                  (Store.ADD_DRAFT_PICK "B" (Sample.player 3) 1) in
  option_map Store.currentPick (Store.draftState Sample.state) = Some 1
  /\ In 3 (map Store.p_id (Store.availablePlayers state'))
  /\ option_map (fun ds => map Store.p_id (Store.queuedPlayers ds))
                (Store.draftState state') = Some [7; 3; 9]
  /\ Store.currentLeague state' <> Store.currentLeague Sample.state.
Proof.
  cbv zeta. repeat split; try reflexivity.
  - vm_compute. auto.
  - vm_compute. discriminate.
Qed.

(** C3, amended.  In the store, an ADD_DRAFT_PICK whose pick number equals
    [currentPick] sets [currentPick] to its previous value plus 1 and
    appends the pick to the draft-board row of the pick's round; no other
    part of the draft state changes: the other rows of the board,
    [isActive], [currentRound], [timeRemaining], [isMyTurn], the draft
    state's [availablePlayers] and [queuedPlayers] are as before, so the
    drafted player is not removed from the queue.  Nor is the player
    removed from the store's [availablePlayers]: every player is kept, in
    place, and only the [selected_by_percent] of the drafted one is
    incremented by 1.  Outside the draft state the id of the player is
    appended to the starters of the drafting team, in [currentLeague] and,
    if it is the drafting team, in [userTeam]; [user], [notifications],
    [loading] and [error] are unchanged.

    In the simulator, a pick by the user on the clock
    ([handleUserDraftPick]) appends the pick, takes the player out of the
    available set and out of the user's queue, and advances [currentPick]
    by 1 unless this was the last pick of the draft, which completes and
    deactivates it; besides, it adds the player to the roster of team 0
    and puts the next team of the snake order on the clock. *)
Theorem in_order_pick_effects :
  (forall (now : string) (state : Store.AppState) (ds : Store.DraftState)
          (teamId : string) (player : Store.Player) (pick : Z),
      Store.draftState state = Some ds ->
      pick = Store.currentPick ds ->
      let state' := Store.appReducer now state
                      (Store.ADD_DRAFT_PICK teamId player pick) in
      exists ds' rec,
        Store.draftState state' = Some ds'
        /\ Store.currentPick ds' = Store.currentPick ds + 1
        /\ Store.dp_player_id rec = Store.p_id player
        /\ Store.dp_pick_number rec = pick
        /\ Store.dp_team_id rec = teamId
        /\ (forall i : nat,
               nth_error (Store.draftBoard ds') i
               = option_map
                   (fun row =>
                      if Z.of_nat i =? ceil_div pick (Store.teamCount_or_1 state) - 1
                      then row ++ [rec] else row)
                   (nth_error (Store.draftBoard ds) i))
        /\ Store.isActive ds' = Store.isActive ds
        /\ Store.currentRound ds' = Store.currentRound ds
        /\ Store.timeRemaining ds' = Store.timeRemaining ds
        /\ Store.isMyTurn ds' = Store.isMyTurn ds
        /\ Store.d_availablePlayers ds' = Store.d_availablePlayers ds
        /\ Store.queuedPlayers ds' = Store.queuedPlayers ds
        /\ Forall2 (fun p p' =>
                      Store.p_id p' = Store.p_id p
                      /\ Store.p_web_name p' = Store.p_web_name p
                      /\ Store.p_position p' = Store.p_position p
                      /\ Store.p_total_points p' = Store.p_total_points p
                      /\ Store.p_selected_by_percent p'
                         = Store.p_selected_by_percent p
                           + (if Store.p_id p =? Store.p_id player
                              then 1 else 0))
                   (Store.availablePlayers state)
                   (Store.availablePlayers state')
        /\ Store.user state' = Store.user state
        /\ Store.notifications state' = Store.notifications state
        /\ Store.loading state' = Store.loading state
        /\ Store.error state' = Store.error state
        /\ Store.currentLeague state'
           = option_map
               (fun l => Store.with_teams l
                  (map (fun team => if String.eqb (Store.t_id team) teamId
                                    then Store.push_starter team (Store.p_id player)
                                    else team)
                       (Store.l_teams l)))
               (Store.currentLeague state)
        /\ Store.userTeam state'
           = option_map
               (fun team => if String.eqb (Store.t_id team) teamId
                            then Store.push_starter team (Store.p_id player)
                            else team)
               (Store.userTeam state))
  /\ (forall (league : Mock.LeagueProps) (now : string)
             (player : Mock.MockPlayer) (st : Mock.State)
             (team : Mock.MockTeam),
         Mock.isActive st = true ->
         Mock.currentTeamIndex st = Num 0 ->
         Mock.isAutoPicking st = false ->
         nth_error (Mock.mockTeams st) 0 = Some team ->
         let last :=
           len (Mock.mockTeams st) * Mock.roster_size league
           <=? Mock.currentPick st in
         exists st' pick,
           Mock.handleUserDraftPick league now player st = Return st'
           /\ Mock.draftPicks st' = Mock.draftPicks st ++ [pick]
           /\ Store.dp_player_id pick = Mock.mp_id player
           /\ Store.dp_pick_number pick = Mock.currentPick st
           /\ Store.dp_team_id pick = Mock.mt_id team
           /\ Mock.available_ids st'
              = filter (fun id => negb (id =? Mock.mp_id player))
                       (Mock.available_ids st)
           /\ Mock.queue_ids st'
              = filter (fun id => negb (id =? Mock.mp_id player))
                       (Mock.queue_ids st)
           /\ Mock.currentPick st'
              = (if last then Mock.currentPick st else Mock.currentPick st + 1)
           /\ Mock.isDraftComplete st'
              = (if last then true else Mock.isDraftComplete st)
           /\ Mock.isActive st' = negb last
           /\ Mock.currentTeamIndex st'
              = (if last then Mock.currentTeamIndex st
                 else getDraftOrder (Mock.currentPick st + 1)
                                    (len (Mock.mockTeams st)))
           /\ (forall i : nat,
                  nth_error (Mock.mockTeams st') i
                  = option_map
                      (fun t => if (i =? 0)%nat
                                then Mock.add_drafted t player else t)
                      (nth_error (Mock.mockTeams st) i))
           /\ Mock.isAutoPicking st' = Mock.isAutoPicking st).
Proof.
  split.
  - intros now state ds teamId player pick Hds Hpick state'. subst state'.
    cbn [Store.appReducer Store.draftState Store.availablePlayers Store.user
         Store.notifications Store.loading Store.error Store.currentLeague
         Store.userTeam].
    rewrite Hds. eexists.
    exists {| Store.dp_id := "pick-" ++ string_of_Z pick;
              Store.dp_league_id := Store.leagueId_or_empty state;
              Store.dp_team_id := teamId;
              Store.dp_player_id := Store.p_id player;
              Store.dp_round := ceil_div pick (Store.teamCount_or_1 state) - 1 + 1;
              Store.dp_pick_number := pick;
              Store.dp_pick_in_round :=
                Some (Z.rem (pick - 1) (Store.teamCount_or_1 state) + 1);
              Store.dp_timestamp := now;
              Store.dp_is_auto_pick := None |}.
    split; [reflexivity|].
    cbn [Store.currentPick Store.queuedPlayers Store.draftBoard
         Store.isActive Store.currentRound Store.timeRemaining
         Store.isMyTurn Store.d_availablePlayers
         Store.dp_player_id Store.dp_pick_number Store.dp_team_id].
    repeat match goal with |- _ /\ _ => split end;
      first [ lia
            | apply add_draft_pick_bumps
            | intros i; rewrite nth_error_mapi; reflexivity
            | destruct (Store.currentLeague state); reflexivity
            | unfold Store.userTeam_is;
              destruct (Store.userTeam state) as [t|]; [|reflexivity];
              cbn [option_map]; destruct (String.eqb (Store.t_id t) teamId);
              reflexivity
            | reflexivity ].
  - intros league now player st team Hact Hidx Hauto Hteam last.
    unfold Mock.handleUserDraftPick, Mock.draftPlayer.
    rewrite Hact, Hidx, Hauto. cbn [negb jsnum_eqb orb Z.eqb js_index Z.ltb].
    cbn [Z.compare Z.to_nat]. rewrite Hteam. fold last.
    destruct last; eexists; eexists; (split; [reflexivity|]);
      unfold Mock.available_ids, Mock.queue_ids;
      cbn [Mock.draftPicks Mock.availablePlayers Mock.userQueue
           Mock.currentPick Mock.isDraftComplete Mock.isActive
           Mock.currentTeamIndex Mock.mockTeams Mock.isAutoPicking
           Store.dp_player_id Store.dp_pick_number Store.dp_team_id negb];
      repeat match goal with |- _ /\ _ => split end;
      first [ apply available_ids_mark
            | apply queue_ids_purge
            | intros i; rewrite nth_error_mapi;
              destruct (nth_error (Mock.mockTeams st) i); [|reflexivity];
              cbn [option_map jsnum_eqb]; destruct i; reflexivity
            | assumption
            | reflexivity ].
Qed.

Lemma in_order_pick_effects_witness :
  (let state' := Store.appReducer "t" Sample.state
                   (Store.ADD_DRAFT_PICK "B" (Sample.player 3) 1) in
   exists ds',
     Store.draftState state' = Some ds'
     /\ Store.currentPick ds' = 2
     /\ Store.queuedPlayers ds' = Store.queuedPlayers Sample.draft
     /\ Store.isActive ds' = true)
  /\ (let st := Sample.mockStart in
      let player := Sample.mockPlayer 3 true in
      exists st' pick,
        Mock.handleUserDraftPick Sample.leagueProps "t" player st = Return st'
        /\ Mock.draftPicks st' = Mock.draftPicks st ++ [pick]
        /\ Store.dp_player_id pick = 3
        /\ Store.dp_pick_number pick = 1
        /\ Store.dp_team_id pick = "A"%string
        /\ Mock.available_ids st' = [5; 7; 9; 11]
        /\ Mock.queue_ids st' = [7; 9]
        /\ Mock.currentPick st' = 2
        /\ Mock.isDraftComplete st' = false
        /\ Mock.isActive st' = true
        /\ Mock.currentTeamIndex st' = Num 1
        /\ (forall i : nat,
               nth_error (Mock.mockTeams st') i
               = option_map
                   (fun t => if (i =? 0)%nat
                             then Mock.add_drafted t player else t)
                   (nth_error (Mock.mockTeams st) i))
        /\ Mock.isAutoPicking st' = false).
Proof.
  split.
  - destruct (proj1 in_order_pick_effects "t"%string Sample.state Sample.draft
                "B"%string (Sample.player 3) 1)
      as (ds' & rec & Hds & Hcp & _ & _ & _ & _ & Hact & _ & _ & _ & _ & Hq & _).
    + reflexivity.
    + reflexivity.
    + cbv zeta. exists ds'. repeat split; assumption.
  - apply (proj2 in_order_pick_effects Sample.leagueProps "t"%string
             (Sample.mockPlayer 3 true) Sample.mockStart (Sample.mockTeam "A"));
      reflexivity.
Defined.

(** ** The personal queue *)

Lemma addToQueue_ids (player : Mock.MockPlayer) (st : Mock.State) :
  Mock.available_ids (Mock.addToQueue player st) = Mock.available_ids st
  /\ forall id, In id (Mock.queue_ids (Mock.addToQueue player st)) ->
                In id (Mock.queue_ids st) \/ id = Mock.mp_id player.
Proof.
  unfold Mock.addToQueue.
  destruct (existsb _ _); [split; [reflexivity | auto]|].
  split; [reflexivity|].
  unfold Mock.queue_ids. cbn [Mock.with_userQueue Mock.userQueue].
  intros id. rewrite map_app, in_app_iff. cbn [map In].
  intros [H | [H | []]]; auto.
Qed.

(** A click on a player either is ignored or drafts the player for team 0
    on the current cells. *)
Lemma handleUserDraftPick_cases (league : Mock.LeagueProps) (now : string)
    (player : Mock.MockPlayer) (st : Mock.State) :
  Mock.handleUserDraftPick league now player st = Return st
  \/ Mock.handleUserDraftPick league now player st
     = Mock.draftPlayer league now player (Num 0) st.
Proof.
  unfold Mock.handleUserDraftPick. destruct (_ || _); auto.
Qed.

(** The queue and the available players after one operation. *)
Lemma step_queue_and_available (league : Mock.LeagueProps) (now : string)
    (st : Mock.State) (o : Mock.Op) :
  match o with
  | Mock.Enqueue player =>
      Mock.available_ids (Mock.step league now st o) = Mock.available_ids st
      /\ forall id, In id (Mock.queue_ids (Mock.step league now st o)) ->
                    In id (Mock.queue_ids st) \/ id = Mock.mp_id player
  | Mock.UserPick player =>
      (Mock.available_ids (Mock.step league now st o) = Mock.available_ids st
       /\ Mock.queue_ids (Mock.step league now st o) = Mock.queue_ids st)
      \/ (Mock.available_ids (Mock.step league now st o)
          = filter (fun id => negb (id =? Mock.mp_id player))
                   (Mock.available_ids st)
          /\ Mock.queue_ids (Mock.step league now st o)
             = filter (fun id => negb (id =? Mock.mp_id player))
                      (Mock.queue_ids st))
  | Mock.TimerFires =>
      Mock.available_ids (Mock.step league now st o) = Mock.available_ids st
      /\ Mock.queue_ids (Mock.step league now st o) = Mock.queue_ids st
  | Mock.TimerPick render selectedPlayer teamIndex =>
      (Mock.available_ids (Mock.step league now st o) = Mock.available_ids st
       /\ Mock.queue_ids (Mock.step league now st o) = Mock.queue_ids st)
      \/ (exists player,
             selectedPlayer = Some player
             /\ Mock.available_ids (Mock.step league now st o)
                = filter (fun id => negb (id =? Mock.mp_id player))
                         (Mock.available_ids render)
             /\ Mock.queue_ids (Mock.step league now st o)
                = filter (fun id => negb (id =? Mock.mp_id player))
                         (Mock.queue_ids st))
  end.
Proof.
  destruct o as [player | player | | render selectedPlayer teamIndex];
    cbn [Mock.step].
  - apply addToQueue_ids.
  - destruct (handleUserDraftPick_cases league now player st) as [E | E];
      rewrite E; [left; split; reflexivity|].
    destruct (Mock.draftPlayer league now player (Num 0) st) as [st'|msg] eqn:D;
      [|left; split; reflexivity].
    destruct (draftPlayer_effect league now player (Num 0) st st' D)
      as (_ & Hav & Hq & _).
    right. split; assumption.
  - split; reflexivity.
  - unfold Mock.autoPickForCPU_resume.
    destruct (js_index (Mock.mockTeams render) teamIndex);
      [|left; split; reflexivity].
    destruct selectedPlayer as [player|]; [|left; split; reflexivity].
    destruct (Mock.draftPlayerFrom league now render player teamIndex st)
      as [st'|msg] eqn:D; [|left; split; reflexivity].
    destruct (draftPlayerFrom_effect league now render player teamIndex st st' D)
      as (_ & Hav & Hq & _).
    right. exists player. split; [reflexivity|]. split; assumption.
Qed.





(** ** Submitting a pick *)

Lemma jsnum_eqb_zero_false (x : jsnum) :
  x <> Num 0 -> jsnum_eqb x (Num 0) = false.
Proof.
  destruct x as [z| | |]; cbn; try reflexivity.
  intros H. apply Z.eqb_neq. congruence.
Qed.

(** C5, as the claim states it: in the sample draft the user is on the
    clock and P5 is not available; [handleUserDraftPick] drafts P5 all the
    same, and [handleMakePick] hands 5 to [makePick]. *)
Lemma unavailable_player_is_submitted :
  Mock.isUserTurn Sample.mock = true
  /\ ~ In 5 (Mock.available_ids Sample.mock)
  /\ (exists st',
         Mock.handleUserDraftPick Sample.leagueProps "t"
           (Sample.mockPlayer 5 false) Sample.mock = Return st'
         /\ st' <> Sample.mock
         /\ map Store.dp_player_id (Mock.draftPicks st') = [5]
         /\ Mock.currentPick st' = Mock.currentPick Sample.mock + 1)
  /\ Room.makePickCalls
       (Room.handleMakePick true (fun _ => false) 5 Sample.room) = [5].
Proof.
  split; [reflexivity|]. split.
  { vm_compute. intros [H|[H|[H|[H|[]]]]]; discriminate. }
  split; [|reflexivity].
  eexists. split; [vm_compute; reflexivity|].
  split; [|split; reflexivity].
  intros H. apply (f_equal Mock.currentPick) in H. vm_compute in H. discriminate.
Qed.

(** C5, amended.  When it is not the local user's turn the pick handlers
    do nothing: with [isMyTurn] false [handleMakePick] does not call
    [makePick] and leaves the queue as it is, and with the draft inactive
    or another team on the clock [handleUserDraftPick] returns the state
    unchanged.  Availability of the player is not checked by either
    handler: on the user's turn [handleMakePick] calls [makePick] for any
    player id, and [handleUserDraftPick] drafts any player. *)
Theorem pick_rejected_when_not_on_the_clock :
  (forall (makePick : Z -> bool) (playerId : Z) (st : Room.State),
      Room.handleMakePick false makePick playerId st = st)
  /\ (forall (league : Mock.LeagueProps) (now : string)
             (player : Mock.MockPlayer) (st : Mock.State),
         Mock.isActive st = false \/ Mock.currentTeamIndex st <> Num 0 ->
         Mock.isUserTurn st = false
         /\ Mock.handleUserDraftPick league now player st = Return st)
  /\ (forall (makePick : Z -> bool) (playerId : Z) (st : Room.State),
         Room.makePickCalls (Room.handleMakePick true makePick playerId st)
         = Room.makePickCalls st ++ [playerId])
  /\ (forall (league : Mock.LeagueProps) (now : string)
             (player : Mock.MockPlayer) (st : Mock.State),
         Mock.isActive st = true -> Mock.currentTeamIndex st = Num 0 ->
         Mock.isAutoPicking st = false ->
         Mock.handleUserDraftPick league now player st
         = Mock.draftPlayer league now player (Num 0) st).
Proof.
  split; [reflexivity|]. split; [|split].
  - intros league now player st H.
    unfold Mock.isUserTurn, Mock.handleUserDraftPick.
    destruct H as [H | H].
    + rewrite H. cbn [negb orb]. rewrite andb_false_r. split; reflexivity.
    + rewrite (jsnum_eqb_zero_false _ H). cbn [negb andb].
      rewrite orb_true_r. split; reflexivity.
  - intros makePick playerId st. unfold Room.handleMakePick. cbn [negb].
    destruct (makePick playerId); reflexivity.
  - intros league now player st Ha Hi Hp. unfold Mock.handleUserDraftPick.
    rewrite Ha, Hi, Hp. reflexivity.
Qed.

Lemma pick_rejected_when_not_on_the_clock_witness :
  Mock.isUserTurn Sample.mockOther = false
  /\ Mock.handleUserDraftPick Sample.leagueProps "t"
       (Sample.mockPlayer 3 true) Sample.mockOther = Return Sample.mockOther.
Proof.
  apply (proj1 (proj2 pick_rejected_when_not_on_the_clock)
           Sample.leagueProps "t"%string (Sample.mockPlayer 3 true)
           Sample.mockOther).
  right. vm_compute. discriminate.
Defined.

(** ** Snapshot and replay *)

(** Replaying in-order picks on a state that has a draft state. *)
Lemma replay_in_order (now : string) (actions : list Store.AppAction) :
  forall (state : Store.AppState) (ds : Store.DraftState),
    Store.draftState state = Some ds ->
    Store.in_order (Store.currentPick ds) actions ->
    exists ds',
      Store.draftState (Store.replay now state actions) = Some ds'
      /\ Store.currentPick ds' = Store.currentPick ds + len actions
      /\ Store.queuedPlayers ds' = Store.queuedPlayers ds
      /\ map Store.p_id (Store.availablePlayers (Store.replay now state actions))
         = map Store.p_id (Store.availablePlayers state).
Proof.
  unfold Store.replay, len.
  induction actions as [|a actions IH]; intros state ds Hds Hord.
  - exists ds. cbn [fold_left List.length Z.of_nat]. rewrite Z.add_0_r. auto.
  - destruct a as [| | | | | | | | | |teamId player pick|]; try contradiction.
    destruct Hord as (Hpick & Hord). cbn [fold_left].
    destruct (add_draft_pick_step now state ds teamId player pick Hds)
      as (ds1 & Hds1 & Hcp1 & Hq1 & _ & Hav1 & _).
    destruct (IH _ ds1 Hds1) as (ds' & Hds' & Hcp' & Hq' & Hav').
    { rewrite Hcp1, Hpick. exact Hord. }
    exists ds'. split; [exact Hds'|].
    rewrite Hcp', Hcp1, Hq', Hq1, Hav', Hav1, Hpick.
    cbn [List.length]. repeat split. lia.
Qed.

(** C8, as the claim states it: the sample snapshot is loaded and the
    pick of P3 by team A replayed; no bulk load of a final snapshot whose
    available players are "all players minus picked players" gives the
    same state, because the replay keeps P3; and no snapshot load at all
    gives it, because the replay has also put P3 on the roster of the
    user's team, which a snapshot load does not touch. *)
Lemma replay_differs_from_bulk_load :
  let players := [Sample.player 3; Sample.player 7; Sample.player 9] in
  let actions := [Store.ADD_DRAFT_PICK "A" (Sample.player 3) 1] in
  Store.in_order (Store.currentPick Sample.draft) actions
  /\ map Store.p_id (Store.final_available players actions) = [7; 9]
  /\ map Store.p_id
         (Store.availablePlayers
            (Store.replay "t"
               (Store.loadSnapshot "t" Sample.draft players Sample.state)
               actions)) = [3; 7; 9]
  /\ (~ exists finalDraft,
          Store.replay "t"
            (Store.loadSnapshot "t" Sample.draft players Sample.state) actions
          = Store.loadSnapshot "t" finalDraft
              (Store.final_available players actions) Sample.state)
  /\ (~ exists finalDraft finalPlayers,
          Store.replay "t"
            (Store.loadSnapshot "t" Sample.draft players Sample.state) actions
          = Store.loadSnapshot "t" finalDraft finalPlayers Sample.state).
Proof.
  cbv zeta. split; [split; reflexivity|]. split; [reflexivity|].
  split; [reflexivity|]. split.
  - intros (finalDraft & H).
    apply (f_equal (fun s => map Store.p_id (Store.availablePlayers s))) in H.
    vm_compute in H. discriminate.
  - intros (finalDraft & finalPlayers & H).
    apply (f_equal Store.userTeam) in H.
    vm_compute in H. discriminate.
Qed.

(** C8, amended.  For every snapshot and every in-order sequence of pick
    events, loading the snapshot and replaying the events agrees with a
    bulk load of the final snapshot on [currentPick] (the snapshot's
    [currentPick] plus the number of events) and keeps the snapshot's
    queued players; the available players are not brought to the final
    snapshot's: the replay keeps the ids of all players of the loaded
    snapshot, the drafted ones included.  (The replay also appends the
    drafted players to the team rosters, outside the snapshot.) *)
Theorem replay_agrees_on_current_pick :
  forall (now : string) (state : Store.AppState) (ds : Store.DraftState)
         (players : list Store.Player) (actions : list Store.AppAction),
    Store.in_order (Store.currentPick ds) actions ->
    let replayed :=
      Store.replay now (Store.loadSnapshot now ds players state) actions in
    option_map Store.currentPick (Store.draftState replayed)
    = Some (Store.currentPick ds + len actions)
    /\ (forall (finalDraft : Store.DraftState) (finalPlayers : list Store.Player),
           Store.currentPick finalDraft = Store.currentPick ds + len actions ->
           option_map Store.currentPick (Store.draftState replayed)
           = option_map Store.currentPick
               (Store.draftState
                  (Store.loadSnapshot now finalDraft finalPlayers state)))
    /\ option_map Store.queuedPlayers (Store.draftState replayed)
       = Some (Store.queuedPlayers ds)
    /\ map Store.p_id (Store.availablePlayers replayed)
       = map Store.p_id players.
Proof.
  intros now state ds players actions Hord replayed.
  destruct (replay_in_order now actions
              (Store.loadSnapshot now ds players state) ds eq_refl Hord)
    as (ds' & Hds' & Hcp & Hq & Hav).
  fold replayed in Hds', Hav. rewrite Hds'. cbn [option_map].
  rewrite Hcp, Hq, Hav. repeat split.
  intros finalDraft finalPlayers Hf. cbn. now rewrite Hf.
Qed.

Lemma replay_agrees_on_current_pick_witness :
  let replayed :=
    Store.replay "t"
      (Store.loadSnapshot "t" Sample.draft
         [Sample.player 3; Sample.player 7; Sample.player 9] Sample.state)
      [Store.ADD_DRAFT_PICK "A" (Sample.player 3) 1;
       Store.ADD_DRAFT_PICK "B" (Sample.player 9) 2] in
  option_map Store.currentPick (Store.draftState replayed)
  = Some (Store.currentPick Sample.draft
          + len [Store.ADD_DRAFT_PICK "A" (Sample.player 3) 1;
                 Store.ADD_DRAFT_PICK "B" (Sample.player 9) 2])
  /\ (forall (finalDraft : Store.DraftState) (finalPlayers : list Store.Player),
         Store.currentPick finalDraft
         = Store.currentPick Sample.draft
           + len [Store.ADD_DRAFT_PICK "A" (Sample.player 3) 1;
                  Store.ADD_DRAFT_PICK "B" (Sample.player 9) 2] ->
         option_map Store.currentPick (Store.draftState replayed)
         = option_map Store.currentPick
             (Store.draftState
                (Store.loadSnapshot "t" finalDraft finalPlayers Sample.state)))
  /\ option_map Store.queuedPlayers (Store.draftState replayed)
     = Some (Store.queuedPlayers Sample.draft)
  /\ map Store.p_id (Store.availablePlayers replayed)
     = map Store.p_id [Sample.player 3; Sample.player 7; Sample.player 9].
Proof.
  apply (replay_agrees_on_current_pick "t" Sample.state Sample.draft
           [Sample.player 3; Sample.player 7; Sample.player 9]
           [Store.ADD_DRAFT_PICK "A" (Sample.player 3) 1;
            Store.ADD_DRAFT_PICK "B" (Sample.player 9) 2]).
  cbn. auto.
Defined.

(** * Further properties of the modelled code *)

(** ** DraftGrid: numbering, status and display *)

Lemma seq_as_map (a n : nat) : map (fun i => (a + i)%nat) (seq 0 n) = seq a n.
Proof.
  revert a. induction n as [|n IH]; intros a; [reflexivity|].
  cbn [seq map]. rewrite Nat.add_0_r. f_equal.
  rewrite <- seq_shift, map_map, <- (IH (S a)). apply map_ext. intros i. lia.
Qed.

Lemma rev_map_seq {A : Type} (g : nat -> A) (n : nat) :
  rev (map g (seq 0 n)) = map (fun i => g (n - 1 - i)%nat) (seq 0 n).
Proof.
  induction n as [|n IH]; [reflexivity|].
  rewrite seq_S at 1. rewrite map_app, rev_app_distr. cbn [map rev app Nat.add].
  rewrite IH. cbn [seq map].
  replace (S n - 1 - 0)%nat with n by lia. f_equal.
  rewrite <- seq_shift, map_map. apply map_ext. intros i. f_equal. lia.
Qed.

Lemma linear_row (n R : nat) :
  Grid.roundPickNumbers false n (Z.of_nat (S R))
  = map Z.of_nat (seq (1 + n * R) n).
Proof.
  unfold Grid.roundPickNumbers, Grid.pickNumber. cbn [andb].
  rewrite <- (seq_as_map (1 + n * R) n), map_map.
  apply map_ext. intros i. nia.
Qed.

(** X1.  Without the snake flag the grid is numbered in reading order: its
    cells, row by row, are 1, 2, ..., teams * rounds.  With the flag the odd
    rows are those of the linear grid and the even rows are the linear rows
    reversed. *)
Theorem grid_rows_ascending_and_reversed :
  forall teamsLength totalRounds : nat,
    List.concat (Grid.gridPickNumbers false teamsLength totalRounds)
    = map Z.of_nat (seq 1 (teamsLength * totalRounds))
    /\ forall round : nat,
        Grid.roundPickNumbers true teamsLength (Z.of_nat round)
        = if Nat.even round
          then rev (Grid.roundPickNumbers false teamsLength (Z.of_nat round))
          else Grid.roundPickNumbers false teamsLength (Z.of_nat round).
Proof.
  intros n R. split.
  - unfold Grid.gridPickNumbers. induction R as [|R IH].
    + now rewrite Nat.mul_0_r.
    + rewrite seq_S, map_app, concat_app. cbn [map List.concat].
      rewrite app_nil_r, IH, linear_row.
      replace (n * S R)%nat with (n * R + n)%nat by lia.
      now rewrite seq_app, map_app.
  - intros round. unfold Grid.roundPickNumbers.
    rewrite rev_map_seq. unfold Grid.pickNumber. cbn [andb].
    rewrite rem2_even.
    replace (Z.even (Z.of_nat round)) with (Nat.even round).
    2:{ destruct (Nat.even round) eqn:E.
        - apply Nat.even_spec in E. destruct E as [k ->].
          rewrite Nat2Z.inj_mul. symmetry. apply Z.even_spec. now exists (Z.of_nat k).
        - symmetry. rewrite <- Z.negb_odd. apply negb_false_iff.
          rewrite <- Nat.negb_odd in E. apply negb_false_iff in E.
          apply Nat.odd_spec in E. destruct E as [k ->].
          apply Z.odd_spec. exists (Z.of_nat k). lia. }
    destruct (Nat.even round); [|reflexivity].
    apply map_ext_in. intros i Hi%in_seq. lia.
Qed.

Lemma filter_length_perm {A : Type} (f : A -> bool) (l l' : list A) :
  Permutation l l' -> List.length (filter f l) = List.length (filter f l').
Proof.
  induction 1 as [|x l l' _ IH|x y l|l l' l'' _ IH1 _ IH2]; cbn [filter].
  - reflexivity.
  - destruct (f x); cbn [List.length]; now rewrite IH.
  - destruct (f x), (f y); reflexivity.
  - now rewrite IH1.
Qed.

Lemma count_below (cp : Z) (N : nat) :
  Z.of_nat (List.length (filter (fun pn => pn <? cp) (map Z.of_nat (seq 1 N))))
  = Z.max 0 (Z.min (cp - 1) (Z.of_nat N)).
Proof.
  induction N as [|N IH]; [cbn; lia|].
  rewrite seq_S, map_app, filter_app, length_app, Nat2Z.inj_add, IH.
  cbn [map filter].
  destruct (Z.ltb_spec (Z.of_nat (1 + N)) cp); cbn [List.length]; lia.
Qed.

Lemma count_equal (cp : Z) (N : nat) :
  List.length (filter (fun pn => pn =? cp) (map Z.of_nat (seq 1 N)))
  = if (1 <=? cp) && (cp <=? Z.of_nat N) then 1%nat else 0%nat.
Proof.
  induction N as [|N IH].
  - cbn [seq map filter List.length].
    destruct (Z.leb_spec 1 cp), (Z.leb_spec cp (Z.of_nat 0));
      try reflexivity. lia.
  - rewrite seq_S, map_app, filter_app, length_app, IH.
    cbn [map filter].
    destruct (Z.eqb_spec (Z.of_nat (1 + N)) cp) as [E|E]; cbn [List.length];
      destruct (Z.leb_spec 1 cp), (Z.leb_spec cp (Z.of_nat N)),
               (Z.leb_spec cp (Z.of_nat (S N))); cbn [andb]; lia.
Qed.

Lemma getPickStatus_cases (cp pn : Z) :
  String.eqb (Grid.getPickStatus cp pn) "completed" = (pn <? cp)
  /\ String.eqb (Grid.getPickStatus cp pn) "current" = (pn =? cp)
  /\ String.eqb (Grid.getPickStatus cp pn) "upcoming" = (cp <? pn).
Proof.
  unfold Grid.getPickStatus.
  destruct (Z.ltb_spec pn cp), (Z.eqb_spec pn cp), (Z.ltb_spec cp pn);
    repeat split; try reflexivity; lia.
Qed.

(** X2.  While the draft runs ([1 <= currentPick <= teams * rounds]) the grid,
    snake or linear, marks exactly one cell as current, the
    [currentPick - 1] cells of the earlier picks as completed and all the
    others as upcoming. *)
Theorem grid_marks_one_current_cell :
  forall (isSnakeDraft : bool) (teamsLength totalRounds : nat) (currentPick : Z),
    1 <= currentPick <= Z.of_nat (teamsLength * totalRounds) ->
    let cells :=
      List.concat (Grid.gridPickNumbers isSnakeDraft teamsLength totalRounds) in
    let count (status : string) :=
      Z.of_nat (List.length
                  (filter (fun pn => String.eqb (Grid.getPickStatus currentPick pn)
                                                status) cells)) in
    count "current"%string = 1
    /\ count "completed"%string = currentPick - 1
    /\ count "upcoming"%string = Z.of_nat (teamsLength * totalRounds) - currentPick.
Proof.
  intros b n R cp Hcp cells count.
  pose proof (gridPickNumbers_perm b n R) as Hperm. fold cells in Hperm.
  assert (Hlen : List.length cells = (n * R)%nat).
  { rewrite (Permutation_length Hperm), length_map. apply length_seq. }
  assert (Hcur : count "current"%string = 1).
  { unfold count.
    rewrite (filter_ext _ (fun pn => pn =? cp))
      by (intros pn; apply (getPickStatus_cases cp pn)).
    rewrite (filter_length_perm _ _ _ Hperm), count_equal.
    destruct (Z.leb_spec 1 cp), (Z.leb_spec cp (Z.of_nat (n * R)));
      cbn [andb]; lia. }
  assert (Hdone : count "completed"%string = cp - 1).
  { unfold count.
    rewrite (filter_ext _ (fun pn => pn <? cp))
      by (intros pn; apply (getPickStatus_cases cp pn)).
    rewrite (filter_length_perm _ _ _ Hperm), count_below. lia. }
  split; [exact Hcur|]. split; [exact Hdone|].
  assert (Hsum : count "completed"%string + count "current"%string
                 + count "upcoming"%string = Z.of_nat (List.length cells)).
  { unfold count. clear. induction cells as [|pn cells IH]; [reflexivity|].
    cbn [filter List.length].
    destruct (getPickStatus_cases cp pn) as (-> & -> & ->).
    destruct (Z.ltb_spec pn cp), (Z.eqb_spec pn cp), (Z.ltb_spec cp pn);
      cbn [List.length]; lia. }
  rewrite Hlen in Hsum. lia.
Qed.

Lemma grid_marks_one_current_cell_witness :
  let cells := List.concat (Grid.gridPickNumbers true 3 4) in
  let count (status : string) :=
    Z.of_nat (List.length
                (filter (fun pn => String.eqb (Grid.getPickStatus 5 pn) status)
                        cells)) in
  count "current"%string = 1
  /\ count "completed"%string = 5 - 1
  /\ count "upcoming"%string = Z.of_nat (3 * 4) - 5.
Proof.
  apply (grid_marks_one_current_cell true 3 4 5). cbn. lia.
Defined.

Lemma find_unique {A : Type} (f : A -> Z) (l : list A) (p : A) :
  NoDup (map f l) -> In p l -> find (fun q => f q =? f p) l = Some p.
Proof.
  induction l as [|a l IH]; intros Hnd Hin; [contradiction|].
  cbn [map] in Hnd. inversion Hnd as [|? ? Hnotin Hnd']; subst.
  cbn [find]. destruct (Z.eqb_spec (f a) (f p)) as [E|E].
  - destruct Hin as [-> | Hin]; [reflexivity|].
    exfalso. apply Hnotin. rewrite E. now apply in_map.
  - destruct Hin as [-> | Hin]; [contradiction|]. now apply IH.
Qed.

(** Where a snake cell is: the pick [pn] sits in round [(pn-1)/n + 1], in
    the column of the team that makes it. *)
Lemma snake_cell_of_pick (n R : nat) (pn : Z) :
  1 <= pn <= Z.of_nat (n * R) ->
  exists round column : nat,
    (1 <= round <= R)%nat /\ (column < n)%nat
    /\ Grid.pickNumber true (Z.of_nat n) (Z.of_nat round) (Z.of_nat column) = pn
    /\ getDraftOrder pn (Z.of_nat n) = Num (Z.of_nat column).
Proof.
  intros Hpn.
  assert (Hn : 0 < Z.of_nat n) by nia.
  destruct (pick_cell (Z.of_nat n) pn Hn ltac:(lia)) as (Hr & Hc & Hpe).
  set (r := (pn - 1) / Z.of_nat n + 1) in *.
  set (c := (pn - 1) mod Z.of_nat n) in *.
  assert (HrR : r <= Z.of_nat R) by nia.
  exists (Z.to_nat r),
         (Z.to_nat (if Z.even r then Z.of_nat n - 1 - c else c)).
  assert (Hcol : 0 <= (if Z.even r then Z.of_nat n - 1 - c else c) < Z.of_nat n)
    by (destruct (Z.even r); lia).
  split; [lia|]. split; [lia|].
  rewrite !Z2Nat.id by lia. split.
  - unfold Grid.pickNumber. cbn [andb]. rewrite rem2_even.
    destruct (Z.even r); lia.
  - rewrite Hpe at 1. now apply getDraftOrder_cell.
Qed.

(** X3.  When the picks carry distinct pick numbers, the snake grid shows every
    pick numbered [1 .. teams * rounds] in the column of the team the turn
    resolver names for it; and whatever pick a cell shows is one of [picks]
    and carries the number of that cell. *)
Theorem grid_shows_each_pick_in_its_cell :
  forall (Pick : Type) (pick_number : Pick -> Z) (picks : list Pick)
         (teamsLength totalRounds : nat),
    NoDup (map pick_number picks) ->
    let grid := Grid.gridData pick_number picks true teamsLength totalRounds in
    (forall p : Pick,
        In p picks ->
        1 <= pick_number p <= Z.of_nat (teamsLength * totalRounds) ->
        exists (round column : nat) (row : list (option Pick)),
          (1 <= round <= totalRounds)%nat /\ (column < teamsLength)%nat
          /\ nth_error grid (round - 1) = Some row
          /\ nth_error row column = Some (Some p)
          /\ getDraftOrder (pick_number p) (Z.of_nat teamsLength)
             = Num (Z.of_nat column))
    /\ (forall (round column : nat) (row : list (option Pick)) (q : Pick),
           (1 <= round <= totalRounds)%nat -> (column < teamsLength)%nat ->
           nth_error grid (round - 1) = Some row ->
           nth_error row column = Some (Some q) ->
           In q picks
           /\ pick_number q
              = Grid.pickNumber true (Z.of_nat teamsLength) (Z.of_nat round)
                                (Z.of_nat column)).
Proof.
  intros Pick pick_number picks n R Hnd grid. subst grid.
  unfold Grid.gridData. split.
  - intros p Hin Hpn.
    destruct (snake_cell_of_pick n R (pick_number p) Hpn)
      as (round & column & Hr & Hc & Hnum & Hteam).
    destruct (gridPickNumbers_cell true n R round column Hr Hc)
      as (row0 & Hrow0 & Hcell).
    exists round, column. eexists.
    split; [exact Hr|]. split; [exact Hc|].
    rewrite nth_error_map, Hrow0. cbn [option_map].
    split; [reflexivity|].
    rewrite nth_error_map, Hcell, Hnum. cbn [option_map].
    split; [|exact Hteam]. f_equal.
    apply find_unique; [|now apply in_rev in Hin].
    rewrite map_rev. now apply NoDup_rev.
  - intros round column row q Hr Hc Hrow Hq.
    destruct (gridPickNumbers_cell true n R round column Hr Hc)
      as (row0 & Hrow0 & Hcell).
    rewrite nth_error_map, Hrow0 in Hrow. cbn [option_map] in Hrow.
    injection Hrow as <-.
    rewrite nth_error_map, Hcell in Hq. cbn [option_map] in Hq.
    injection Hq as Hq. apply find_some in Hq. destruct Hq as (Hin & Heq).
    split; [now apply in_rev|]. now apply Z.eqb_eq.
Qed.

Lemma grid_shows_each_pick_in_its_cell_witness :
  exists (round column : nat) (row : list (option Z)),
    (1 <= round <= 2)%nat /\ (column < 3)%nat
    /\ nth_error (Grid.gridData (fun p : Z => p) [1; 2; 3; 4] true 3 2)
                 (round - 1) = Some row
    /\ nth_error row column = Some (Some 4)
    /\ getDraftOrder 4 (Z.of_nat 3) = Num (Z.of_nat column).
Proof.
  apply (proj1 (grid_shows_each_pick_in_its_cell Z (fun p : Z => p)
                  [1; 2; 3; 4] 3 2
                  ltac:(repeat constructor; cbn; intuition discriminate)) 4).
  - cbn. auto.
  - cbn. lia.
Defined.

(** The number the render loop prints in a cell is the number [gridData]
    looked the cell's pick up under. *)
Lemma renderPickNumber_agrees (isSnakeDraft : bool) (n round teamIndex : Z) :
  Grid.renderPickNumber isSnakeDraft n (round - 1) teamIndex
  = Grid.pickNumber isSnakeDraft n round teamIndex.
Proof.
  unfold Grid.renderPickNumber, Grid.pickNumber.
  now replace (round - 1 + 1) with round by lia.
Qed.

(** ** store.ts: selectors *)

Lemma isPlayerAvailable_member (p : Store.Player) (l : list Store.Player) :
  In p l -> Store.isPlayerAvailable p l = true.
Proof.
  intros Hin. unfold Store.isPlayerAvailable. apply existsb_exists.
  exists p. split; [exact Hin | apply Z.eqb_refl].
Qed.

Lemma filter_members {A : Type} (f g : A -> bool) (l : list A) :
  (forall x, In x l -> f x = g x) -> filter f l = filter g l.
Proof. apply filter_ext_in. Qed.

Lemma filter_all {A : Type} (l : list A) : filter (fun _ => true) l = l.
Proof. induction l as [|a l IH]; cbn; now rewrite ?IH. Qed.

Lemma filter_none {A : Type} (l : list A) : filter (fun _ => false) l = [].
Proof. induction l as [|a l IH]; cbn; now rewrite ?IH. Qed.

(** X4.  The availability test of the selectors looks a player of
    [availablePlayers] up in [availablePlayers] itself, so it never fails:
    [getDraftedPlayers] is always empty, [getAvailablePlayers] is the whole
    list and [getPlayersByPosition] filters by position alone, in every
    state, also after picks have been applied. *)
Theorem drafted_players_selector_is_empty :
  forall (state : Store.AppState),
    Store.getDraftedPlayers state = []
    /\ Store.getAvailablePlayers state = Store.availablePlayers state
    /\ (forall position : string,
           Store.getPlayersByPosition state position
           = filter (fun p => String.eqb (Store.p_position p) position)
                    (Store.availablePlayers state))
    /\ (forall (now teamId : string) (player : Store.Player) (pick : Z),
           Store.getDraftedPlayers
             (Store.appReducer now state (Store.ADD_DRAFT_PICK teamId player pick))
           = []).
Proof.
  assert (Hnone : forall s, Store.getDraftedPlayers s = []).
  { intros s. unfold Store.getDraftedPlayers.
    rewrite (filter_members _ (fun _ => false)); [apply filter_none|].
    intros p Hp. now rewrite isPlayerAvailable_member. }
  intros state. split; [apply Hnone|]. split; [|split].
  - unfold Store.getAvailablePlayers.
    rewrite (filter_members _ (fun _ => true)); [apply filter_all|].
    intros p Hp. now apply isPlayerAvailable_member.
  - intros position. unfold Store.getPlayersByPosition.
    apply filter_members. intros p Hp.
    rewrite isPlayerAvailable_member by exact Hp. apply andb_true_r.
  - intros. apply Hnone.
Qed.

(** X5.  With at least one team in the league and [currentPick >= 1],
    [getCurrentDraftTeam] always finds a team: the one at the snake index
    of the pick, a member of the league. *)
Theorem current_draft_team_is_in_league :
  forall (state : Store.AppState) (ds : Store.DraftState) (l : Store.League),
    Store.draftState state = Some ds ->
    Store.currentLeague state = Some l ->
    Store.l_teams l <> [] ->
    1 <= Store.currentPick ds ->
    exists (team : Store.Team) (index : nat),
      Store.getCurrentDraftTeam state = Some team
      /\ nth_error (Store.l_teams l) index = Some team
      /\ In team (Store.l_teams l)
      /\ getDraftOrder (Store.currentPick ds) (len (Store.l_teams l))
         = Num (Z.of_nat index).
Proof.
  intros state ds l Hds Hl Hne Hp.
  unfold Store.getCurrentDraftTeam. rewrite Hds, Hl.
  set (n := len (Store.l_teams l)).
  assert (Hn : 0 < n).
  { unfold n, len. destruct (Store.l_teams l); [contradiction | cbn; lia]. }
  destruct (pick_cell n (Store.currentPick ds) Hn Hp) as (Hr & Hc & Hpe).
  set (r := (Store.currentPick ds - 1) / n + 1) in *.
  set (c := (Store.currentPick ds - 1) mod n) in *.
  rewrite Hpe.
  rewrite getCurrentDraftTeamIndex_cell, getDraftOrder_cell by assumption.
  set (i := if Z.even r then n - 1 - c else c).
  assert (Hi : 0 <= i < n) by (unfold i; destruct (Z.even r); lia).
  unfold js_index. destruct (Z.ltb_spec i 0); [lia|].
  destruct (nth_error (Store.l_teams l) (Z.to_nat i)) as [team|] eqn:E.
  - exists team, (Z.to_nat i). rewrite Z2Nat.id by lia.
    repeat split; try assumption. eapply nth_error_In; eassumption.
  - apply nth_error_None in E. unfold n, len in Hi. lia.
Qed.

Lemma current_draft_team_is_in_league_witness :
  exists (team : Store.Team) (index : nat),
    Store.getCurrentDraftTeam Sample.state = Some team
    /\ nth_error (Store.l_teams Sample.league) index = Some team
    /\ In team (Store.l_teams Sample.league)
    /\ getDraftOrder (Store.currentPick Sample.draft)
                     (len (Store.l_teams Sample.league))
       = Num (Z.of_nat index).
Proof.
  apply (current_draft_team_is_in_league Sample.state Sample.draft Sample.league).
  - reflexivity.
  - reflexivity.
  - discriminate.
  - cbn. lia.
Defined.

Lemma team_roster_ids (players : list Store.Player) (ids : list Z) :
  map Store.p_id
      (Store.defined
         (map (fun playerId => find (fun p => Store.p_id p =? playerId) players) ids))
  = filter (fun id => existsb (fun p => Store.p_id p =? id) players) ids.
Proof.
  induction ids as [|id ids IH]; [reflexivity|].
  cbn [map filter].
  destruct (find (fun p => Store.p_id p =? id) players) as [p|] eqn:E.
  - pose proof (find_some _ _ E) as (Hin & Hid).
    assert (Hex : existsb (fun p => Store.p_id p =? id) players = true)
      by (apply existsb_exists; eauto).
    rewrite Hex. cbn [Store.defined map]. rewrite IH.
    apply Z.eqb_eq in Hid. now rewrite Hid.
  - assert (Hex : existsb (fun p => Store.p_id p =? id) players = false).
    { apply not_true_is_false. intros (p & Hin & Hid)%existsb_exists.
      pose proof (find_none _ _ E p Hin) as Hn. cbv beta in Hn. congruence. }
    rewrite Hex. cbn [Store.defined]. exact IH.
Qed.

Lemma defined_map_find_members (players : list Store.Player) (ids : list Z)
    (p : Store.Player) :
  In p (Store.defined
          (map (fun playerId => find (fun q => Store.p_id q =? playerId) players) ids)) ->
  In p players /\ In (Store.p_id p) ids.
Proof.
  induction ids as [|id ids IH]; [contradiction|].
  cbn [map]. destruct (find _ players) as [q|] eqn:E; cbn [Store.defined In].
  - intros [-> | H].
    + pose proof (find_some _ _ E) as (Hin & Hid). apply Z.eqb_eq in Hid. auto.
    + destruct (IH H). auto.
  - intros H. destruct (IH H). auto.
Qed.

(** X6.  [getTeamRoster] returns nothing for a team that is not in the league;
    for a team of the league it returns, in the order of the starters,
    the players of [availablePlayers] whose ids the starters name, and
    silently skips the starters that are not in [availablePlayers]. *)
Theorem team_roster_follows_starters :
  forall (state : Store.AppState) (l : Store.League) (teamId : string),
    Store.currentLeague state = Some l ->
    match find (fun t => String.eqb (Store.t_id t) teamId) (Store.l_teams l) with
    | None => Store.getTeamRoster state teamId = []
    | Some team =>
        map Store.p_id (Store.getTeamRoster state teamId)
        = filter (fun id => existsb (fun p => Store.p_id p =? id)
                                    (Store.availablePlayers state))
                 (Store.starters (Store.t_roster team))
        /\ forall p, In p (Store.getTeamRoster state teamId) ->
                     In p (Store.availablePlayers state)
                     /\ In (Store.p_id p) (Store.starters (Store.t_roster team))
    end.
Proof.
  intros state l teamId Hl. unfold Store.getTeamRoster. rewrite Hl.
  destruct (find _ (Store.l_teams l)) as [team|]; [|reflexivity].
  split; [apply team_roster_ids|]. intros p. apply defined_map_find_members.
Qed.

Lemma team_roster_follows_starters_witness :
  match find (fun t => String.eqb (Store.t_id t) "Z")
             (Store.l_teams Sample.league) with
  | None => Store.getTeamRoster Sample.state "Z" = []
  | Some team =>
      map Store.p_id (Store.getTeamRoster Sample.state "Z")
      = filter (fun id => existsb (fun p => Store.p_id p =? id)
                                  (Store.availablePlayers Sample.state))
               (Store.starters (Store.t_roster team))
      /\ forall p, In p (Store.getTeamRoster Sample.state "Z") ->
                   In p (Store.availablePlayers Sample.state)
                   /\ In (Store.p_id p) (Store.starters (Store.t_roster team))
  end.
Proof.
  apply (team_roster_follows_starters Sample.state Sample.league "Z").
  reflexivity.
Defined.

Lemma find_map_same_test {A : Type} (test : A -> bool) (g : A -> A) (l : list A) :
  (forall x, test (g x) = test x) ->
  find test (map g l) = option_map g (find test l).
Proof.
  intros Hg. induction l as [|a l IH]; [reflexivity|].
  cbn [map find]. rewrite Hg. destruct (test a); [reflexivity | exact IH].
Qed.

Lemma existsb_map {A B : Type} (f : B -> bool) (g : A -> B) (l : list A) :
  existsb f (map g l) = existsb (fun x => f (g x)) l.
Proof. induction l as [|a l IH]; cbn; now rewrite ?IH. Qed.

Lemma existsb_same {A : Type} (f g : A -> bool) (l : list A) :
  (forall x, f x = g x) -> existsb f l = existsb g l.
Proof. intros H. induction l as [|a l IH]; cbn; now rewrite ?H, ?IH. Qed.

(** X7.  A pick shows up through the roster selector: after ADD_DRAFT_PICK for a
    team of the league and a player of [availablePlayers], [getTeamRoster]
    of that team is its former roster followed by the drafted player.
    (The player has to stay in [availablePlayers] for this lookup to find
    it.) *)
Theorem team_roster_grows_with_pick :
  forall (now : string) (state : Store.AppState) (l : Store.League)
         (team : Store.Team) (teamId : string) (player : Store.Player) (pick : Z),
    Store.currentLeague state = Some l ->
    find (fun t => String.eqb (Store.t_id t) teamId) (Store.l_teams l) = Some team ->
    In (Store.p_id player) (map Store.p_id (Store.availablePlayers state)) ->
    map Store.p_id
        (Store.getTeamRoster
           (Store.appReducer now state (Store.ADD_DRAFT_PICK teamId player pick))
           teamId)
    = map Store.p_id (Store.getTeamRoster state teamId) ++ [Store.p_id player].
Proof.
  intros now state l team teamId player pick Hl Hteam Hin.
  pose proof (find_some _ _ Hteam) as (_ & Hid).
  unfold Store.getTeamRoster at 2. rewrite Hl, Hteam, team_roster_ids.
  unfold Store.getTeamRoster.
  cbn [Store.appReducer Store.currentLeague Store.availablePlayers].
  rewrite Hl. cbn [Store.with_teams Store.l_teams].
  rewrite find_map_same_test, Hteam.
  2:{ intros t. destruct (String.eqb (Store.t_id t) teamId) eqn:E;
        cbn [Store.push_starter Store.with_roster Store.t_id];
        rewrite ?E; reflexivity. }
  cbn [option_map]. rewrite Hid, team_roster_ids.
  cbn [Store.push_starter Store.with_roster Store.t_roster Store.starters].
  rewrite filter_app. cbn [filter].
  assert (Hsame : forall id,
             existsb (fun p => Store.p_id p =? id)
               (map (fun p => if Store.p_id p =? Store.p_id player
                              then {| Store.p_id := Store.p_id p;
                                      Store.p_web_name := Store.p_web_name p;
                                      Store.p_position := Store.p_position p;
                                      Store.p_total_points := Store.p_total_points p;
                                      Store.p_selected_by_percent :=
                                        Store.p_selected_by_percent p + 1 |}
                              else p) (Store.availablePlayers state))
             = existsb (fun p => Store.p_id p =? id) (Store.availablePlayers state)).
  { intros id. rewrite existsb_map. apply existsb_same. intros p.
    destruct (Store.p_id p =? Store.p_id player); reflexivity. }
  rewrite (filter_ext _ _ Hsame), Hsame.
  assert (Hex : existsb (fun p => Store.p_id p =? Store.p_id player)
                        (Store.availablePlayers state) = true).
  { apply in_map_iff in Hin. destruct Hin as (p & Hp & Hinp).
    apply existsb_exists. exists p. split; [exact Hinp | now apply Z.eqb_eq]. }
  now rewrite Hex.
Qed.

Lemma team_roster_grows_with_pick_witness :
  map Store.p_id
      (Store.getTeamRoster
         (Store.appReducer "t" Sample.state
            (Store.ADD_DRAFT_PICK "B" (Sample.player 3) 1)) "B")
  = map Store.p_id (Store.getTeamRoster Sample.state "B")
    ++ [Store.p_id (Sample.player 3)].
Proof.
  apply (team_roster_grows_with_pick "t" Sample.state Sample.league
           (Sample.team "B") "B" (Sample.player 3) 1).
  - reflexivity.
  - reflexivity.
  - cbn. auto.
Defined.

(** ** store.ts: the other cases of the reducer *)

Lemma update_player_list (payload : Store.Player) (l : list Store.Player) :
  let upd := map (fun player => if Store.p_id player =? Store.p_id payload
                                then payload else player) in
  map Store.p_id (upd l) = map Store.p_id l
  /\ upd (upd l) = upd l
  /\ (forall p, In p (upd l) -> Store.p_id p = Store.p_id payload -> p = payload)
  /\ (forall p, In p (upd l) -> Store.p_id p <> Store.p_id payload -> In p l)
  /\ (~ In (Store.p_id payload) (map Store.p_id l) -> upd l = l).
Proof.
  intros upd. subst upd. cbv beta. repeat split.
  - rewrite map_map. apply map_ext. intros p.
    destruct (Z.eqb_spec (Store.p_id p) (Store.p_id payload)); congruence.
  - rewrite map_map. apply map_ext. intros p.
    destruct (Z.eqb_spec (Store.p_id p) (Store.p_id payload)) as [E|E].
    + now rewrite Z.eqb_refl.
    + now apply Z.eqb_neq in E as ->.
  - intros p (q & Hq & _)%in_map_iff Hid.
    destruct (Z.eqb_spec (Store.p_id q) (Store.p_id payload)); congruence.
  - intros p (q & Hq & Hin)%in_map_iff Hid.
    destruct (Z.eqb_spec (Store.p_id q) (Store.p_id payload)); congruence.
  - intros Hnot. rewrite <- (map_id l) at 2. apply map_ext_in. intros p Hp.
    destruct (Z.eqb_spec (Store.p_id p) (Store.p_id payload)) as [E|E];
      [|reflexivity].
    exfalso. apply Hnot. rewrite <- E. now apply in_map.
Qed.

Lemma AppState_eta (state : Store.AppState) :
  {| Store.user := Store.user state;
     Store.currentLeague := Store.currentLeague state;
     Store.userTeam := Store.userTeam state;
     Store.draftState := Store.draftState state;
     Store.availablePlayers := Store.availablePlayers state;
     Store.notifications := Store.notifications state;
     Store.loading := Store.loading state;
     Store.error := Store.error state |} = state.
Proof. destruct state; reflexivity. Qed.

(** X8.  UPDATE_PLAYER replaces, in place, every player that has the id of the
    payload by the payload: ids and order of [availablePlayers] are kept,
    the players with another id are untouched, dispatching the same update
    twice is the same as once, and an update for an id that is not in the
    list changes nothing (the player is not added). *)
Theorem update_player_replaces_in_place :
  forall (now : string) (state : Store.AppState) (payload : Store.Player),
    let state' := Store.appReducer now state (Store.UPDATE_PLAYER payload) in
    map Store.p_id (Store.availablePlayers state')
    = map Store.p_id (Store.availablePlayers state)
    /\ (forall p, In p (Store.availablePlayers state') ->
                  if Store.p_id p =? Store.p_id payload
                  then p = payload
                  else In p (Store.availablePlayers state))
    /\ Store.appReducer now state' (Store.UPDATE_PLAYER payload) = state'
    /\ (if existsb (fun p => Store.p_id p =? Store.p_id payload)
                   (Store.availablePlayers state)
        then In payload (Store.availablePlayers state')
        else state' = state).
Proof.
  intros now state payload state'. subst state'.
  destruct (update_player_list payload (Store.availablePlayers state))
    as (Hids & Hidem & Hsame & Hother & Hnone).
  cbn [Store.appReducer Store.availablePlayers Store.user Store.currentLeague
       Store.userTeam Store.draftState Store.notifications Store.loading
       Store.error].
  split; [exact Hids|]. split; [|split].
  - intros p Hp.
    destruct (Z.eqb_spec (Store.p_id p) (Store.p_id payload)); auto.
  - now rewrite Hidem.
  - destruct (existsb _ (Store.availablePlayers state)) eqn:E.
    + apply existsb_exists in E. destruct E as (p & Hp & Hid).
      apply in_map_iff. exists p. now rewrite Hid.
    + rewrite Hnone; [apply AppState_eta|].
      intros (p & Hid & Hp)%in_map_iff.
      assert (existsb (fun p => Store.p_id p =? Store.p_id payload)
                      (Store.availablePlayers state) = true)
        by (apply existsb_exists; exists p; split; [exact Hp | now apply Z.eqb_eq]).
      congruence.
Qed.

(** X9.  UPDATE_TEAM_ROSTER overwrites the whole roster of the team: its
    starters become the ids of the given players and its bench and injured
    reserve are emptied, in the league and in [userTeam] when that is the
    team; the other teams, the ids and the order of the teams stay. *)
Theorem update_team_roster_empties_bench :
  forall (now : string) (state : Store.AppState) (l : Store.League)
         (teamId : string) (roster : list Store.Player),
    Store.currentLeague state = Some l ->
    let state' := Store.appReducer now state
                    (Store.UPDATE_TEAM_ROSTER teamId roster) in
    let newRoster := {| Store.starters := map Store.p_id roster;
                        Store.bench := [];
                        Store.injured_reserve := [] |} in
    exists l',
      Store.currentLeague state' = Some l'
      /\ map Store.t_id (Store.l_teams l') = map Store.t_id (Store.l_teams l)
      /\ (forall t', In t' (Store.l_teams l') ->
                     if String.eqb (Store.t_id t') teamId
                     then Store.t_roster t' = newRoster
                     else In t' (Store.l_teams l))
      /\ match Store.userTeam state with
         | Some t =>
             if String.eqb (Store.t_id t) teamId
             then option_map Store.t_roster (Store.userTeam state') = Some newRoster
             else Store.userTeam state' = Some t
         | None => Store.userTeam state' = None
         end.
Proof.
  intros now state l teamId roster Hl state' newRoster. subst state'.
  cbn [Store.appReducer Store.currentLeague Store.userTeam].
  rewrite Hl. eexists. split; [reflexivity|].
  cbn [Store.with_teams Store.l_teams]. split; [|split].
  - rewrite map_map. apply map_ext. intros t.
    destruct (String.eqb (Store.t_id t) teamId); reflexivity.
  - intros t' (t & Ht & Hin)%in_map_iff.
    destruct (String.eqb (Store.t_id t) teamId) eqn:E; subst t'.
    + cbn [Store.replace_roster Store.with_roster Store.t_id Store.t_roster].
      now rewrite E.
    + now rewrite E.
  - unfold Store.userTeam_is.
    destruct (Store.userTeam state) as [t|]; [|reflexivity].
    destruct (String.eqb (Store.t_id t) teamId); reflexivity.
Qed.

Lemma update_team_roster_empties_bench_witness :
  let state' := Store.appReducer "t" Sample.state
                  (Store.UPDATE_TEAM_ROSTER "A" [Sample.player 7]) in
  let newRoster := {| Store.starters := map Store.p_id [Sample.player 7];
                      Store.bench := [];
                      Store.injured_reserve := [] |} in
  exists l',
    Store.currentLeague state' = Some l'
    /\ map Store.t_id (Store.l_teams l') = map Store.t_id (Store.l_teams Sample.league)
    /\ (forall t', In t' (Store.l_teams l') ->
                   if String.eqb (Store.t_id t') "A"
                   then Store.t_roster t' = newRoster
                   else In t' (Store.l_teams Sample.league))
    /\ match Store.userTeam Sample.state with
       | Some t =>
           if String.eqb (Store.t_id t) "A"
           then option_map Store.t_roster (Store.userTeam state') = Some newRoster
           else Store.userTeam state' = Some t
       | None => Store.userTeam state' = None
       end.
Proof.
  apply (update_team_roster_empties_bench "t" Sample.state Sample.league "A"
           [Sample.player 7]).
  reflexivity.
Defined.

Lemma mapi_from_length {A B : Type} (f : A -> nat -> B) (l : list A) (i : nat) :
  List.length (mapi_from i f l) = List.length l.
Proof.
  revert i. induction l as [|a l IH]; intros i; [reflexivity|].
  cbn [mapi_from List.length]. now rewrite IH.
Qed.

(** Appending [rec] to the row of index [t], as the reducer does. *)
Lemma append_to_row {A : Type} (rec : A) (t : Z) (board : list (list A)) :
  forall i : nat,
    let f := fun (row : list A) (idx : nat) =>
               if Z.of_nat idx =? t then row ++ [rec] else row in
    Z.of_nat (List.length (List.concat (mapi_from i f board)))
    = Z.of_nat (List.length (List.concat board))
      + (if (Z.of_nat i <=? t) && (t <? Z.of_nat i + len board) then 1 else 0)
    /\ forall x, In x (List.concat (mapi_from i f board)) ->
                 In x (List.concat board) \/ x = rec.
Proof.
  induction board as [|row board IH]; intros i f.
  - cbn [mapi_from List.concat List.length]. unfold len. cbn [List.length].
    split; [|auto].
    destruct (Z.leb_spec (Z.of_nat i) t), (Z.ltb_spec t (Z.of_nat i + Z.of_nat 0));
      cbn [andb]; lia.
  - destruct (IH (S i)) as (Hlen & Hin). fold f in Hlen, Hin.
    cbn [mapi_from List.concat]. split.
    + rewrite !length_app, !Nat2Z.inj_add, Hlen. unfold f at 1, len.
      cbn [List.length].
      destruct (Z.eqb_spec (Z.of_nat i) t);
        rewrite ?length_app; cbn [List.length];
        destruct (Z.leb_spec (Z.of_nat i) t),
                 (Z.leb_spec (Z.of_nat (S i)) t),
                 (Z.ltb_spec t (Z.of_nat (S i) + Z.of_nat (List.length board))),
                 (Z.ltb_spec t (Z.of_nat i + Z.of_nat (S (List.length board))));
        cbn [andb]; lia.
    + intros x. rewrite !in_app_iff. unfold f at 1.
      destruct (Z.of_nat i =? t).
      * rewrite in_app_iff. cbn [In]. intros [[H | [H | []]] | H]; auto.
        destruct (Hin x H); auto.
      * intros [H | H]; auto. destruct (Hin x H); auto.
Qed.

(** X10.  What ADD_DRAFT_PICK writes on the draft board, for [pick >= 1] and
    [n] teams (1 if the league is missing or empty): the number of rows
    never changes; the pick is recorded only if the board has a row for
    its round, the ceiling of [pick / n], and is dropped otherwise, though
    [currentPick] advances all the same; the recorded pick carries a round
    and a position in the round that give back the pick number. *)
Theorem add_draft_pick_board_record :
  forall (now : string) (state : Store.AppState) (ds : Store.DraftState)
         (teamId : string) (player : Store.Player) (pick : Z),
    Store.draftState state = Some ds ->
    1 <= pick ->
    let n := Store.teamCount_or_1 state in
    let round := ceil_div pick n in
    exists ds',
      Store.draftState
        (Store.appReducer now state (Store.ADD_DRAFT_PICK teamId player pick))
      = Some ds'
      /\ Store.currentPick ds' = pick + 1
      /\ List.length (Store.draftBoard ds') = List.length (Store.draftBoard ds)
      /\ Z.of_nat (List.length (List.concat (Store.draftBoard ds')))
         = Z.of_nat (List.length (List.concat (Store.draftBoard ds)))
           + (if round <=? len (Store.draftBoard ds) then 1 else 0)
      /\ forall rec,
          In rec (List.concat (Store.draftBoard ds')) ->
          In rec (List.concat (Store.draftBoard ds))
          \/ (Store.dp_pick_number rec = pick
              /\ Store.dp_player_id rec = Store.p_id player
              /\ Store.dp_team_id rec = teamId
              /\ Store.dp_round rec = round
              /\ exists k, Store.dp_pick_in_round rec = Some k
                           /\ 1 <= k <= n
                           /\ (round - 1) * n + k = pick).
Proof.
  intros now state ds teamId player pick Hds Hpick n round.
  assert (Hn : 0 < n).
  { unfold n, Store.teamCount_or_1.
    destruct (Store.currentLeague state) as [l|]; [|lia].
    destruct (Z.eqb_spec (len (Store.l_teams l)) 0); unfold len in *; lia. }
  destruct (pick_cell n pick Hn Hpick) as (Hr & Hc & Hpe).
  set (r := (pick - 1) / n + 1) in *. set (c := (pick - 1) mod n) in *.
  assert (Hround : round = r).
  { unfold round. rewrite Hpe at 1. now apply ceil_div_cell. }
  assert (Hrem : Z.rem (pick - 1) n = c).
  { replace (pick - 1) with ((r - 1) * n + c) by lia. now apply rem_cell. }
  cbn [Store.appReducer Store.draftState]. rewrite Hds.
  eexists. split; [reflexivity|].
  cbn [Store.currentPick Store.draftBoard]. split; [reflexivity|].
  unfold mapi. split; [apply mapi_from_length|].
  fold n. fold round.
  match goal with
  | |- context [mapi_from 0 (fun row idx => if _ then row ++ [?rec] else row) _] =>
      destruct (append_to_row rec (round - 1) (Store.draftBoard ds) 0%nat)
        as (Hlen & Hin)
  end.
  split.
  - rewrite Hlen. cbn [Z.of_nat].
    destruct (Z.leb_spec 0 (round - 1)),
             (Z.ltb_spec (round - 1) (0 + len (Store.draftBoard ds))),
             (Z.leb_spec round (len (Store.draftBoard ds)));
      cbn [andb]; lia.
  - intros rec' Hrec. destruct (Hin rec' Hrec) as [H | ->]; [now left|].
    right. cbn [Store.dp_pick_number Store.dp_player_id Store.dp_team_id
                Store.dp_round Store.dp_pick_in_round].
    repeat split; try lia.
    exists (Z.rem (pick - 1) n + 1). rewrite Hrem, Hround. repeat split; lia.
Qed.

Lemma add_draft_pick_board_record_witness :
  exists ds',
    Store.draftState
      (Store.appReducer "t" Sample.state
         (Store.ADD_DRAFT_PICK "A" (Sample.player 9) 5))
    = Some ds'
    /\ Store.currentPick ds' = 5 + 1
    /\ List.length (Store.draftBoard ds') = List.length (Store.draftBoard Sample.draft)
    /\ Z.of_nat (List.length (List.concat (Store.draftBoard ds')))
       = Z.of_nat (List.length (List.concat (Store.draftBoard Sample.draft)))
         + (if ceil_div 5 (Store.teamCount_or_1 Sample.state)
               <=? len (Store.draftBoard Sample.draft) then 1 else 0)
    /\ forall rec,
        In rec (List.concat (Store.draftBoard ds')) ->
        In rec (List.concat (Store.draftBoard Sample.draft))
        \/ (Store.dp_pick_number rec = 5
            /\ Store.dp_player_id rec = Store.p_id (Sample.player 9)
            /\ Store.dp_team_id rec = "A"%string
            /\ Store.dp_round rec = ceil_div 5 (Store.teamCount_or_1 Sample.state)
            /\ exists k, Store.dp_pick_in_round rec = Some k
                         /\ 1 <= k <= Store.teamCount_or_1 Sample.state
                         /\ (ceil_div 5 (Store.teamCount_or_1 Sample.state) - 1)
                            * Store.teamCount_or_1 Sample.state + k = 5).
Proof.
  apply (add_draft_pick_board_record "t" Sample.state Sample.draft "A"
           (Sample.player 9) 5).
  - reflexivity.
  - lia.
Defined.

(** ** The personal queues: no duplicates, head first *)

Lemma NoDup_snoc {A : Type} (l : list A) (x : A) :
  NoDup l -> ~ In x l -> NoDup (l ++ [x]).
Proof.
  induction l as [|a l IH]; intros Hnd Hx.
  - constructor; [intros [] | constructor].
  - inversion Hnd as [|? ? Ha Hl]; subst. cbn [app]. constructor.
    + rewrite in_app_iff. cbn [In]. intros [H | [H | []]]; [auto|].
      apply Hx. left. now symmetry.
    + apply IH; [exact Hl|]. intros H. apply Hx. now right.
Qed.

Lemma filter_not_member (x : Z) (l : list Z) :
  ~ In x l -> filter (fun id => negb (id =? x)) l = l.
Proof.
  induction l as [|a l IH]; intros Hx; [reflexivity|].
  cbn [filter]. destruct (Z.eqb_spec a x) as [E|E]; cbn [negb].
  - exfalso. apply Hx. now left.
  - f_equal. apply IH. intros H. apply Hx. now right.
Qed.

Lemma mock_queue_member (player : Mock.MockPlayer) (q : list Mock.MockPlayer) :
  existsb (fun p => Mock.mp_id p =? Mock.mp_id player) q = true
  <-> In (Mock.mp_id player) (map Mock.mp_id q).
Proof.
  rewrite existsb_exists, in_map_iff. split.
  - intros (p & Hp & Hid). exists p. split; [now apply Z.eqb_eq | exact Hp].
  - intros (p & Hid & Hp). exists p. split; [exact Hp | now apply Z.eqb_eq].
Qed.

Lemma mock_addToQueue_NoDup (player : Mock.MockPlayer) (st : Mock.State) :
  NoDup (Mock.queue_ids st) -> NoDup (Mock.queue_ids (Mock.addToQueue player st)).
Proof.
  intros Hnd. unfold Mock.addToQueue.
  destruct (existsb _ (Mock.userQueue st)) eqn:E; [exact Hnd|].
  unfold Mock.queue_ids. cbn [Mock.with_userQueue Mock.userQueue].
  rewrite map_app. apply NoDup_snoc; [exact Hnd|].
  intros H. apply mock_queue_member in H. congruence.
Qed.

Lemma mock_step_NoDup (league : Mock.LeagueProps) (now : string)
    (st : Mock.State) (o : Mock.Op) :
  NoDup (Mock.queue_ids st) -> NoDup (Mock.queue_ids (Mock.step league now st o)).
Proof.
  intros Hnd. pose proof (step_queue_and_available league now st o) as Hstep.
  destruct o as [player | player | | render selectedPlayer teamIndex].
  - cbn [Mock.step]. now apply mock_addToQueue_NoDup.
  - destruct Hstep as [(_ & Hq) | (_ & Hq)]; rewrite Hq;
      [exact Hnd | now apply NoDup_filter].
  - destruct Hstep as (_ & Hq). now rewrite Hq.
  - destruct Hstep as [(_ & Hq) | (player & _ & _ & Hq)]; rewrite Hq;
      [exact Hnd | now apply NoDup_filter].
Qed.

Lemma with_userQueue_same (st : Mock.State) :
  Mock.with_userQueue st (Mock.userQueue st) = st.
Proof. destruct st; reflexivity. Qed.

(** X13.  The simulator's queue never holds a player twice: queueing a queued
    player changes nothing, and no sequence of enqueues and picks
    introduces a duplicate.  Removing a player takes it out entirely, and
    removing a player just added to a queue that did not hold it gives the
    former state back. *)
Theorem mock_queue_has_no_duplicates :
  (forall (league : Mock.LeagueProps) (now : string) (ops : list Mock.Op)
          (st : Mock.State),
      NoDup (Mock.queue_ids st) ->
      NoDup (Mock.queue_ids (Mock.run league now st ops)))
  /\ (forall (player : Mock.MockPlayer) (st : Mock.State),
         Mock.addToQueue player (Mock.addToQueue player st)
         = Mock.addToQueue player st)
  /\ (forall (playerId : Z) (st : Mock.State),
         ~ In playerId (Mock.queue_ids (Mock.removeFromQueue playerId st)))
  /\ (forall (player : Mock.MockPlayer) (st : Mock.State),
         ~ In (Mock.mp_id player) (Mock.queue_ids st) ->
         Mock.removeFromQueue (Mock.mp_id player) (Mock.addToQueue player st) = st).
Proof.
  split; [|split; [|split]].
  - intros league now ops. unfold Mock.run.
    induction ops as [|o ops IH]; intros st Hnd; [exact Hnd|].
    cbn [fold_left]. apply IH. now apply mock_step_NoDup.
  - intros player st. unfold Mock.addToQueue at 2.
    destruct (existsb _ (Mock.userQueue st)) eqn:E.
    + unfold Mock.addToQueue. now rewrite E.
    + unfold Mock.addToQueue. cbn [Mock.with_userQueue Mock.userQueue].
      rewrite existsb_app. cbn [existsb]. rewrite Z.eqb_refl, E.
      reflexivity.
  - intros playerId st. unfold Mock.queue_ids, Mock.removeFromQueue.
    cbn [Mock.with_userQueue Mock.userQueue]. rewrite queue_ids_purge.
    rewrite filter_In, Z.eqb_refl. intros [_ H]. discriminate.
  - intros player st Hnot. unfold Mock.addToQueue.
    destruct (existsb _ (Mock.userQueue st)) eqn:E.
    { apply mock_queue_member in E. contradiction. }
    unfold Mock.removeFromQueue. cbn [Mock.with_userQueue Mock.userQueue].
    rewrite filter_app. cbn [filter]. rewrite Z.eqb_refl. cbn [negb].
    rewrite app_nil_r.
    assert (Hf : filter (fun p => negb (Mock.mp_id p =? Mock.mp_id player))
                        (Mock.userQueue st) = Mock.userQueue st).
    { unfold Mock.queue_ids in Hnot. clear E.
      induction (Mock.userQueue st) as [|a q IH]; [reflexivity|].
      cbn [filter]. cbn [map In] in Hnot.
      destruct (Z.eqb_spec (Mock.mp_id a) (Mock.mp_id player)) as [Ea|Ea];
        cbn [negb]; [tauto|]. f_equal. apply IH. tauto. }
    rewrite Hf. destruct st; reflexivity.
Qed.

Lemma mock_queue_has_no_duplicates_witness :
  NoDup (Mock.queue_ids
           (Mock.run Sample.leagueProps "t" Sample.mock
              [Mock.Enqueue (Sample.mockPlayer 11 true);
               Mock.Enqueue (Sample.mockPlayer 11 true);
               Mock.UserPick (Sample.mockPlayer 7 true)])).
Proof.
  apply (proj1 mock_queue_has_no_duplicates Sample.leagueProps "t"%string).
  vm_compute. repeat constructor; cbn; intuition discriminate.
Defined.

(** X14.  "Pick next in queue": when the draft is active, the user (team 0) is
    on the clock, no CPU pick is running and the queue is duplicate-free
    and not empty, [autoPickFromQueue] drafts the head of the queue for
    team 0 and leaves the rest of the queue, in order. *)
Theorem auto_pick_drafts_queue_head :
  forall (league : Mock.LeagueProps) (now : string) (st : Mock.State)
         (head : Mock.MockPlayer) (rest : list Mock.MockPlayer)
         (team0 : Mock.MockTeam),
    Mock.userQueue st = head :: rest ->
    NoDup (Mock.queue_ids st) ->
    Mock.isActive st = true ->
    Mock.currentTeamIndex st = Num 0 ->
    Mock.isAutoPicking st = false ->
    nth_error (Mock.mockTeams st) 0 = Some team0 ->
    exists st' pick,
      Mock.autoPickFromQueue league now st = Return st'
      /\ Mock.queue_ids st' = map Mock.mp_id rest
      /\ Mock.draftPicks st' = Mock.draftPicks st ++ [pick]
      /\ Store.dp_player_id pick = Mock.mp_id head
      /\ Store.dp_team_id pick = Mock.mt_id team0
      /\ ~ In (Mock.mp_id head) (Mock.available_ids st').
Proof.
  intros league now st head rest team0 Hq Hnd Ha Hi Hp Hteam.
  unfold Mock.autoPickFromQueue, Mock.handleUserDraftPick.
  rewrite Hq, Hi, Ha, Hp. cbn [jsnum_eqb Z.eqb negb orb].
  assert (Hidx : js_index (Mock.mockTeams st) (Num 0) = Some team0) by exact Hteam.
  destruct (draftPlayer_returns league now head (Num 0) st team0 Hidx)
    as (st' & Hst').
  destruct (draftPlayer_effect league now head (Num 0) st st' Hst')
    as ((pick & Hp1 & Hp2 & _ & Hp4) & Hav & Hqi & _).
  exists st', pick. split; [exact Hst'|].
  rewrite Hidx in Hp4. cbn [option_map] in Hp4.
  unfold Mock.queue_ids in Hqi, Hnd. rewrite Hq in Hqi, Hnd.
  cbn [map filter] in Hqi. rewrite Z.eqb_refl in Hqi. cbn [negb] in Hqi.
  cbn [map] in Hnd. inversion Hnd as [|? ? Hnotin _]; subst.
  rewrite filter_not_member in Hqi by exact Hnotin.
  repeat split; try assumption; try congruence.
  rewrite Hav, filter_In, Z.eqb_refl. intros [_ H]. discriminate.
Qed.

Lemma auto_pick_drafts_queue_head_witness :
  exists st' pick,
    Mock.autoPickFromQueue Sample.leagueProps "t" Sample.mock = Return st'
    /\ Mock.queue_ids st'
       = map Mock.mp_id [Sample.mockPlayer 3 true; Sample.mockPlayer 9 true]
    /\ Mock.draftPicks st' = Mock.draftPicks Sample.mock ++ [pick]
    /\ Store.dp_player_id pick = Mock.mp_id (Sample.mockPlayer 7 true)
    /\ Store.dp_team_id pick = Mock.mt_id (Sample.mockTeam "A")
    /\ ~ In (Mock.mp_id (Sample.mockPlayer 7 true)) (Mock.available_ids st').
Proof.
  apply (auto_pick_drafts_queue_head Sample.leagueProps "t" Sample.mock
           (Sample.mockPlayer 7 true)
           [Sample.mockPlayer 3 true; Sample.mockPlayer 9 true]
           (Sample.mockTeam "A")); try reflexivity.
  vm_compute. repeat constructor; cbn; intuition discriminate.
Defined.

(** ** DraftRoom: reordering and consuming the queue *)

Lemma indexOf_range (x : Z) (l : list Z) :
  -1 <= Room.indexOf x l < len l
  /\ (Room.indexOf x l = -1 <-> ~ In x l).
Proof.
  unfold len. induction l as [|y l IH]; cbn [Room.indexOf List.length In].
  - split; [lia | tauto].
  - destruct IH as (Hr & Habs).
    destruct (Z.eqb_spec y x) as [E|E].
    + split; [lia|]. split; [lia | tauto].
    + destruct (Z.eqb_spec (Room.indexOf x l) (-1)) as [E1|E1].
      * split; [lia|]. split; [tauto | reflexivity].
      * split; [lia|]. split; [lia | tauto].
Qed.

Lemma indexOf_app (x : Z) (l1 l2 : list Z) :
  ~ In x l1 -> Room.indexOf x (l1 ++ x :: l2) = len l1.
Proof.
  unfold len. induction l1 as [|y l1 IH]; intros Hx; cbn [app Room.indexOf].
  - now rewrite Z.eqb_refl.
  - cbn [In] in Hx. destruct (Z.eqb_spec y x) as [E|E]; [tauto|].
    rewrite IH by tauto.
    destruct (Z.eqb_spec (Z.of_nat (List.length l1)) (-1)); cbn [List.length]; lia.
Qed.

Lemma indexOf_split (x : Z) (l : list Z) :
  Room.indexOf x l <> -1 ->
  exists l1 l2, l = l1 ++ x :: l2 /\ ~ In x l1
                /\ Room.indexOf x l = len l1.
Proof.
  intros H. destruct (indexOf_range x l) as (_ & Habs).
  assert (Hin : In x l).
  { destruct (in_dec Z.eq_dec x l) as [Hi|Hi]; [exact Hi|]. tauto. }
  clear H Habs. induction l as [|y l IH]; [contradiction|].
  destruct (Z.eq_dec y x) as [E|E].
  - exists [], l. subst y. cbn [app Room.indexOf]. rewrite Z.eqb_refl.
    repeat split; auto.
  - destruct Hin as [Hy | Hin]; [contradiction|].
    destruct (IH Hin) as (l1 & l2 & Hl & Hn & _).
    exists (y :: l1), l2. subst l. split; [reflexivity|]. split.
    + cbn [In]. tauto.
    + apply (indexOf_app x (y :: l1) l2). cbn [In]. tauto.
Qed.

Lemma swap_at_app {A : Type} (l1 : list A) (a b : A) (l2 : list A) :
  Room.swap_at (List.length l1) (l1 ++ a :: b :: l2) = l1 ++ b :: a :: l2.
Proof.
  induction l1 as [|y l1 IH]; [reflexivity|].
  cbn [List.length app Room.swap_at]. now rewrite IH.
Qed.

Lemma swap_at_perm {A : Type} (i : nat) (l : list A) :
  Permutation (Room.swap_at i l) l.
Proof.
  revert i. induction l as [|a l IH]; intros i.
  - destruct i; reflexivity.
  - destruct i as [|i]; cbn [Room.swap_at].
    + destruct l as [|b r]; [reflexivity | apply perm_swap].
    + apply perm_skip, IH.
Qed.

Lemma moveInQueue_perm (playerId : Z)
    (direction : Room.Direction) (queue : list Z) :
  Permutation (Room.moveInQueue_queue playerId direction queue) queue.
Proof.
  unfold Room.moveInQueue_queue. destruct (_ =? -1); [reflexivity|].
  destruct direction; destruct (_ <? _); try reflexivity; apply swap_at_perm.
Qed.

(** X16.  [moveInQueue] only reorders: the new queue is a permutation of the old
    one (nothing is lost, added or repeated).  It does nothing for a player
    that is not queued, for "up" on the first entry and for "down" on the
    last one. *)
Theorem move_in_queue_only_reorders :
  forall (playerId : Z) (direction : Room.Direction) (queue : list Z),
    Permutation (Room.moveInQueue_queue playerId direction queue) queue
    /\ (~ In playerId queue ->
        Room.moveInQueue_queue playerId direction queue = queue)
    /\ (Room.indexOf playerId queue = 0 ->
        Room.moveInQueue_queue playerId Room.up queue = queue)
    /\ (Room.indexOf playerId queue = len queue - 1 ->
        Room.moveInQueue_queue playerId Room.down queue = queue).
Proof.
  intros playerId direction queue.
  split; [apply moveInQueue_perm|]. unfold Room.moveInQueue_queue.
  split; [|split].
  - intros Hnot. apply (indexOf_range playerId queue) in Hnot.
    now rewrite Hnot.
  - intros ->. reflexivity.
  - intros ->. destruct (_ =? -1); [reflexivity|].
    now rewrite Z.ltb_irrefl.
Qed.

Lemma move_in_queue_only_reorders_witness :
  Room.moveInQueue_queue 4 Room.up [7; 3; 9] = [7; 3; 9].
Proof.
  apply (proj1 (proj2 (move_in_queue_only_reorders 4 Room.up [7; 3; 9]))).
  cbn. intuition discriminate.
Defined.

(** X17.  Moving a queued player up puts it one place nearer the head, and moving
    it down again restores the queue; in a duplicate-free queue the same
    holds for down followed by up. *)
Theorem move_up_then_down_restores_queue :
  forall (playerId : Z) (queue : list Z),
    (0 < Room.indexOf playerId queue ->
     Room.indexOf playerId (Room.moveInQueue_queue playerId Room.up queue)
     = Room.indexOf playerId queue - 1
     /\ Room.moveInQueue_queue playerId Room.down
          (Room.moveInQueue_queue playerId Room.up queue) = queue)
    /\ (NoDup queue ->
        0 <= Room.indexOf playerId queue < len queue - 1 ->
        Room.indexOf playerId (Room.moveInQueue_queue playerId Room.down queue)
        = Room.indexOf playerId queue + 1
        /\ Room.moveInQueue_queue playerId Room.up
             (Room.moveInQueue_queue playerId Room.down queue) = queue).
Proof.
  intros x q. split.
  - intros Hpos.
    destruct (indexOf_split x q ltac:(lia)) as (l1 & l2 & Hq & Hn & Hi).
    destruct l1 as [|a l1] using rev_ind; [unfold len in Hi; cbn in Hi; lia|].
    clear IHl1. subst q.
    rewrite in_app_iff in Hn. cbn [In] in Hn.
    assert (Hup : Room.moveInQueue_queue x Room.up ((l1 ++ [a]) ++ x :: l2)
                  = l1 ++ x :: a :: l2).
    { unfold Room.moveInQueue_queue. rewrite Hi.
      unfold len. rewrite length_app. cbn [List.length].
      destruct (Z.eqb_spec (Z.of_nat (List.length l1 + 1)) (-1)); [lia|].
      destruct (Z.ltb_spec 0 (Z.of_nat (List.length l1 + 1))); [|lia].
      replace (Z.to_nat (Z.of_nat (List.length l1 + 1) - 1))
        with (List.length l1) by lia.
      rewrite <- app_assoc. cbn [app]. apply swap_at_app. }
    rewrite Hup.
    assert (Hi' : Room.indexOf x (l1 ++ x :: a :: l2) = len l1)
      by (apply indexOf_app; tauto).
    split.
    + rewrite Hi', Hi. unfold len. rewrite length_app. cbn [List.length]. lia.
    + unfold Room.moveInQueue_queue. rewrite Hi'.
      unfold len. rewrite length_app. cbn [List.length].
      destruct (Z.eqb_spec (Z.of_nat (List.length l1)) (-1)); [lia|].
      destruct (Z.ltb_spec (Z.of_nat (List.length l1))
                           (Z.of_nat (List.length l1 + S (S (List.length l2))) - 1));
        [|lia].
      rewrite Nat2Z.id, swap_at_app, <- app_assoc. reflexivity.
  - intros Hnd Hrange.
    destruct (indexOf_split x q ltac:(lia)) as (l1 & l2 & Hq & Hn & Hi).
    destruct l2 as [|b l2].
    { subst q. unfold len in *. rewrite length_app in Hrange.
      cbn [List.length] in Hrange. lia. }
    subst q.
    assert (Hbx : b <> x).
    { apply NoDup_remove_2 in Hnd. intros ->. apply Hnd.
      rewrite in_app_iff. cbn [In]. auto. }
    assert (Hdown : Room.moveInQueue_queue x Room.down (l1 ++ x :: b :: l2)
                    = l1 ++ b :: x :: l2).
    { unfold Room.moveInQueue_queue. rewrite Hi.
      unfold len. rewrite length_app. cbn [List.length].
      destruct (Z.eqb_spec (Z.of_nat (List.length l1)) (-1)); [lia|].
      destruct (Z.ltb_spec (Z.of_nat (List.length l1))
                           (Z.of_nat (List.length l1 + S (S (List.length l2))) - 1));
        [|lia].
      rewrite Nat2Z.id. apply swap_at_app. }
    rewrite Hdown.
    assert (Hi' : Room.indexOf x ((l1 ++ [b]) ++ x :: l2) = len (l1 ++ [b])).
    { apply indexOf_app. rewrite in_app_iff. cbn [In]. intros [H | [H | []]]; auto. }
    rewrite <- app_assoc in Hi'. cbn [app] in Hi'.
    unfold len in Hi'. rewrite length_app in Hi'. cbn [List.length] in Hi'.
    split.
    + rewrite Hi', Hi. unfold len. lia.
    + unfold Room.moveInQueue_queue. rewrite Hi'.
      destruct (Z.eqb_spec (Z.of_nat (List.length l1 + 1)) (-1)); [lia|].
      destruct (Z.ltb_spec 0 (Z.of_nat (List.length l1 + 1))); [|lia].
      replace (Z.to_nat (Z.of_nat (List.length l1 + 1) - 1))
        with (List.length l1) by lia.
      apply swap_at_app.
Qed.

Lemma move_up_then_down_restores_queue_witness :
  Room.indexOf 9 (Room.moveInQueue_queue 9 Room.up [7; 3; 9])
  = Room.indexOf 9 [7; 3; 9] - 1
  /\ Room.moveInQueue_queue 9 Room.down
       (Room.moveInQueue_queue 9 Room.up [7; 3; 9]) = [7; 3; 9].
Proof.
  apply (proj1 (move_up_then_down_restores_queue 9 [7; 3; 9])).
  cbn. lia.
Defined.

Lemma room_queue_member (playerId : Z) (q : list Z) :
  existsb (Z.eqb playerId) q = true <-> In playerId q.
Proof.
  rewrite existsb_exists. split.
  - intros (y & Hy & E). apply Z.eqb_eq in E. now subst.
  - intros H. exists playerId. split; [exact H | apply Z.eqb_refl].
Qed.

(** X18.  The draft-room queue stays duplicate-free under every handler that
    touches it: adding (a queued player is not added again), removing,
    reordering and picking. *)
Theorem room_queue_has_no_duplicates :
  forall (st : Room.State),
    NoDup (Room.playerQueue st) ->
    (forall playerId, NoDup (Room.playerQueue (Room.addToQueue playerId st)))
    /\ (forall playerId,
           NoDup (Room.playerQueue (Room.removeFromQueue playerId st))
           /\ ~ In playerId (Room.playerQueue (Room.removeFromQueue playerId st)))
    /\ (forall playerId direction,
           NoDup (Room.playerQueue (Room.moveInQueue playerId direction st)))
    /\ (forall isMyTurn makePick playerId,
           NoDup (Room.playerQueue
                    (Room.handleMakePick isMyTurn makePick playerId st))).
Proof.
  intros st Hnd. split; [|split; [|split]].
  - intros playerId. unfold Room.addToQueue.
    destruct (existsb _ (Room.playerQueue st)) eqn:E; cbn [negb]; [exact Hnd|].
    cbn [Room.playerQueue]. apply NoDup_snoc; [exact Hnd|].
    intros H. apply room_queue_member in H. congruence.
  - intros playerId. cbn [Room.removeFromQueue Room.playerQueue]. split.
    + now apply NoDup_filter.
    + rewrite filter_In, Z.eqb_refl. intros [_ H]. discriminate.
  - intros playerId direction. cbn [Room.moveInQueue Room.playerQueue].
    eapply Permutation_NoDup; [|exact Hnd].
    apply Permutation_sym.
    destruct direction.
    + apply (moveInQueue_perm playerId Room.up).
    + apply (moveInQueue_perm playerId Room.down).
  - intros isMyTurn makePick playerId. unfold Room.handleMakePick.
    destruct isMyTurn; cbn [negb]; [|exact Hnd].
    destruct (makePick playerId); cbn [Room.removeFromQueue Room.playerQueue];
      [now apply NoDup_filter | exact Hnd].
Qed.

Lemma room_queue_has_no_duplicates_witness :
  NoDup (Room.playerQueue (Room.addToQueue 3 Sample.room)).
Proof.
  apply (proj1 (room_queue_has_no_duplicates Sample.room
                  ltac:(repeat constructor; cbn; intuition discriminate)) 3).
Defined.

(** X19.  "Pick from queue" in the draft room: on the user's turn, with a
    duplicate-free, non-empty queue, exactly one pick request is sent, for
    the head of the queue; the head leaves the queue if the request
    succeeds and the queue is untouched if it fails.  Off turn, or with an
    empty queue, nothing is sent. *)
Theorem pick_from_queue_sends_head :
  forall (makePick : Z -> bool) (st : Room.State) (head : Z) (rest : list Z),
    Room.playerQueue st = head :: rest ->
    NoDup (Room.playerQueue st) ->
    let st' := Room.pickFromQueue true makePick st in
    Room.makePickCalls st' = Room.makePickCalls st ++ [head]
    /\ Room.playerQueue st' = (if makePick head then rest else head :: rest)
    /\ Room.pickFromQueue false makePick st = st
    /\ Room.pickFromQueue true makePick
         {| Room.playerQueue := []; Room.makePickCalls := Room.makePickCalls st |}
       = {| Room.playerQueue := []; Room.makePickCalls := Room.makePickCalls st |}.
Proof.
  intros makePick st head rest Hq Hnd st'. subst st'.
  unfold Room.pickFromQueue, Room.handleMakePick. rewrite Hq. cbn [negb].
  rewrite Hq in Hnd. inversion Hnd as [|? ? Hnotin _]; subst.
  destruct (makePick head); cbn [Room.removeFromQueue Room.playerQueue
                                 Room.makePickCalls filter];
    repeat split; try reflexivity.
  rewrite Z.eqb_refl. cbn [negb]. now apply filter_not_member.
Qed.

Lemma pick_from_queue_sends_head_witness :
  let st' := Room.pickFromQueue true (fun _ => true) Sample.room in
  Room.makePickCalls st' = Room.makePickCalls Sample.room ++ [7]
  /\ Room.playerQueue st' = (if (fun _ : Z => true) 7 then [3; 9] else [7; 3; 9])
  /\ Room.pickFromQueue false (fun _ => true) Sample.room = Sample.room
  /\ Room.pickFromQueue true (fun _ => true)
       {| Room.playerQueue := [];
          Room.makePickCalls := Room.makePickCalls Sample.room |}
     = {| Room.playerQueue := [];
          Room.makePickCalls := Room.makePickCalls Sample.room |}.
Proof.
  apply (pick_from_queue_sends_head (fun _ => true) Sample.room 7 [3; 9]).
  - reflexivity.
  - vm_compute. repeat constructor; cbn; intuition discriminate.
Defined.

(** ** validators.ts *)

Lemma nodup_length_le (l : list Z) :
  (List.length (nodup Z.eq_dec l) <= List.length l)%nat.
Proof.
  induction l as [|a l IH]; [reflexivity|].
  cbn [nodup List.length]. destruct (in_dec Z.eq_dec a l); cbn [List.length]; lia.
Qed.

(** [new Set(arr).size === arr.length] says that [arr] has no duplicates. *)
Lemma set_size_NoDup (l : list Z) :
  Nat.eqb (Validators.set_size l) (List.length l) = true <-> NoDup l.
Proof.
  unfold Validators.set_size. rewrite Nat.eqb_eq. split.
  - induction l as [|a l IH]; intros H; [constructor|].
    cbn [nodup List.length] in H. pose proof (nodup_length_le l).
    destruct (in_dec Z.eq_dec a l) as [Hin|Hin]; [lia|].
    cbn [List.length] in H. constructor; [exact Hin | apply IH; lia].
  - intros H. now rewrite nodup_fixed_point.
Qed.

Lemma includesZ_In (l : list Z) (x : Z) :
  Validators.includesZ l x = true <-> In x l.
Proof. apply room_queue_member. Qed.

Lemma push_if_empty (cond : bool) (msg : string) (errors : list string) :
  Validators.push_if cond msg errors = [] <-> cond = false /\ errors = [].
Proof.
  unfold Validators.push_if. destruct cond.
  - split; [|intros [H _]; discriminate].
    intros H. destruct errors; discriminate.
  - tauto.
Qed.

Lemma length_zero_nil {A : Type} (l : list A) :
  Nat.eqb (List.length l) 0 = true <-> l = [].
Proof. destruct l; cbn; split; congruence. Qed.

(** X20.  [isValidLineup] accepts exactly the lineups with 11 starters, at most
    4 on the bench, captain and vice captain two different starters, and
    no player listed twice among starters and bench; it reports no error
    exactly when it accepts. *)
Theorem valid_lineup_characterised :
  forall (lineup : Validators.Lineup),
    (fst (Validators.isValidLineup lineup) = true
     <-> List.length (Validators.starting_11 lineup) = 11%nat
         /\ (List.length (Validators.bench lineup) <= 4)%nat
         /\ In (Validators.captain lineup) (Validators.starting_11 lineup)
         /\ In (Validators.vice_captain lineup) (Validators.starting_11 lineup)
         /\ Validators.captain lineup <> Validators.vice_captain lineup
         /\ NoDup (Validators.starting_11 lineup ++ Validators.bench lineup))
    /\ (fst (Validators.isValidLineup lineup) = true
        <-> snd (Validators.isValidLineup lineup) = []).
Proof.
  intros lineup. unfold Validators.isValidLineup. cbv zeta. cbn [fst snd].
  rewrite length_zero_nil. split; [|tauto].
  rewrite !push_if_empty.
  rewrite !negb_false_iff, set_size_NoDup, Nat.eqb_eq, Nat.ltb_ge,
          !includesZ_In, Z.eqb_neq.
  tauto.
Qed.

Lemma valid_lineup_characterised_witness :
  fst (Validators.isValidLineup
         {| Validators.starting_11 := [1; 2; 3; 4; 5; 6; 7; 8; 9; 10; 11];
            Validators.bench := [12; 13];
            Validators.captain := 9;
            Validators.vice_captain := 10 |}) = true.
Proof.
  apply (proj1 (valid_lineup_characterised _)). cbn.
  repeat split; try lia; try tauto; try discriminate.
  repeat constructor; cbn; intuition discriminate.
Defined.

(** X21.  [isValidTradeProposal] accepts exactly the proposals that name at
    least one player, at most 5 per side, no player twice on a side and no
    player on both sides. *)
Theorem valid_trade_characterised :
  forall (proposerPlayers targetPlayers : list Z),
    fst (Validators.isValidTradeProposal proposerPlayers targetPlayers) = true
    <-> (proposerPlayers <> [] \/ targetPlayers <> [])
        /\ (List.length proposerPlayers <= 5)%nat
        /\ (List.length targetPlayers <= 5)%nat
        /\ NoDup proposerPlayers
        /\ NoDup targetPlayers
        /\ (forall x, In x proposerPlayers -> ~ In x targetPlayers).
Proof.
  intros pp tp. unfold Validators.isValidTradeProposal. cbv zeta. cbn [fst].
  rewrite length_zero_nil, !push_if_empty.
  rewrite !negb_false_iff, !Nat.ltb_ge, andb_false_iff, !Nat.eqb_neq.
  change (Nat.eqb (List.length (nodup Z.eq_dec pp)) (List.length pp) = true)
    with (Nat.eqb (Validators.set_size pp) (List.length pp) = true).
  change (Nat.eqb (List.length (nodup Z.eq_dec tp)) (List.length tp) = true)
    with (Nat.eqb (Validators.set_size tp) (List.length tp) = true).
  rewrite !set_size_NoDup.
  assert (Hne : forall l : list Z, List.length l <> 0%nat <-> l <> []).
  { intros l. destruct l; cbn; split; congruence. }
  rewrite !Hne.
  assert (Hinter :
            (List.length
               (nodup Z.eq_dec
                  (filter (fun x => Validators.includesZ (nodup Z.eq_dec tp) x)
                          (nodup Z.eq_dec pp))) <= 0)%nat
            <-> forall x, In x pp -> ~ In x tp).
  { split.
    - intros Hlen x Hp Ht.
      assert (Hin : In x (nodup Z.eq_dec
                            (filter (fun x => Validators.includesZ (nodup Z.eq_dec tp) x)
                                    (nodup Z.eq_dec pp)))).
      { apply nodup_In, filter_In. split; [now apply nodup_In|].
        apply includesZ_In. now apply nodup_In. }
      destruct (nodup _ _); [contradiction | cbn in Hlen; lia].
    - intros Hdis.
      assert (Hnone : forall x,
                 ~ In x (nodup Z.eq_dec
                           (filter (fun x => Validators.includesZ (nodup Z.eq_dec tp) x)
                                   (nodup Z.eq_dec pp)))).
      { intros x Hin. apply nodup_In, filter_In in Hin. destruct Hin as (Hp & Ht).
        apply nodup_In in Hp. apply includesZ_In, nodup_In in Ht.
        exact (Hdis x Hp Ht). }
      destruct (nodup Z.eq_dec (filter _ (nodup Z.eq_dec pp))) as [|x l];
        [cbn; lia|].
      exfalso. apply (Hnone x). now left. }
  rewrite Hinter. tauto.
Qed.

Lemma valid_trade_characterised_witness :
  fst (Validators.isValidTradeProposal [1; 2] [3]) = true.
Proof.
  apply (proj2 (valid_trade_characterised [1; 2] [3])).
  repeat split; cbn; try lia; try (left; discriminate);
    try (repeat constructor; cbn; intuition discriminate).
Defined.

(** X22.  [hasUniqueValues] holds exactly of the arrays without a repeated
    value, and [hasRequiredKeys] reports as missing exactly the required
    keys the object lacks, in the order required, and is valid exactly
    when none is missing. *)
Theorem unique_values_and_required_keys :
  (forall arr : list Z, Validators.hasUniqueValues arr = true <-> NoDup arr)
  /\ (forall (objectKeys requiredKeys : list string),
         let result := Validators.hasRequiredKeys objectKeys requiredKeys in
         (forall key, In key (snd result)
                      <-> In key requiredKeys /\ ~ In key objectKeys)
         /\ (fst result = true
             <-> forall key, In key requiredKeys -> In key objectKeys)
         /\ (fst result = true <-> snd result = [])).
Proof.
  split; [intros arr; apply set_size_NoDup|].
  intros objectKeys requiredKeys result. subst result.
  unfold Validators.hasRequiredKeys. cbv zeta. cbn [fst snd].
  assert (Hinc : forall key, includes objectKeys key = true <-> In key objectKeys).
  { intros key. unfold includes. rewrite existsb_exists. split.
    - intros (k & Hk & E). apply String.eqb_eq in E. now subst.
    - intros H. exists key. split; [exact H | apply String.eqb_refl]. }
  assert (Hmiss : forall key,
             In key (filter (fun key => negb (includes objectKeys key)) requiredKeys)
             <-> In key requiredKeys /\ ~ In key objectKeys).
  { intros key. rewrite filter_In, negb_true_iff, <- Hinc.
    destruct (includes objectKeys key); intuition congruence. }
  split; [exact Hmiss|]. rewrite length_zero_nil. split; [|tauto].
  split.
  - intros Hnil key Hreq.
    destruct (in_dec string_dec key objectKeys) as [H|H]; [exact H|].
    exfalso. assert (Hin : In key []) by (rewrite <- Hnil; now apply Hmiss).
    contradiction.
  - intros Hall.
    assert (Hnone : forall key,
               ~ In key (filter (fun key => negb (includes objectKeys key))
                                requiredKeys)).
    { intros key Hin. apply Hmiss in Hin. destruct Hin as (Hreq & Hnot).
      exact (Hnot (Hall key Hreq)). }
    destruct (filter _ requiredKeys) as [|k l]; [reflexivity|].
    exfalso. apply (Hnone k). now left.
Qed.

Lemma unique_values_and_required_keys_witness :
  Validators.hasUniqueValues [4; 8; 15] = true.
Proof.
  apply (proj2 (proj1 unique_values_and_required_keys [4; 8; 15])).
  repeat constructor; cbn; intuition discriminate.
Defined.

(** The two comparisons of a range check pass exactly for a number within
    the bounds and for NaN. *)
Lemma range_check (lo hi : Q) (x : number) :
  number_ltb x (Finite lo) || number_ltb (Finite hi) x = false
  <-> match x with
      | Finite q => (lo <= q)%Q /\ (q <= hi)%Q
      | NotANumber => True
      | _ => False
      end.
Proof.
  destruct x as [q| | |]; cbn [number_ltb orb]; try (split; [discriminate | tauto]);
    [|tauto].
  rewrite orb_false_iff, !negb_false_iff, !Qle_bool_iff. tauto.
Qed.

(** X23.  [isValidDraftSettings] accepts exactly the settings whose given fields
    pass its tests: rounds not below 10 and not above 20, pick duration
    not below 30 and not above 300 seconds, draft type snake, linear or
    random.  Absent fields are not checked, so the empty settings are
    valid; a NaN among the numbers passes too, since both comparisons with
    it are false, while an infinity does not.  It reports at most three
    errors, none exactly when it accepts. *)
Theorem valid_draft_settings_characterised :
  forall (settings : DraftSettingsInput),
    let result := isValidDraftSettings settings in
    (fst result = true
     <-> match ds_rounds settings with
         | Some (Finite r) => (10 <= r)%Q /\ (r <= 20)%Q
         | Some NotANumber => True
         | Some _ => False
         | None => True
         end
         /\ match ds_pick_duration settings with
            | Some (Finite d) => (30 <= d)%Q /\ (d <= 300)%Q
            | Some NotANumber => True
            | Some _ => False
            | None => True
            end
         /\ match ds_draft_type settings with
            | Some t => In t validTypes
            | None => True
            end)
    /\ (fst result = true <-> snd result = [])
    /\ (List.length (snd result) <= 3)%nat.
Proof.
  intros [rounds duration type]. cbv zeta. unfold isValidDraftSettings.
  cbn [ds_rounds ds_pick_duration ds_draft_type fst snd].
  assert (Hinc : forall t, includes validTypes t = true <-> In t validTypes).
  { intros t. unfold includes. rewrite existsb_exists. split.
    - intros (k & Hk & E). apply String.eqb_eq in E. now subst.
    - intros H. exists t. split; [exact H | apply String.eqb_refl]. }
  rewrite length_zero_nil.
  destruct rounds as [r|]; destruct duration as [d|]; destruct type as [t|];
    try (pose proof (range_check 10 20 r) as Hr;
         destruct (number_ltb r (Finite 10) || number_ltb (Finite 20) r));
    try (pose proof (range_check 30 300 d) as Hd;
         destruct (number_ltb d (Finite 30) || number_ltb (Finite 300) d));
    try (pose proof (Hinc t) as Ht; destruct (includes validTypes t));
    cbn [negb app List.length];
    (split; [|split; [split; intros Hx; first [reflexivity | discriminate Hx]
                     | lia]]);
    (split;
     [ intros Hok; first [discriminate Hok | intuition auto]
     | intros (Hp1 & Hp2 & Hp3);
       first [ reflexivity
             | exfalso; apply Hr in Hp1; discriminate Hp1
             | exfalso; apply Hd in Hp2; discriminate Hp2
             | exfalso; apply Ht in Hp3; discriminate Hp3 ] ]).
Qed.

Lemma valid_draft_settings_characterised_witness :
  fst (isValidDraftSettings
         {| ds_rounds := Some NotANumber;
            ds_pick_duration := Some (Finite (181 # 2));
            ds_draft_type := Some "linear"%string |}) = true.
Proof.
  apply (proj2 (proj1 (valid_draft_settings_characterised
                         {| ds_rounds := Some NotANumber;
                            ds_pick_duration := Some (Finite (181 # 2));
                            ds_draft_type := Some "linear"%string |}))).
  cbn. repeat split; try discriminate. auto.
Defined.

(** ** formatters.ts *)

Lemma ordinalSuffix_of_value (num : Z) :
  Formatters.ordinalSuffix num = Formatters.ordinalSuffix (Z.rem num 100).
Proof.
  unfold Formatters.ordinalSuffix.
  assert (H : Z.rem (Z.rem num 100) 100 = Z.rem num 100).
  { apply Z.rem_small_iff; [lia|]. pose proof (Z.rem_bound_abs num 100). lia. }
  now rewrite H.
Qed.

(** The suffix for every value of [num % 100], by exhaustion. *)
Lemma ordinalSuffix_small :
  forallb
    (fun k =>
       let v := Z.of_nat k in
       String.eqb (Formatters.ordinalSuffix v)
                  (if (v mod 10 =? 1) && negb (v =? 11) then "st"
                   else if (v mod 10 =? 2) && negb (v =? 12) then "nd"
                   else if (v mod 10 =? 3) && negb (v =? 13) then "rd"
                   else "th")
       && String.eqb (Formatters.ordinalSuffix (- v)) "th")
    (seq 0 100) = true.
Proof. vm_compute. reflexivity. Qed.

(** X24.  For a whole number that JavaScript holds exactly (below 2^53 in
    absolute value), [formatOrdinal] follows the English rule from 0 on:
    "st", "nd", "rd" after a last digit 1, 2, 3, except for numbers ending
    in 11, 12, 13, and "th" otherwise (1st, 2nd, 3rd, 4th, 11th, 12th,
    13th, 21st, 101st, 111th); every negative number gets "th". *)
Theorem format_ordinal_follows_english_rule :
  forall num : Z,
    - 2 ^ 53 < num < 2 ^ 53 ->
    Formatters.formatOrdinal num
    = String.append
        (string_of_Z num)
        (if num <? 0 then "th"
         else if (num mod 10 =? 1) && negb (num mod 100 =? 11) then "st"
         else if (num mod 10 =? 2) && negb (num mod 100 =? 12) then "nd"
         else if (num mod 10 =? 3) && negb (num mod 100 =? 13) then "rd"
         else "th").
Proof.
  intros num _. unfold Formatters.formatOrdinal. f_equal.
  rewrite ordinalSuffix_of_value.
  pose proof ordinalSuffix_small as Hall. rewrite forallb_forall in Hall.
  destruct (Z.ltb_spec num 0) as [Hneg|Hpos].
  - assert (Hb : -100 < Z.rem num 100 <= 0).
    { pose proof (Z.rem_bound_pos (- num) 100 ltac:(lia) ltac:(lia)) as Hp.
      pose proof (Z.rem_opp_l (- num) 100 ltac:(lia)) as Ho.
      rewrite Z.opp_involutive in Ho. lia. }
    specialize (Hall (Z.to_nat (- Z.rem num 100))
                     ltac:(apply in_seq; lia)).
    cbv zeta in Hall. apply andb_true_iff in Hall. destruct Hall as (_ & Hth).
    rewrite Z2Nat.id, Z.opp_involutive in Hth by lia.
    now apply String.eqb_eq in Hth.
  - rewrite Z.rem_mod_nonneg by lia.
    pose proof (Z.mod_pos_bound num 100 ltac:(lia)) as Hb.
    specialize (Hall (Z.to_nat (num mod 100)) ltac:(apply in_seq; lia)).
    cbv zeta in Hall. apply andb_true_iff in Hall. destruct Hall as (Hrule & _).
    rewrite Z2Nat.id in Hrule by lia. apply String.eqb_eq in Hrule.
    rewrite Hrule.
    replace ((num mod 100) mod 10) with (num mod 10); [reflexivity|].
    rewrite (Z.div_mod num 100) at 1 by lia.
    replace (100 * (num / 100) + num mod 100)
      with (num mod 100 + (10 * (num / 100)) * 10) by lia.
    apply Z.mod_add. lia.
Qed.

Lemma format_ordinal_follows_english_rule_witness :
  Formatters.formatOrdinal 112 = "112th"%string
  /\ Formatters.formatOrdinal 21 = "21st"%string.
Proof.
  split.
  - apply (format_ordinal_follows_english_rule 112). split; reflexivity.
  - apply (format_ordinal_follows_english_rule 21). split; reflexivity.
Defined.

(** X25.  [formatDuration] splits a non-negative whole number of seconds that
    JavaScript holds exactly (below 2^53) into hours, minutes below 60 and
    seconds below 60 that add up to it, and prints the hours only when
    there are some and the minutes only when there are hours or
    minutes. *)
Theorem format_duration_splits_seconds :
  forall seconds : Z,
    0 <= seconds < 2 ^ 53 ->
    exists h m s : Z,
      seconds = 3600 * h + 60 * m + s
      /\ 0 <= h /\ 0 <= m < 60 /\ 0 <= s < 60
      /\ Formatters.formatDuration seconds
         = (if 0 <? h
            then (string_of_Z h ++ "h " ++ string_of_Z m ++ "m "
                  ++ string_of_Z s ++ "s")%string
            else if 0 <? m
            then (string_of_Z m ++ "m " ++ string_of_Z s ++ "s")%string
            else (string_of_Z s ++ "s")%string)
      /\ (seconds < 60 ->
          Formatters.formatDuration seconds = (string_of_Z seconds ++ "s")%string).
Proof.
  intros seconds [Hs _].
  exists (seconds / 3600), ((seconds mod 3600) / 60), (seconds mod 60).
  pose proof (Z.div_mod seconds 3600 ltac:(lia)) as H1.
  pose proof (Z.mod_pos_bound seconds 3600 ltac:(lia)) as H2.
  pose proof (Z.div_mod (seconds mod 3600) 60 ltac:(lia)) as H3.
  pose proof (Z.mod_pos_bound (seconds mod 3600) 60 ltac:(lia)) as H4.
  pose proof (Z.div_pos seconds 3600 Hs ltac:(lia)) as H5.
  pose proof (Z.div_pos (seconds mod 3600) 60 ltac:(lia) ltac:(lia)) as H6.
  assert (H7 : (seconds mod 3600) mod 60 = seconds mod 60).
  { rewrite H1 at 2.
    replace (3600 * (seconds / 3600) + seconds mod 3600)
      with (seconds mod 3600 + (60 * (seconds / 3600)) * 60) by lia.
    symmetry. apply Z.mod_add. lia. }
  assert (H8 : (seconds mod 3600) / 60 < 60).
  { apply Z.div_lt_upper_bound; lia. }
  pose proof (Z.mod_pos_bound seconds 60 ltac:(lia)) as H9.
  assert (Hfmt : Formatters.formatDuration seconds
                 = (if 0 <? seconds / 3600
                    then (string_of_Z (seconds / 3600) ++ "h "
                          ++ string_of_Z ((seconds mod 3600) / 60) ++ "m "
                          ++ string_of_Z (seconds mod 60) ++ "s")%string
                    else if 0 <? (seconds mod 3600) / 60
                    then (string_of_Z ((seconds mod 3600) / 60) ++ "m "
                          ++ string_of_Z (seconds mod 60) ++ "s")%string
                    else (string_of_Z (seconds mod 60) ++ "s")%string)).
  { unfold Formatters.formatDuration. now rewrite !Z.rem_mod_nonneg by lia. }
  repeat split; try lia.
  - exact Hfmt.
  - intros Hlt. rewrite Hfmt.
    rewrite (Z.div_small seconds 3600) by lia.
    rewrite (Z.mod_small seconds 3600) by lia.
    rewrite (Z.div_small seconds 60) by lia.
    rewrite (Z.mod_small seconds 60) by lia. reflexivity.
Qed.

Lemma format_duration_splits_seconds_witness :
  exists h m s : Z,
    3725 = 3600 * h + 60 * m + s
    /\ 0 <= h /\ 0 <= m < 60 /\ 0 <= s < 60
    /\ Formatters.formatDuration 3725
       = (if 0 <? h
            then (string_of_Z h ++ "h " ++ string_of_Z m ++ "m "
                  ++ string_of_Z s ++ "s")%string
            else if 0 <? m
            then (string_of_Z m ++ "m " ++ string_of_Z s ++ "s")%string
            else (string_of_Z s ++ "s")%string)
    /\ (3725 < 60 ->
        Formatters.formatDuration 3725 = (string_of_Z 3725 ++ "s")%string).
Proof.
  apply (format_duration_splits_seconds 3725). split; [lia | reflexivity].
Defined.

(** ** MockDraftSimulator: starting over *)

Lemma all_available_ids (l : list Mock.MockPlayer) :
  map Mock.mp_id (filter Mock.isAvailable (map Mock.set_available l))
  = map Mock.mp_id l.
Proof.
  induction l as [|a l IH]; [reflexivity|].
  cbn [map filter Mock.set_available Mock.isAvailable Mock.mp_id].
  now rewrite IH.
Qed.

(** X15.  Starting or resetting a mock draft, from any state whatever (mid-draft
    or finished), makes every player available again, empties every
    roster and the pick list and puts pick 1 with team 0 on the clock.
    Starting keeps the user's queue, so the queue is within the available
    players again; resetting empties the queue and leaves the draft
    inactive, so that a pick by the user is then refused. *)
Theorem restart_restores_every_player :
  forall (league : Mock.LeagueProps) (now : string) (st : Mock.State),
    let started := Mock.startMockDraft st in
    let reset := Mock.resetMockDraft st in
    Mock.available_ids started = map Mock.mp_id (Mock.availablePlayers st)
    /\ Mock.available_ids reset = map Mock.mp_id (Mock.availablePlayers st)
    /\ Forall (fun t => Mock.draftedPlayers t = []) (Mock.mockTeams started)
    /\ Forall (fun t => Mock.draftedPlayers t = []) (Mock.mockTeams reset)
    /\ Mock.queue_ids started = Mock.queue_ids st
    /\ Mock.queue_ids reset = []
    /\ Mock.isUserTurn started = true
    /\ (forall player,
           Mock.handleUserDraftPick league now player reset = Return reset)
    /\ ((forall id, In id (Mock.queue_ids st) ->
                    In id (map Mock.mp_id (Mock.availablePlayers st))) ->
        Mock.queue_available started).
Proof.
  intros league now st started reset. subst started reset.
  unfold Mock.available_ids, Mock.queue_ids, Mock.queue_available,
         Mock.isUserTurn, Mock.handleUserDraftPick.
  cbn [Mock.startMockDraft Mock.resetMockDraft Mock.availablePlayers
       Mock.mockTeams Mock.userQueue Mock.isActive Mock.currentTeamIndex
       Mock.isDraftComplete Mock.isAutoPicking map].
  rewrite all_available_ids.
  assert (Hclear : Forall (fun t => Mock.draftedPlayers t = [])
                          (map Mock.clear_drafted (Mock.mockTeams st))).
  { apply Forall_forall. intros t (t0 & <- & _)%in_map_iff. reflexivity. }
  repeat split; auto.
  intros Hq id. unfold Mock.queue_ids, Mock.available_ids.
  cbn [Mock.startMockDraft Mock.availablePlayers Mock.userQueue].
  rewrite all_available_ids. apply Hq.
Qed.

Lemma restart_restores_every_player_witness :
  Mock.queue_available (Mock.startMockDraft Sample.mock).
Proof.
  apply (restart_restores_every_player Sample.leagueProps "t"%string Sample.mock).
  vm_compute. tauto.
Defined.

Lemma update_player_replaces_in_place_witness :
  let payload := Sample.player 7 in
  if Store.p_id (Sample.player 7) =? Store.p_id payload
  then Sample.player 7 = payload
  else In (Sample.player 7) (Store.availablePlayers Sample.state).
Proof.
  apply (proj1 (proj2 (update_player_replaces_in_place "t" Sample.state
                         (Sample.player 7)))).
  vm_compute. tauto.
Defined.

(** ** MockDraftSimulator: the course of a draft *)

Lemma getDraftOrder_second (n : Z) : 2 <= n -> getDraftOrder 2 n = Num 1.
Proof.
  intros Hn.
  pose proof (getDraftOrder_cell n 1 1 ltac:(lia) ltac:(lia) ltac:(lia)) as H.
  replace ((1 - 1) * n + 1 + 1) with 2 in H by lia. exact H.
Qed.

Lemma getDraftOrder_solo (p : Z) : 1 <= p -> getDraftOrder p 1 = Num 0.
Proof.
  intros Hp.
  pose proof (getDraftOrder_cell 1 p 0 ltac:(lia) Hp ltac:(lia)) as H.
  replace ((p - 1) * 1 + 0 + 1) with p in H by lia. rewrite H.
  destruct (Z.even p); reflexivity.
Qed.

(** One timer of the chain that follows the user's first pick: it runs the
    handlers of the render [startMockDraft st0], whatever the cells hold
    by now. *)
Lemma timer_round (league : Mock.LeagueProps) (now : string)
    (st0 cur : Mock.State) (player : Mock.MockPlayer) :
  2 <= len (Mock.mockTeams st0) ->
  2 <= len (Mock.mockTeams st0) * Mock.roster_size league ->
  let render := Mock.startMockDraft st0 in
  let st' := Mock.run league now cur (Mock.timerChain render [player]) in
  map Store.dp_pick_number (Mock.draftPicks st')
  = map Store.dp_pick_number (Mock.draftPicks cur) ++ [1]
  /\ map Store.dp_player_id (Mock.draftPicks st')
     = map Store.dp_player_id (Mock.draftPicks cur) ++ [Mock.mp_id player]
  /\ Mock.currentPick st' = 2
  /\ Mock.currentTeamIndex st' = Num 1
  /\ Mock.isActive st' = Mock.isActive cur
  /\ Mock.isDraftComplete st' = Mock.isDraftComplete cur
  /\ Mock.isAutoPicking st' = false
  /\ Mock.autoPickTimers st' = Mock.autoPickTimers cur ++ [Num 1]
  /\ Mock.available_ids st'
     = filter (fun id => negb (id =? Mock.mp_id player))
              (map Mock.mp_id (Mock.availablePlayers st0))
  /\ (forall i : nat,
         nth_error (Mock.mockTeams st') i
         = option_map
             (fun t => if (i =? 1)%nat
                       then Mock.add_drafted (Mock.clear_drafted t) player
                       else Mock.clear_drafted t)
             (nth_error (Mock.mockTeams st0) i)).
Proof.
  intros Hn Htotal render st'. subst st'.
  unfold Mock.timerChain, Mock.run.
  assert (Hlen : len (Mock.mockTeams render) = len (Mock.mockTeams st0)).
  { unfold render, len. cbn [Mock.startMockDraft Mock.mockTeams].
    now rewrite length_map. }
  assert (Hcp : Mock.currentPick render = 1) by reflexivity.
  rewrite Hlen, Hcp. change (1 + 1) with 2.
  rewrite getDraftOrder_second by assumption.
  cbn [flat_map app fold_left Mock.step].
  unfold Mock.autoPickForCPU_resume, Mock.draftPlayerFrom.
  rewrite Hlen, Hcp. change (1 + 1) with 2.
  rewrite getDraftOrder_second by assumption.
  destruct (js_index (Mock.mockTeams render) (Num 1)) as [team|] eqn:Eteam.
  2:{ exfalso. unfold js_index in Eteam.
      change (?i <? 0) with false in Eteam. cbv iota in Eteam.
      apply nth_error_None in Eteam. unfold len in Hlen, Hn. lia. }
  destruct (Z.leb_spec (len (Mock.mockTeams st0) * Mock.roster_size league) 1)
    as [Hle|Hgt]; [lia|].
  cbn [Mock.with_isAutoPicking Mock.autoPickForCPU_begin Mock.draftPicks
       Mock.currentPick Mock.currentTeamIndex Mock.isActive
       Mock.isDraftComplete Mock.isAutoPicking Mock.autoPickTimers
       Mock.mockTeams Mock.availablePlayers jsnum_eqb Z.eqb negb].
  rewrite !map_app. cbn [map Store.dp_pick_number Store.dp_player_id].
  repeat match goal with |- _ /\ _ => split end; try reflexivity.
  - unfold Mock.available_ids, Mock.with_isAutoPicking.
    cbn [Mock.availablePlayers].
    rewrite available_ids_mark. unfold render.
    cbn [Mock.startMockDraft Mock.availablePlayers].
    now rewrite all_available_ids.
  - intros i. rewrite nth_error_mapi. unfold render.
    cbn [Mock.startMockDraft Mock.mockTeams]. rewrite nth_error_map.
    destruct (nth_error (Mock.mockTeams st0) i); [|reflexivity].
    cbn [option_map jsnum_eqb]. f_equal.
    destruct (Z.eqb_spec (Z.of_nat i) 1) as [E|E];
      destruct (Nat.eqb_spec i 1) as [F|F]; try reflexivity; lia.
Qed.

(** The cells after the user's first pick and any number of timers of the
    chain it starts. *)
Lemma timer_chain_prefix (league : Mock.LeagueProps) (now : string)
    (st0 : Mock.State) (userPlayer : Mock.MockPlayer)
    (selected : list Mock.MockPlayer) :
  2 <= len (Mock.mockTeams st0) ->
  2 <= len (Mock.mockTeams st0) * Mock.roster_size league ->
  Mock.isAutoPicking st0 = false ->
  let render := Mock.startMockDraft st0 in
  let st := Mock.run league now render
              (Mock.UserPick userPlayer :: Mock.timerChain render selected) in
  map Store.dp_pick_number (Mock.draftPicks st)
  = repeat 1 (S (List.length selected))
  /\ map Store.dp_player_id (Mock.draftPicks st)
     = Mock.mp_id userPlayer :: map Mock.mp_id selected
  /\ Mock.currentPick st = 2
  /\ Mock.currentTeamIndex st = Num 1
  /\ Mock.isActive st = true
  /\ Mock.isDraftComplete st = false
  /\ List.length (Mock.autoPickTimers st)
     = (List.length (Mock.autoPickTimers st0) + 1 + List.length selected)%nat.
Proof.
  intros Hn Htotal Hauto render.
  induction selected as [|player selected IH] using rev_ind; intros st.
  - subst st. unfold Mock.timerChain, Mock.run.
    cbn [flat_map fold_left Mock.step].
    unfold Mock.handleUserDraftPick, Mock.draftPlayer.
    assert (Hlen : len (Mock.mockTeams render) = len (Mock.mockTeams st0)).
    { unfold render, len. cbn [Mock.startMockDraft Mock.mockTeams].
      now rewrite length_map. }
    assert (Hcp : Mock.currentPick render = 1) by reflexivity.
    assert (Hra : Mock.isAutoPicking render = false) by exact Hauto.
    assert (Hact : Mock.isActive render = true) by reflexivity.
    assert (Hidx : Mock.currentTeamIndex render = Num 0) by reflexivity.
    assert (Hpicks : Mock.draftPicks render = []) by reflexivity.
    assert (Hcomplete : Mock.isDraftComplete render = false) by reflexivity.
    assert (Htimers : Mock.autoPickTimers render = Mock.autoPickTimers st0)
      by reflexivity.
    rewrite Hra, Hact, Hidx, Hlen, Hcp. change (1 + 1) with 2.
    rewrite getDraftOrder_second by assumption.
    cbn [negb jsnum_eqb Z.eqb orb].
    destruct (js_index (Mock.mockTeams render) (Num 0)) as [team|] eqn:Eteam.
    2:{ exfalso. unfold js_index in Eteam.
      change (?i <? 0) with false in Eteam. cbv iota in Eteam.
      apply nth_error_None in Eteam. unfold len in Hlen, Hn. lia. }
    destruct (Z.leb_spec (len (Mock.mockTeams st0) * Mock.roster_size league) 1)
      as [Hle|Hgt]; [lia|].
    cbn [Mock.draftPicks Mock.currentPick Mock.currentTeamIndex Mock.isActive
         Mock.isDraftComplete Mock.autoPickTimers].
    rewrite Hpicks, Hcomplete, Htimers, length_app.
    cbn [app map Store.dp_pick_number Store.dp_player_id List.length repeat].
    repeat split; lia.
  - subst st. unfold Mock.timerChain in *. rewrite flat_map_app.
    change (Mock.UserPick userPlayer :: ?l ++ ?m)
      with ((Mock.UserPick userPlayer :: l) ++ m).
    unfold Mock.run in *. rewrite fold_left_app.
    cbv zeta in IH.
    set (cur := fold_left (Mock.step league now) _ render) in *.
    destruct IH as (Hnum & Hids & _ & _ & Hact & Hcomplete & Htimers).
    destruct (timer_round league now st0 cur player Hn Htotal)
      as (Rnum & Rids & Rcp & Ridx & Ract & Rcomplete & _ & Rtimers & _).
    unfold Mock.timerChain, Mock.run in *. fold render in Rnum, Rids, Rcp, Ridx,
      Ract, Rcomplete, Rtimers.
    rewrite Rnum, Rids, Rcp, Ridx, Ract, Rcomplete, Rtimers, Hnum, Hids,
      Hact, Hcomplete, !length_app, Htimers, map_app.
    cbn [List.length map].
    repeat split; try lia.
    change (repeat 1 (S (List.length selected)) ++ [1]
            = repeat 1 (S (List.length selected + 1))).
    rewrite Nat.add_1_r. now rewrite <- repeat_cons.
Qed.

(** X11.  The CPU teams never get past the first pick.  In a draft of two or
    more teams with at least two picks to make, the user's first pick
    after [startMockDraft] sets a timer for team 1, and every timer of the
    chain that follows runs the handlers of the render before that pick.
    So, whatever players the timers select, each of their picks is
    recorded as pick number 1 again, [currentPick] stays 2 and team 1
    stays on the clock: the draft never completes, the user never gets
    another turn and clicks on players are ignored.  After a timer's pick
    the available players are those of the start minus the player just
    drafted (the user's player, and those of earlier timers, are available
    again), team 1 holds that player alone and every other roster,
    the user's too, is empty; each pick sets one more timer. *)
Theorem timer_picks_repeat_first_pick :
  forall (league : Mock.LeagueProps) (now : string) (st0 : Mock.State)
         (userPlayer : Mock.MockPlayer) (selected : list Mock.MockPlayer)
         (lastPlayer : Mock.MockPlayer),
    2 <= len (Mock.mockTeams st0) ->
    2 <= len (Mock.mockTeams st0) * Mock.roster_size league ->
    Mock.isAutoPicking st0 = false ->
    let render := Mock.startMockDraft st0 in
    let st := Mock.run league now render
                (Mock.UserPick userPlayer
                 :: Mock.timerChain render (selected ++ [lastPlayer])) in
    map Store.dp_pick_number (Mock.draftPicks st)
    = repeat 1 (2 + List.length selected)
    /\ map Store.dp_player_id (Mock.draftPicks st)
       = Mock.mp_id userPlayer :: map Mock.mp_id (selected ++ [lastPlayer])
    /\ Mock.currentPick st = 2
    /\ Mock.currentTeamIndex st = Num 1
    /\ Mock.isActive st = true
    /\ Mock.isDraftComplete st = false
    /\ Mock.isUserTurn st = false
    /\ (forall player : Mock.MockPlayer,
           Mock.handleUserDraftPick league now player st = Return st)
    /\ Mock.available_ids st
       = filter (fun id => negb (id =? Mock.mp_id lastPlayer))
                (map Mock.mp_id (Mock.availablePlayers st0))
    /\ (forall i : nat,
           nth_error (Mock.mockTeams st) i
           = option_map
               (fun t => if (i =? 1)%nat
                         then Mock.add_drafted (Mock.clear_drafted t) lastPlayer
                         else Mock.clear_drafted t)
               (nth_error (Mock.mockTeams st0) i))
    /\ List.length (Mock.autoPickTimers st)
       = (List.length (Mock.autoPickTimers st0) + 2 + List.length selected)%nat.
Proof.
  intros league now st0 userPlayer selected lastPlayer Hn Htotal Hauto render st.
  destruct (timer_chain_prefix league now st0 userPlayer
              (selected ++ [lastPlayer]) Hn Htotal Hauto)
    as (Hnum & Hids & Hcp & Hidx & Hact & Hcomplete & Htimers).
  fold render in Hnum, Hids, Hcp, Hidx, Hact, Hcomplete, Htimers.
  fold st in Hnum, Hids, Hcp, Hidx, Hact, Hcomplete, Htimers.
  rewrite length_app in Hnum, Htimers. cbn [List.length] in Hnum, Htimers.
  assert (Hlast : st = Mock.run league now
                         (Mock.run league now render
                            (Mock.UserPick userPlayer
                             :: Mock.timerChain render selected))
                         (Mock.timerChain render [lastPlayer])).
  { unfold st, Mock.run, Mock.timerChain. rewrite flat_map_app.
    change (Mock.UserPick userPlayer :: ?l ++ ?m)
      with ((Mock.UserPick userPlayer :: l) ++ m).
    now rewrite fold_left_app. }
  destruct (timer_round league now st0
              (Mock.run league now render
                 (Mock.UserPick userPlayer :: Mock.timerChain render selected))
              lastPlayer Hn Htotal)
    as (_ & _ & _ & _ & _ & _ & _ & _ & Rav & Rteams).
  fold render in Rav, Rteams. rewrite <- Hlast in Rav, Rteams.
  repeat match goal with |- _ /\ _ => split end; try assumption.
  - rewrite Hnum. f_equal. lia.
  - unfold Mock.isUserTurn. now rewrite Hidx.
  - intros player. unfold Mock.handleUserDraftPick.
    rewrite Hidx, Hact. reflexivity.
  - rewrite Htimers. lia.
Qed.

Lemma timer_picks_repeat_first_pick_witness :
  let st := Mock.run Sample.leagueProps "t"
              (Mock.startMockDraft Sample.mock)
              (Mock.UserPick (Sample.mockPlayer 7 true)
               :: Mock.timerChain (Mock.startMockDraft Sample.mock)
                    ([Sample.mockPlayer 11 true] ++ [Sample.mockPlayer 11 true])) in
  map Store.dp_pick_number (Mock.draftPicks st) = [1; 1; 1]
  /\ map Store.dp_player_id (Mock.draftPicks st) = [7; 11; 11]
  /\ Mock.currentPick st = 2
  /\ Mock.available_ids st = [3; 5; 7; 9].
Proof.
  destruct (timer_picks_repeat_first_pick Sample.leagueProps "t"%string
              Sample.mock (Sample.mockPlayer 7 true)
              [Sample.mockPlayer 11 true] (Sample.mockPlayer 11 true))
    as (Hnum & Hids & Hcp & _ & _ & _ & _ & _ & Hav & _).
  - vm_compute. discriminate.
  - vm_compute. discriminate.
  - reflexivity.
  - cbv zeta. repeat split; assumption.
Defined.

(** A draft with the user alone, [c - 1] picks after its start. *)
Lemma solo_run (league : Mock.LeagueProps) (now : string)
    (players : list Mock.MockPlayer) :
  forall (st : Mock.State) (team : Mock.MockTeam) (c : Z),
    Mock.mockTeams st = [team] ->
    Mock.isActive st = true ->
    Mock.currentTeamIndex st = Num 0 ->
    Mock.isAutoPicking st = false ->
    Mock.isDraftComplete st = false ->
    Mock.currentPick st = c ->
    1 <= c ->
    c - 1 + len players <= Mock.roster_size league ->
    let st' := Mock.run league now st (map Mock.UserPick players) in
    let complete :=
      (0 <? len players) && (c - 1 + len players =? Mock.roster_size league) in
    map Store.dp_pick_number (Mock.draftPicks st')
    = map Store.dp_pick_number (Mock.draftPicks st)
      ++ map (fun i => c + Z.of_nat i) (seq 0 (List.length players))
    /\ map Store.dp_player_id (Mock.draftPicks st')
       = map Store.dp_player_id (Mock.draftPicks st) ++ map Mock.mp_id players
    /\ Mock.mockTeams st'
       = [{| Mock.mt_id := Mock.mt_id team; Mock.mt_name := Mock.mt_name team;
             Mock.draftedPlayers := Mock.draftedPlayers team ++ players |}]
    /\ Mock.autoPickTimers st' = Mock.autoPickTimers st
    /\ Mock.isDraftComplete st' = complete
    /\ Mock.isActive st' = negb complete
    /\ Mock.currentTeamIndex st' = Num 0
    /\ Mock.currentPick st'
       = (if complete then Mock.roster_size league else c + len players)
    /\ (forall id, In id (Mock.available_ids st')
                   <-> In id (Mock.available_ids st)
                       /\ ~ In id (map Mock.mp_id players)).
Proof.
  induction players as [|p rest IH];
    intros st team c Hteams Hact Hidx Hauto Hcomplete Hcp Hc Hbound st' complete.
  - subst st' complete. cbn [map Mock.run fold_left List.length seq len].
    unfold Mock.run. cbn [fold_left Z.of_nat Z.ltb Z.compare andb].
    rewrite !app_nil_r, Hteams, Hcomplete, Hact, Hidx, Hcp.
    repeat match goal with |- _ /\ _ => split end;
      try reflexivity; try lia.
    + destruct team; reflexivity.
    + change (len []) with 0. cbn [Z.ltb Z.compare andb]. lia.
    + intros id. cbn [In]. tauto.
  - assert (Hlen : len (p :: rest) = len rest + 1).
    { unfold len. cbn [List.length]. lia. }
    assert (Hrest : 0 <= len rest) by (unfold len; lia).
    subst st'. unfold Mock.run. cbn [map fold_left Mock.step].
    unfold Mock.handleUserDraftPick.
    rewrite Hact, Hidx, Hauto. cbn [negb jsnum_eqb Z.eqb orb].
    destruct (Mock.draftPlayer league now p (Num 0) st) as [st1|msg] eqn:D.
    2:{ exfalso. unfold Mock.draftPlayer in D. rewrite Hteams in D.
        cbn [js_index Z.ltb Z.compare Z.to_nat nth_error] in D.
        destruct (_ <=? _) in D; discriminate D. }
    destruct (draftPlayer_effect league now p (Num 0) st st1 D)
      as (_ & Hav & _).
    unfold Mock.draftPlayer in D. rewrite Hteams in D.
    cbn [js_index Z.ltb Z.compare Z.to_nat nth_error] in D.
    replace (len [team]) with 1 in D by reflexivity.
    rewrite Hcp in D.
    destruct (Z.leb_spec (1 * Mock.roster_size league) c) as [Hlast|Hmore].
    + (* the last pick of the draft *)
      assert (rest = []) as ->.
      { destruct rest; [reflexivity|]. unfold len in Hbound.
        cbn [List.length] in Hbound. lia. }
      injection D as <-. subst complete.
      cbn [fold_left map Mock.draftPicks Mock.mockTeams Mock.autoPickTimers
           Mock.isDraftComplete Mock.isActive Mock.currentTeamIndex
           Mock.currentPick List.length seq len mapi mapi_from jsnum_eqb
           Z.of_nat Z.eqb] in *.
      rewrite !map_app. cbn [map Store.dp_pick_number Store.dp_player_id].
      unfold len in Hbound. cbn [List.length] in Hbound.
      replace (c - 1 + Z.of_nat 1 =? Mock.roster_size league) with true
        by (symmetry; apply Z.eqb_eq; lia).
      replace (c + Z.of_nat 0) with c by lia.
      cbn [Z.ltb Z.compare Z.of_nat Pos.of_succ_nat andb negb].
      repeat match goal with |- _ /\ _ => split end;
        try reflexivity; try assumption; try lia.
      * f_equal. f_equal. lia.
      * destruct (Z.eqb_spec (c - 1 + 1) (Mock.roster_size league)); lia.
      * intros id. rewrite Hav, filter_In. cbn [In].
        destruct (Z.eqb_spec id (Mock.mp_id p)); cbn [negb];
          intuition congruence.
    + (* a pick that leaves the user on the clock *)
      assert (Hnext : getDraftOrder (c + 1) 1 = Num 0)
        by (apply getDraftOrder_solo; lia).
      rewrite Hnext in D. cbn [jsnum_eqb Z.eqb negb] in D.
      injection D as <-.
      match goal with
      | |- context [fold_left _ _ ?s] => set (st1 := s) in *
      end.
      specialize (IH st1 (Mock.add_drafted team p) (c + 1)
                     eq_refl Hact eq_refl Hauto Hcomplete eq_refl
                     ltac:(lia) ltac:(lia)).
      cbv zeta in IH. unfold Mock.run in IH.
      destruct IH as (I1 & I2 & I3 & I4 & I5 & I6 & I7 & I8 & I9).
      subst complete.
      replace (0 <? len (p :: rest)) with true
        by (symmetry; apply Z.ltb_lt; lia).
      replace (c - 1 + len (p :: rest)) with (c + 1 - 1 + len rest) by lia.
      replace (c + len (p :: rest)) with (c + 1 + len rest) by lia.
      rewrite I1, I2, I3, I4, I5, I6, I7, I8.
      cbn [st1 Mock.draftPicks Mock.autoPickTimers Mock.add_drafted
           Mock.mt_id Mock.mt_name Mock.draftedPlayers andb].
      rewrite !map_app. cbn [map Store.dp_pick_number Store.dp_player_id].
      rewrite <- !app_assoc. cbn [app List.length seq map].
      rewrite <- seq_shift, map_map.
      replace (c + Z.of_nat 0) with c by lia.
      assert (Hshift : map (fun i => c + 1 + Z.of_nat i) (seq 0 (List.length rest))
                       = map (fun i => c + Z.of_nat (S i))
                             (seq 0 (List.length rest))).
      { apply map_ext. intros i. lia. }
      rewrite Hshift.
      assert (Hsame : (0 <? len rest)
                      && (c + 1 - 1 + len rest =? Mock.roster_size league)
                      = (c + 1 - 1 + len rest =? Mock.roster_size league)).
      { destruct (Z.ltb_spec 0 (len rest)); cbn [andb]; [reflexivity|].
        symmetry. apply Z.eqb_neq. lia. }
      rewrite Hsame.
      repeat match goal with |- _ /\ _ => split end; try reflexivity.
      intros id. rewrite I9. fold st1 in Hav. rewrite Hav, filter_In.
      cbn [In]. destruct (Z.eqb_spec id (Mock.mp_id p)); cbn [negb];
        intuition congruence.
Qed.

(** X12.  A draft with a single team, where every pick is the user's, runs
    as it should.  After [startMockDraft], clicking at most [roster_size]
    players one after the other records the picks 1, 2, ... in that order,
    gives the team exactly those players, takes them, and nobody else, out
    of the available players, keeps the user on the clock and sets no
    timer; the click that fills the roster, and no earlier one, completes
    the draft and deactivates it. *)
Theorem solo_draft_runs_to_completion :
  forall (league : Mock.LeagueProps) (now : string) (st0 : Mock.State)
         (team : Mock.MockTeam) (players : list Mock.MockPlayer),
    Mock.mockTeams st0 = [team] ->
    Mock.isAutoPicking st0 = false ->
    len players <= Mock.roster_size league ->
    let st := Mock.run league now (Mock.startMockDraft st0)
                (map Mock.UserPick players) in
    let complete :=
      (0 <? len players) && (len players =? Mock.roster_size league) in
    map Store.dp_pick_number (Mock.draftPicks st)
    = map Z.of_nat (seq 1 (List.length players))
    /\ map Store.dp_player_id (Mock.draftPicks st) = map Mock.mp_id players
    /\ Mock.mockTeams st
       = [{| Mock.mt_id := Mock.mt_id team; Mock.mt_name := Mock.mt_name team;
             Mock.draftedPlayers := players |}]
    /\ Mock.autoPickTimers st = Mock.autoPickTimers st0
    /\ Mock.isDraftComplete st = complete
    /\ Mock.isActive st = negb complete
    /\ Mock.currentTeamIndex st = Num 0
    /\ Mock.currentPick st
       = (if complete then Mock.roster_size league else len players + 1)
    /\ (forall id, In id (Mock.available_ids st)
                   <-> In id (map Mock.mp_id (Mock.availablePlayers st0))
                       /\ ~ In id (map Mock.mp_id players)).
Proof.
  intros league now st0 team players Hteams Hauto Hbound st complete.
  assert (Hstart : Mock.mockTeams (Mock.startMockDraft st0)
                   = [Mock.clear_drafted team]).
  { cbn [Mock.startMockDraft Mock.mockTeams]. now rewrite Hteams. }
  destruct (solo_run league now players (Mock.startMockDraft st0)
              (Mock.clear_drafted team) 1 Hstart eq_refl eq_refl Hauto
              eq_refl eq_refl ltac:(lia) ltac:(lia))
    as (I1 & I2 & I3 & I4 & I5 & I6 & I7 & I8 & I9).
  fold st in I1, I2, I3, I4, I5, I6, I7, I8, I9.
  replace (1 - 1 + len players) with (len players) in I5, I6, I8 by lia.
  fold complete in I5, I6, I8.
  cbn [Mock.startMockDraft Mock.draftPicks Mock.autoPickTimers map app
       Mock.clear_drafted Mock.mt_id Mock.mt_name Mock.draftedPlayers]
    in I1, I2, I3, I4.
  repeat match goal with |- _ /\ _ => split end; try assumption.
  - rewrite I1, <- seq_shift, map_map. apply map_ext. intros i. lia.
  - rewrite I8. destruct complete; [reflexivity | lia].
  - intros id. rewrite I9. unfold Mock.available_ids at 1.
    cbn [Mock.startMockDraft Mock.availablePlayers].
    rewrite all_available_ids. reflexivity.
Qed.

Lemma solo_draft_runs_to_completion_witness :
  let st := Mock.run Sample.soloLeague "t" (Mock.startMockDraft Sample.mockSolo)
              (map Mock.UserPick
                   [Sample.mockPlayer 9 true; Sample.mockPlayer 3 true]) in
  map Store.dp_pick_number (Mock.draftPicks st) = [1; 2]
  /\ Mock.isDraftComplete st = true
  /\ Mock.isActive st = false.
Proof.
  destruct (solo_draft_runs_to_completion Sample.soloLeague "t"%string
              Sample.mockSolo (Sample.mockTeam "A")
              [Sample.mockPlayer 9 true; Sample.mockPlayer 3 true])
    as (Hnum & _ & _ & _ & Hcomplete & Hact & _).
  - reflexivity.
  - reflexivity.
  - vm_compute. discriminate.
  - cbv zeta. repeat split; assumption.
Defined.

(** ** The two turn resolvers, and the shape of the snake *)

(** X26.  The resolver of the simulator and the index computed by the store's
    selector are the same function of the pick and the team count, on
    every pair of integers: also for zero teams, where both give NaN, and
    for picks below 1. *)
Theorem turn_resolvers_agree_everywhere :
  forall currentPick teamCount : Z,
    Store.getCurrentDraftTeamIndex currentPick teamCount
    = getDraftOrder currentPick teamCount.
Proof.
  intros p n. unfold Store.getCurrentDraftTeamIndex, getDraftOrder, js_rem.
  destruct (n =? 0).
  - destruct (jsnum_eqb _ _); reflexivity.
  - destruct (jsnum_eqb _ _); cbn; f_equal; lia.
Qed.

(** X27.  The snake order repeats every two rounds, and at every turn of the
    snake the same team picks twice in a row: the last pick of a round and
    the first pick of the next go to the same team. *)
Theorem snake_order_repeats_and_turns :
  forall teamCount : Z,
    0 < teamCount ->
    (forall p : Z,
        1 <= p ->
        getDraftOrder (p + 2 * teamCount) teamCount = getDraftOrder p teamCount)
    /\ (forall round : Z,
           1 <= round ->
           getDraftOrder (round * teamCount + 1) teamCount
           = getDraftOrder (round * teamCount) teamCount).
Proof.
  intros n Hn. split.
  - intros p Hp.
    destruct (pick_cell n p Hn Hp) as (Hr & Hc & Hpe).
    set (r := (p - 1) / n + 1) in *. set (c := (p - 1) mod n) in *.
    replace (p + 2 * n) with ((r + 2 - 1) * n + c + 1) by lia.
    rewrite Hpe at 1. rewrite !getDraftOrder_cell by lia.
    replace (r + 2) with (r + 2 * 1) by lia.
    now rewrite Z.even_add_mul_2.
  - intros r Hr.
    replace (r * n + 1) with ((r + 1 - 1) * n + 0 + 1) by lia.
    replace (r * n) with ((r - 1) * n + (n - 1) + 1) by lia.
    rewrite !getDraftOrder_cell by lia.
    rewrite Z.even_add. cbn [Z.even].
    destruct (Z.even r); cbn; f_equal; lia.
Qed.

Lemma snake_order_repeats_and_turns_witness :
  getDraftOrder (3 * 10 + 1) 10 = getDraftOrder (3 * 10) 10.
Proof.
  apply (proj2 (snake_order_repeats_and_turns 10 ltac:(lia)) 3). lia.
Defined.
